(** * Trajectory playback of lab_baxter_common: a shallow embedding

    The development embeds
    [lab_baxter_common/traj_playback/trajectory.py] (class [Trajectory])
    and states the properties of its parser, start-offset computation,
    phase latch, gripper lookup, result check and cancellation.

    Modelling conventions.
    - Python floats and [rospy.Duration] values are exact rationals ([Q]);
      rounding is not modelled.  Numeric equality is [Qeq] ([==]).
    - A Python exception is a value [Err e]; a function that can raise
      returns [result].
    - Python's [float] is taken to read a cell as a finite number or
      to fail; cells that read as [inf] or [nan] are not modelled.
    - Calls into ROS ([rospy], [actionlib], [baxter_interface]) are
      recorded as a trace of [event]s; what those libraries answer is an
      input of the model.
    - The feedback callbacks run on the two clients' threads; the order
      in which the threads take their steps is an input of the model. *)

From Stdlib Require Import QArith Qabs ZArith List Permutation.
From Stdlib Require Import String Ascii Bool Lia Sorted.
From stdpp Require Import gmap strings.
From Equations Require Import Equations.
Import ListNotations.

Local Open Scope Q_scope.
Local Open Scope string_scope.

(** ** Python exceptions and results *)

Inductive exn : Set :=
| IOError | IndexError | KeyError | TypeError | ValueError
| ZeroDivisionError | NameError | AttributeError.

Inductive result (A : Type) : Type :=
| Ok (a : A)
| Err (e : exn).
Arguments Ok {A} a.
Arguments Err {A} e.

Definition rbind {A B} (r : result A) (k : A -> result B) : result B :=
  match r with
  | Ok a => k a
  | Err e => Err e
  end.

#[export] Instance result_bind : MBind result := fun A B k r => rbind r k.

Definition is_ok {A} (r : result A) : bool :=
  match r with Ok _ => true | Err _ => false end.

(** [d[k]] on a dict: [KeyError] when the key is absent. *)
Definition dict_get (d : gmap string Q) (k : string) : result Q :=
  match d !! k with
  | Some v => Ok v
  | None => Err KeyError
  end.

(** [dict(pairs)]: a later pair overrides an earlier one with the same key. *)
Definition dict (pairs : list (string * Q)) : gmap string Q :=
  fold_left (fun m kv => <[fst kv := snd kv]> m) pairs ∅.

(** [[f(x) for x in l]] where [f] can raise: the first failure wins. *)
Fixpoint list_comp {A B} (f : A -> result B) (l : list A) : result (list B) :=
  match l with
  | [] => Ok []
  | x :: l' => y ← f x; ys ← list_comp f l'; Ok (y :: ys)
  end.

(** [l[i]] with Python's negative indices. *)
Definition py_getitem {A} (l : list A) (i : Z) : result A :=
  let n := Z.of_nat (length l) in
  let j := if (i <? 0)%Z then (i + n)%Z else i in
  if ((j <? 0) || (n <=? j))%Z then Err IndexError
  else match nth_error l (Z.to_nat j) with
       | Some x => Ok x
       | None => Err IndexError
       end.

(** ** Strings: [rstrip], [split(',')] and [name[:-3]] *)

Definition is_space (c : ascii) : bool :=
  let n := nat_of_ascii c in
  (Nat.eqb n 32 || (Nat.leb 9 n && Nat.leb n 13))%bool.

Fixpoint rstrip (s : string) : string :=
  match s with
  | EmptyString => EmptyString
  | String c s' =>
      match rstrip s' with
      | EmptyString => if is_space c then EmptyString else String c EmptyString
      | r => String c r
      end
  end.

Definition comma : ascii := ","%char.

Fixpoint split_comma (s : string) : list string :=
  match s with
  | EmptyString => [EmptyString]
  | String c s' =>
      if Ascii.eqb c comma then EmptyString :: split_comma s'
      else match split_comma s' with
           | w :: ws => String c w :: ws
           | [] => [String c EmptyString]
           end
  end.

(** [name[:-3]]: the name without its last three characters. *)
Definition drop_last3 (name : string) : string :=
  substring 0 (String.length name - 3) name.

(** ** Rationals: comparisons as booleans *)

Definition Qltb (x y : Q) : bool := negb (Qle_bool y x).

(** ** [bisect.bisect]: the standard library's right bisection

    [lo] and [hi] start at [0] and [len(a)], so that [a[mid]] is always
    inside the list. *)

Lemma midpoint_bounds (lo hi : nat) :
  (lo < hi)%nat -> (lo <= (lo + hi) / 2 < hi)%nat.
Proof.
  intros H. split.
  - apply Nat.div_le_lower_bound; lia.
  - apply Nat.Div0.div_lt_upper_bound; lia.
Qed.

Equations? bisect_loop (a : list Q) (x : Q) (lo hi : nat) : nat
  by wf (hi - lo)%nat lt :=
  bisect_loop a x lo hi with lt_dec lo hi => {
    | right _ => lo
    | left _ =>
        let mid := ((lo + hi) / 2)%nat in
        if Qltb x (nth mid a 0) then bisect_loop a x lo mid
        else bisect_loop a x (S mid) hi
  }.
Proof.
  all: assert (Hm : mid = ((lo + hi) / 2)%nat) by reflexivity;
    pose proof (midpoint_bounds lo hi l); lia.
Qed.

Definition bisect (a : list Q) (x : Q) : Z :=
  Z.of_nat (bisect_loop a x 0 (length a)).

(** The index computed in the gripper loop:
    [idx = bisect.bisect(pnt_times, now_from_start) - 1]. *)
Definition gripper_index (pnt_times : list Q) (now_from_start : Q) : Z :=
  (bisect pnt_times now_from_start - 1)%Z.

(** ** Messages and the session object *)

Record JointTrajectoryPoint : Type := {
  positions : list Q;
  time_from_start : Q
}.

(** A [FollowJointTrajectoryGoal], reduced to the two fields of its
    [trajectory] that the code touches. *)
Record FollowJointTrajectoryGoal : Type := {
  joint_names : list string;
  points : list JointTrajectoryPoint
}.

Definition empty_goal : FollowJointTrajectoryGoal :=
  {| joint_names := []; points := [] |}.

Definition append_joint_name (g : FollowJointTrajectoryGoal) (name : string) :=
  {| joint_names := joint_names g ++ [name]; points := points g |}.

Definition append_point (g : FollowJointTrajectoryGoal) (p : JointTrajectoryPoint) :=
  {| joint_names := joint_names g; points := points g ++ [p] |}.

(** The data attributes of a [Trajectory] instance. *)
Record Trajectory : Type := {
  l_goal : FollowJointTrajectoryGoal;
  r_goal : FollowJointTrajectoryGoal;
  l_grip : FollowJointTrajectoryGoal;
  r_grip : FollowJointTrajectoryGoal;
  arm_trajectory_started : bool;
  slow_move_offset : Q;
  trajectory_start_offset : Q;
  trajectory_actual_offset : Q
}.

Definition set_l_goal (s : Trajectory) g :=
  {| l_goal := g; r_goal := r_goal s; l_grip := l_grip s; r_grip := r_grip s;
     arm_trajectory_started := arm_trajectory_started s;
     slow_move_offset := slow_move_offset s;
     trajectory_start_offset := trajectory_start_offset s;
     trajectory_actual_offset := trajectory_actual_offset s |}.

Definition set_r_goal (s : Trajectory) g :=
  {| l_goal := l_goal s; r_goal := g; l_grip := l_grip s; r_grip := r_grip s;
     arm_trajectory_started := arm_trajectory_started s;
     slow_move_offset := slow_move_offset s;
     trajectory_start_offset := trajectory_start_offset s;
     trajectory_actual_offset := trajectory_actual_offset s |}.

Definition set_l_grip (s : Trajectory) g :=
  {| l_goal := l_goal s; r_goal := r_goal s; l_grip := g; r_grip := r_grip s;
     arm_trajectory_started := arm_trajectory_started s;
     slow_move_offset := slow_move_offset s;
     trajectory_start_offset := trajectory_start_offset s;
     trajectory_actual_offset := trajectory_actual_offset s |}.

Definition set_r_grip (s : Trajectory) g :=
  {| l_goal := l_goal s; r_goal := r_goal s; l_grip := l_grip s; r_grip := g;
     arm_trajectory_started := arm_trajectory_started s;
     slow_move_offset := slow_move_offset s;
     trajectory_start_offset := trajectory_start_offset s;
     trajectory_actual_offset := trajectory_actual_offset s |}.

Definition set_offsets (s : Trajectory) (slow start : Q) :=
  {| l_goal := l_goal s; r_goal := r_goal s; l_grip := l_grip s; r_grip := r_grip s;
     arm_trajectory_started := arm_trajectory_started s;
     slow_move_offset := slow;
     trajectory_start_offset := start;
     trajectory_actual_offset := trajectory_actual_offset s |}.

(** The attribute values [__init__] assigns. *)
Definition new_trajectory : Trajectory :=
  {| l_goal := empty_goal; r_goal := empty_goal;
     l_grip := empty_goal; r_grip := empty_goal;
     arm_trajectory_started := false;
     slow_move_offset := 0;
     trajectory_start_offset := 0;
     trajectory_actual_offset := 0 |}.

Definition param_ns : string := "/rsdk_joint_trajectory_action_server/".
Definition gripper_rate : Q := 20.

(** ** The phase latch: [_feedback], [_set_trajectory_flag],
       [_get_trajectory_flag] *)

Definition _set_trajectory_flag (s : Trajectory) (value : bool) : Trajectory :=
  {| l_goal := l_goal s; r_goal := r_goal s; l_grip := l_grip s; r_grip := r_grip s;
     arm_trajectory_started := value;
     slow_move_offset := slow_move_offset s;
     trajectory_start_offset := trajectory_start_offset s;
     trajectory_actual_offset := trajectory_actual_offset s |}.

Definition _get_trajectory_flag (s : Trajectory) : bool :=
  arm_trajectory_started s.

Definition set_actual_offset (s : Trajectory) (t : Q) : Trajectory :=
  {| l_goal := l_goal s; r_goal := r_goal s; l_grip := l_grip s; r_grip := r_grip s;
     arm_trajectory_started := arm_trajectory_started s;
     slow_move_offset := slow_move_offset s;
     trajectory_start_offset := trajectory_start_offset s;
     trajectory_actual_offset := t |}.

(** [_feedback(data)], with [data.actual.time_from_start] as [t]: one
    whole invocation, run without any other thread in between.  Its
    separate steps are [cb_step] below. *)
Definition _feedback (s : Trajectory) (t : Q) : Trajectory :=
  if (negb (_get_trajectory_flag s) && Qle_bool (trajectory_start_offset s) t)%bool
  then set_actual_offset (_set_trajectory_flag s true) t
  else s.

(** The session after a sequence of feedback invocations. *)
Definition feedbacks (s : Trajectory) (ts : list Q) : Trajectory :=
  fold_left _feedback ts s.

(** How often the flag goes from false to true along a run. *)
Fixpoint flag_rises (s : Trajectory) (ts : list Q) : nat :=
  match ts with
  | [] => 0
  | t :: ts' =>
      let s' := _feedback s t in
      ((if (negb (arm_trajectory_started s) && arm_trajectory_started s')%bool
        then 1 else 0) + flag_rises s' ts')%nat
  end.

(** *** One invocation, step by step

    [_feedback] reads the flag, then sets it, then stores the time: three
    separate steps, the first two each under the lock.  Two invocations
    on two threads can take these steps in any order. *)

Inductive pc : Set := AtTest | AtSetFlag | AtSetOffset | Returned.

Record callback : Type := {
  cb_pc : pc;
  cb_time : Q
}.

Definition invoke (t : Q) : callback := {| cb_pc := AtTest; cb_time := t |}.

Definition at_pc (c : callback) (p : pc) : callback :=
  {| cb_pc := p; cb_time := cb_time c |}.

Definition cb_step (s : Trajectory) (c : callback) : Trajectory * callback :=
  match cb_pc c with
  | AtTest =>
      if (negb (_get_trajectory_flag s)
          && Qle_bool (trajectory_start_offset s) (cb_time c))%bool
      then (s, at_pc c AtSetFlag)
      else (s, at_pc c Returned)
  | AtSetFlag => (_set_trajectory_flag s true, at_pc c AtSetOffset)
  | AtSetOffset => (set_actual_offset s (cb_time c), at_pc c Returned)
  | Returned => (s, c)
  end.

(** Two invocations under a schedule: [true] lets the first one take
    its next step, [false] the second. *)
Fixpoint interleave (sched : list bool) (s : Trajectory) (a b : callback)
  : Trajectory * callback * callback :=
  match sched with
  | [] => (s, a, b)
  | true :: rest => let '(s', a') := cb_step s a in interleave rest s' a' b
  | false :: rest => let '(s', b') := cb_step s b in interleave rest s' a b'
  end.

(** ** [_clean_line] and [_add_point] *)

Section Parser.

(** Python's builtin [float] on a cell: [None] stands for [ValueError]. *)
Variable py_float : string -> option Q.
(** The joint angles the two limbs report ([Limb.joint_angle]). *)
Variable l_arm r_arm : gmap string Q.
(** The parameter server ([rospy.get_param]). *)
Variable params : gmap string Q.

Definition get_param (name : string) (default : Q) : Q :=
  match params !! name with
  | Some v => v
  | None => default
  end.

Definition joint_angle (limb : gmap string Q) (name : string) : result Q :=
  dict_get limb name.

(** [try_float] of [_clean_line]. *)
Definition try_float (x : string) : option Q := py_float x.

(** The pairs whose value is not [None]. *)
Fixpoint drop_none (combined : list (string * option Q)) : list (string * Q) :=
  match combined with
  | [] => []
  | (k, Some v) :: rest => (k, v) :: drop_none rest
  | (_, None) :: rest => drop_none rest
  end.

Definition _clean_line (line : string) (names : list string)
  : gmap string Q * list (option Q) :=
  let line := List.map try_float (split_comma (rstrip line)) in
  let combined := combine (List.tl names) (List.tl line) in
  let cleaned := drop_none combined in
  let command := dict cleaned in
  (command, line).

Definition _add_point (s : Trajectory) (positions : list Q) (side : string)
           (time : Q) : Trajectory :=
  let point := {| positions := positions; time_from_start := time |} in
  if String.eqb side "left" then set_l_goal s (append_point (l_goal s) point)
  else if String.eqb side "right" then set_r_goal s (append_point (r_goal s) point)
  else if String.eqb side "left_gripper" then set_l_grip s (append_point (l_grip s) point)
  else if String.eqb side "right_gripper" then set_r_grip s (append_point (r_grip s) point)
  else s.

(** ** [find_start_offset] *)

Definition vel_param (name : string) : string :=
  param_ns ++ name ++ "_default_velocity".

(** One round of the loop over [joint_names]; the accumulator holds
    the lists [cur], [cmd] and [dflt_vel]. *)
Definition offset_step (pos : gmap string Q)
           (acc : list Q * list Q * list Q) (name : string)
  : result (list Q * list Q * list Q) :=
  let '(cur, cmd, dflt_vel) := acc in
  if String.eqb "left" (drop_last3 name) then
    c ← dict_get pos name;
    a ← joint_angle l_arm name;
    let prm := get_param (vel_param name) 0.25 in
    Ok ((cur ++ [a])%list, (cmd ++ [c])%list, (dflt_vel ++ [prm])%list)
  else if String.eqb "right" (drop_last3 name) then
    c ← dict_get pos name;
    a ← joint_angle r_arm name;
    let prm := get_param (vel_param name) 0.25 in
    Ok ((cur ++ [a])%list, (cmd ++ [c])%list, (dflt_vel ++ [prm])%list)
  else Ok acc.

Fixpoint offset_lists (pos : gmap string Q) (names : list string)
         (acc : list Q * list Q * list Q)
  : result (list Q * list Q * list Q) :=
  match names with
  | [] => Ok acc
  | name :: rest => acc' ← offset_step pos acc name; offset_lists pos rest acc'
  end.

(** [operator.div] on floats. *)
Definition py_div (a b : Q) : result Q :=
  if Qeq_bool b 0 then Err ZeroDivisionError else Ok (a / b).

(** [max(l)]: the first greatest element, [ValueError] on []. *)
Definition py_max (l : list Q) : result Q :=
  match l with
  | [] => Err ValueError
  | x :: rest => Ok (fold_left (fun m y => if Qltb m y then y else m) rest x)
  end.

Definition find_start_offset (names : list string) (pos : gmap string Q)
  : result Q :=
  '(cur, cmd, dflt_vel) ← offset_lists pos names ([], [], []);
  let diffs := List.map (fun p => fst p - snd p) (combine cmd cur) in
  let diffs := List.map Qabs diffs in
  ratios ← list_comp (fun p => py_div (fst p) (snd p)) (combine diffs dflt_vel);
  py_max ratios.

(** ** [parse_file] *)

(** [start_offset + values[0]]: [None] as operand is a [TypeError]. *)
Definition add_num_cell (a : Q) (cell : option Q) : result Q :=
  match cell with
  | Some t => Ok (a + t)
  | None => Err TypeError
  end.

(** [values[0] + start_offset]. *)
Definition add_cell_num (cell : option Q) (a : Q) : result Q :=
  match cell with
  | Some t => Ok (t + a)
  | None => Err TypeError
  end.

(** The first loop of [parse_file]: sort the header names by limb. *)
Definition classify (s : Trajectory) (name : string) : Trajectory :=
  if String.eqb "left" (drop_last3 name)
  then set_l_goal s (append_joint_name (l_goal s) name)
  else if String.eqb "right" (drop_last3 name)
  then set_r_goal s (append_joint_name (r_goal s) name)
  else s.

(** The block under [if idx == 0]. *)
Definition first_row (names : list string) (cmd : gmap string Q)
           (values : list (option Q)) (s : Trajectory)
  : result (Trajectory * Q) :=
  cur_cmd ← list_comp (joint_angle l_arm) (joint_names (l_goal s));
  let s := _add_point s cur_cmd "left" 0 in
  cur_cmd ← list_comp (joint_angle r_arm) (joint_names (r_goal s));
  let s := _add_point s cur_cmd "right" 0 in
  start_offset ← find_start_offset names cmd;
  v0 ← py_getitem values 0;
  start ← add_num_cell start_offset v0;
  Ok (set_offsets s start_offset start, start_offset).

(** The four [_add_point] calls every row ends with. *)
Definition row_points (cmd : gmap string Q) (values : list (option Q))
           (start_offset : Q) (s : Trajectory) : result Trajectory :=
  cur_cmd ← list_comp (dict_get cmd) (joint_names (l_goal s));
  v0 ← py_getitem values 0;
  t ← add_cell_num v0 start_offset;
  let s := _add_point s cur_cmd "left" t in
  cur_cmd ← list_comp (dict_get cmd) (joint_names (r_goal s));
  v0 ← py_getitem values 0;
  t ← add_cell_num v0 start_offset;
  let s := _add_point s cur_cmd "right" t in
  g ← dict_get cmd "left_gripper";
  v0 ← py_getitem values 0;
  t ← add_cell_num v0 start_offset;
  let s := _add_point s [g] "left_gripper" t in
  g ← dict_get cmd "right_gripper";
  v0 ← py_getitem values 0;
  t ← add_cell_num v0 start_offset;
  let s := _add_point s [g] "right_gripper" t in
  Ok s.

(** The loop [for idx, values in enumerate(lines[1:])].  The local
    [start_offset] is unbound ([None]) until the row with [idx == 0]
    assigns it. *)
Fixpoint parse_rows (names : list string) (idx : nat)
         (start_offset : option Q) (rows : list string) (s : Trajectory)
  : result Trajectory :=
  match rows with
  | [] => Ok s
  | line :: rest =>
      let '(cmd, values) := _clean_line line names in
      '(s, start_offset) ←
        (if Nat.eqb idx 0 then
           '(s, off) ← first_row names cmd values s; Ok (s, Some off)
         else Ok (s, start_offset));
      off ← match start_offset with
            | Some off => Ok off
            | None => Err NameError
            end;
      s ← row_points cmd values off s;
      parse_rows names (S idx) start_offset rest s
  end.

(** [parse_file]: [file] is what [open(filename).readlines()] gives,
    [None] when the file cannot be read. *)
Definition parse_file (file : option (list string)) (s : Trajectory)
  : result Trajectory :=
  match file with
  | None => Err IOError
  | Some lines =>
      header ← py_getitem lines 0;
      let names := split_comma (rstrip header) in
      let s := fold_left classify names s in
      parse_rows names 0 None (List.tl lines) s
  end.

End Parser.

(** ** The ROS side: action clients, grippers and the calls made *)

Inductive arm : Set := LeftArm | RightArm.

(** [actionlib.GoalStatus]. *)
Inductive GoalStatus : Set :=
| PENDING | ACTIVE | PREEMPTED | SUCCEEDED | ABORTED
| REJECTED | PREEMPTING | RECALLING | RECALLED | LOST.

Definition is_active (st : GoalStatus) : bool :=
  match st with ACTIVE => true | _ => false end.

(** What a [SimpleActionClient] answers.  [get_result] is the
    [error_code] of the result object, or [None] when [get_result()]
    returns [None] because no result has been received. *)
Record ActionClient : Type := {
  wait_for_server : Q -> bool;
  gh : bool;
  get_state : GoalStatus;
  wait_for_result : Q -> bool;
  get_result : option Z
}.

(** What a [baxter_interface.Gripper] answers. *)
Record Gripper : Type := {
  g_error : bool;
  g_calibrated : bool;
  g_type : string
}.

Inductive event : Type :=
| EWaitForServer (a : arm) (timeout : Q)
| ELogErr (msg : string)
| ELogWarn (msg : string)
| ESignalShutdown (msg : string)
| EGripperReset (a : arm)
| ESendGoal (a : arm) (goal : FollowJointTrajectoryGoal)
| ECancelGoal (a : arm)
| ESleep (d : Q)
| EWaitForResult (a : arm) (timeout : Q)
| ECommandPosition (a : arm) (pos : Q)
| ERateSleep (hz : Q).

Definition is_send_goal (e : event) : bool :=
  match e with ESendGoal _ _ => true | _ => false end.

Definition is_cancel (a : arm) (e : event) : bool :=
  match e, a with
  | ECancelGoal LeftArm, LeftArm => true
  | ECancelGoal RightArm, RightArm => true
  | _, _ => false
  end.

Definition is_warning (e : event) : bool :=
  match e with ELogWarn _ => true | _ => false end.

(** A piece of client code: the calls it makes and how it ends. *)
Definition prog (A : Type) : Type := (list event * result A)%type.

Definition pbind {A B} (m : prog A) (k : A -> prog B) : prog B :=
  match m with
  | (tr, Ok a) => let '(tr', r) := k a in ((tr ++ tr')%list, r)
  | (tr, Err e) => (tr, Err e)
  end.

(** ** [__init__] *)

Definition server_msg : string :=
  "Action server not available. Verify action server availability.".

(** The module never imports [sys], so the [sys.exit(1)] of the failure
    branch raises [NameError]; either way the constructor does not
    return. *)
Definition init (left right : ActionClient) (lg rg : Gripper)
  : prog Trajectory :=
  let l_server_up := wait_for_server left 10 in
  let r_server_up := wait_for_server right 10 in
  let probes := [EWaitForServer LeftArm 10; EWaitForServer RightArm 10] in
  if (negb l_server_up || negb r_server_up)%bool then
    ((probes ++ [ELogErr server_msg; ESignalShutdown server_msg])%list,
     Err NameError)
  else
    ((probes
       ++ (if g_error lg then [EGripperReset LeftArm] else [])
       ++ (if g_error rg then [EGripperReset RightArm] else []))%list,
     Ok new_trajectory).

(** The two [send_goal] calls [start] opens with. *)
Definition send_goals (s : Trajectory) : prog Trajectory :=
  ([ESendGoal LeftArm (l_goal s); ESendGoal RightArm (r_goal s)], Ok s).

(** ** [stop] *)

Section Stop.

(** What a client answers once [cancel_goal()] has been called on it
    and the drain delay has passed. *)
Variable cancel_goal : ActionClient -> ActionClient.

Definition stop_arm (a : arm) (c : ActionClient) : list event * ActionClient :=
  if (gh c && is_active (get_state c))%bool
  then ([ECancelGoal a], cancel_goal c)
  else ([], c).

Definition stop (left right : ActionClient)
  : list event * (ActionClient * ActionClient) :=
  let '(el, left') := stop_arm LeftArm left in
  let '(er, right') := stop_arm RightArm right in
  ((el ++ er ++ [ESleep 0.1])%list, (left', right')).

End Stop.

(** ** [wait] *)

Definition wait_msg : string :=
  "Trajectory action failed or did not finish before timeout/interrupt.".

(** [result.error_code] on what [get_result()] returned. *)
Definition error_code (r : option Z) : result Z :=
  match r with
  | Some c => Ok c
  | None => Err AttributeError
  end.

Definition wait_timeout (params : gmap string Q) (s : Trajectory) : result Q :=
  p ← py_getitem (points (r_goal s)) (-1);
  let last_time := time_from_start p in
  let time_buffer := get_param params (param_ns ++ "goal_time") 0 + 1.5 in
  Ok (slow_move_offset s + last_time + time_buffer).

Definition wait (params : gmap string Q) (s : Trajectory)
           (left right : ActionClient) : prog bool :=
  match wait_timeout params s with
  | Err e => ([], Err e)
  | Ok timeout =>
      let l_finish := wait_for_result left timeout in
      let r_finish := wait_for_result right timeout in
      let tr := [EWaitForResult LeftArm timeout; EWaitForResult RightArm timeout] in
      match error_code (get_result left) with
      | Err e => (tr, Err e)
      | Ok lc =>
          match error_code (get_result right) with
          | Err e => (tr, Err e)
          | Ok rc =>
              let l_result := (lc =? 0)%Z in
              let r_result := (rc =? 0)%Z in
              if forallb id [l_finish; r_finish; l_result; r_result]
              then (tr, Ok true)
              else ((tr ++ [ELogWarn wait_msg])%list, Ok false)
          end
      end
  end.

(** ** [_execute_gripper_commands] *)

(** One [command_position] of the loop body, skipped for a custom
    gripper. *)
Definition gripper_command (a : arm) (g : Gripper)
           (cmd : list JointTrajectoryPoint) (idx : Z) : result (list event) :=
  if negb (String.eqb (g_type g) "custom") then
    p ← py_getitem cmd idx;
    v ← py_getitem (positions p) 0;
    Ok [ECommandPosition a v]
  else Ok [].

(** The [while] loop.  Each tick is what [rospy.get_time()] and
    [rospy.is_shutdown()] answer at one evaluation of the loop test; the
    run is followed for as many ticks as are given. *)
Fixpoint gripper_loop (lg rg : Gripper) (l_cmd r_cmd : list JointTrajectoryPoint)
         (pnt_times : list Q) (start_time end_time : Q)
         (ticks : list (Q * bool)) : result (list event) :=
  match ticks with
  | [] => Ok []
  | (now, shutdown) :: rest =>
      let now_from_start := now - start_time in
      if (Qltb now_from_start (end_time + 1 / gripper_rate) && negb shutdown)%bool
      then
        let idx := gripper_index pnt_times now_from_start in
        er ← gripper_command RightArm rg r_cmd idx;
        el ← gripper_command LeftArm lg l_cmd idx;
        more ← gripper_loop lg rg l_cmd r_cmd pnt_times start_time end_time rest;
        Ok (er ++ el ++ [ERateSleep gripper_rate] ++ more)%list
      else Ok []
  end.

Definition _execute_gripper_commands (s : Trajectory) (lg rg : Gripper)
           (t0 : Q) (ticks : list (Q * bool)) : result (list event) :=
  let start_time := t0 - trajectory_actual_offset s in
  let r_cmd := points (r_grip s) in
  let l_cmd := points (l_grip s) in
  let pnt_times := List.map time_from_start r_cmd in
  end_time ← py_getitem pnt_times (-1);
  gripper_loop lg rg l_cmd r_cmd pnt_times start_time end_time ticks.

(** ** A decimal reader for the examples

    The theorems hold for any behaviour of Python's [float]; the
    examples run the parser with this reader of plain decimal literals
    ([-12], [0.25], [.5], [3.]), which [float] reads the same way. *)

Definition digit_of (c : ascii) : option Z :=
  let n := nat_of_ascii c in
  if (Nat.leb 48 n && Nat.leb n 57)%bool then Some (Z.of_nat (n - 48)) else None.

(** Reads a run of digits: the number so far, how many digits, the rest. *)
Fixpoint read_digits (s : string) (acc : Z) (count : nat) : Z * nat * string :=
  match s with
  | EmptyString => (acc, count, s)
  | String c s' =>
      match digit_of c with
      | Some d => read_digits s' (10 * acc + d)%Z (S count)
      | None => (acc, count, s)
      end
  end.

Definition float_unsigned (s : string) : option Q :=
  let '(ip, ni, rest) := read_digits s 0%Z 0%nat in
  match rest with
  | EmptyString => if Nat.eqb ni 0 then None else Some (inject_Z ip)
  | String c rest' =>
      if Ascii.eqb c "."%char then
        let '(num, nf, rest'') := read_digits rest' ip 0%nat in
        match rest'' with
        | EmptyString =>
            if Nat.eqb (ni + nf) 0 then None
            else Some (Qred (Qmake num (Z.to_pos (10 ^ Z.of_nat nf))))
        | _ => None
        end
      else None
  end.

Definition float_decimal (s : string) : option Q :=
  match s with
  | String "-"%char s' => option_map Qopp (float_unsigned s')
  | String "+"%char s' => float_unsigned s'
  | _ => float_unsigned s
  end.


(** ** Vocabulary for the statements *)

(** The session with more points at the end of its four trajectories. *)
Definition extend (s : Trajectory) (pl pr gl gr : list JointTrajectoryPoint)
  : Trajectory :=
  {| l_goal := {| joint_names := joint_names (l_goal s);
                  points := points (l_goal s) ++ pl |};
     r_goal := {| joint_names := joint_names (r_goal s);
                  points := points (r_goal s) ++ pr |};
     l_grip := {| joint_names := joint_names (l_grip s);
                  points := points (l_grip s) ++ gl |};
     r_grip := {| joint_names := joint_names (r_grip s);
                  points := points (r_grip s) ++ gr |};
     arm_trajectory_started := arm_trajectory_started s;
     slow_move_offset := slow_move_offset s;
     trajectory_start_offset := trajectory_start_offset s;
     trajectory_actual_offset := trajectory_actual_offset s |}.

(** What one data row contributes: its time and the commanded values. *)
Record RowData : Type := {
  rd_time : Q;
  rd_left : list Q;
  rd_right : list Q;
  rd_lgrip : Q;
  rd_rgrip : Q
}.

Definition point_at (off : Q) (pos : RowData -> list Q) (rd : RowData)
  : JointTrajectoryPoint :=
  {| positions := pos rd; time_from_start := rd_time rd + off |}.

Definition times (g : FollowJointTrajectoryGoal) : list Q :=
  List.map time_from_start (points g).

Definition is_left (name : string) : bool := String.eqb "left" (drop_last3 name).
Definition is_right (name : string) : bool := String.eqb "right" (drop_last3 name).
Definition is_arm (name : string) : bool := (is_left name || is_right name)%bool.

(** The session with more joint names on its two arm trajectories. *)
Definition add_names (s : Trajectory) (ln rn : list string) : Trajectory :=
  {| l_goal := {| joint_names := joint_names (l_goal s) ++ ln;
                  points := points (l_goal s) |};
     r_goal := {| joint_names := joint_names (r_goal s) ++ rn;
                  points := points (r_goal s) |};
     l_grip := l_grip s;
     r_grip := r_grip s;
     arm_trajectory_started := arm_trajectory_started s;
     slow_move_offset := slow_move_offset s;
     trajectory_start_offset := trajectory_start_offset s;
     trajectory_actual_offset := trajectory_actual_offset s |}.

(** The points a list of rows contributes to the four trajectories. *)
Definition extend_rows (s : Trajectory) (off : Q) (rds : list RowData) : Trajectory :=
  extend s (List.map (point_at off rd_left) rds)
           (List.map (point_at off rd_right) rds)
           (List.map (point_at off (fun rd => [rd_lgrip rd])) rds)
           (List.map (point_at off (fun rd => [rd_rgrip rd])) rds).

(** The keys a data row is indexed with. *)
Definition needed_keys (lnames rnames : list string) : list string :=
  (lnames ++ rnames ++ ["left_gripper"; "right_gripper"])%list.

Section Recording.

Variable py_float : string -> option Q.
Variable l_arm r_arm : gmap string Q.
Variable params : gmap string Q.

(** The cells of a line, read as numbers, and its time cell
    ([values] and [values[0]] in [parse_file]). *)
Definition row_values (line : string) : list (option Q) :=
  List.map py_float (split_comma (rstrip line)).

Definition row_time (line : string) : option Q :=
  List.hd None (row_values line).

(** The command mapping of a line. *)
Definition row_cmd (names : list string) (line : string) : gmap string Q :=
  fst (_clean_line py_float line names).

(** [rd] is what the four list/dict reads of a row yield. *)
Definition row_reads (cmd : gmap string Q) (values : list (option Q))
           (lnames rnames : list string) (rd : RowData) : Prop :=
  py_getitem values 0 = Ok (Some (rd_time rd))
  /\ list_comp (dict_get cmd) lnames = Ok (rd_left rd)
  /\ list_comp (dict_get cmd) rnames = Ok (rd_right rd)
  /\ dict_get cmd "left_gripper" = Ok (rd_lgrip rd)
  /\ dict_get cmd "right_gripper" = Ok (rd_rgrip rd).

(** The quantities of the start-offset formula, joint by joint. *)
Definition current (name : string) : option Q :=
  if is_left name then l_arm !! name else r_arm !! name.

Definition velocity (name : string) : Q :=
  get_param params (vel_param name) 0.25.

(** [|commanded - current| / velocity] for one joint. *)
Definition joint_ratio (pos : gmap string Q) (name : string) : option Q :=
  match pos !! name, current name with
  | Some c, Some a => Some (Qabs (c - a) / velocity name)
  | _, _ => None
  end.

(** What the loop of [find_start_offset] appends for one arm joint:
    current angle, commanded position, default velocity. *)
Definition joint_triple (pos : gmap string Q) (name : string)
  : result (Q * Q * Q) :=
  c ← dict_get pos name;
  a ← match current name with Some a => Ok a | None => Err KeyError end;
  Ok (a, c, velocity name).

Definition triple_ratio (tr : Q * Q * Q) : result Q :=
  let '(a, c, v) := tr in py_div (Qabs (c - a)) v.

(** A joint the formula can be computed for: commanded and current
    angle known, velocity not zero. *)
Definition usable (pos : gmap string Q) (name : string) : Prop :=
  is_Some (joint_ratio pos name) /\ ~ velocity name == 0.

End Recording.

(** ** A recording for the examples

    Two joints and two grippers; the first row is stamped [1.0] and asks
    the left joint to be at [0.6] while the arm is at [0.1], so that the
    start offset is [0.5 / 0.25 = 2]. *)

Definition nl : string := String (ascii_of_nat 10) EmptyString.

Definition demo_file : list string :=
  ["time,left_s0,right_s0,left_gripper,right_gripper" ++ nl;
   "1.0,0.6,0.1,50,50" ++ nl;
   "3.0,0.3,0.3,80,80" ++ nl].

Definition demo_l_arm : gmap string Q := {["left_s0" := 0.1]}.
Definition demo_r_arm : gmap string Q := {["right_s0" := 0.1]}.
Definition demo_params : gmap string Q := ∅.

Definition demo_parse (file : list string) : result Trajectory :=
  parse_file float_decimal demo_l_arm demo_r_arm demo_params (Some file)
             new_trajectory.

Definition demo_session : Trajectory :=
  Eval vm_compute in
    match demo_parse demo_file with
    | Ok s => s
    | Err _ => new_trajectory
    end.

(** The same recording with the left joint's cell of the first row left
    blank. *)
Definition demo_file_blank : list string :=
  ["time,left_s0,right_s0,left_gripper,right_gripper" ++ nl;
   "1.0,,0.1,50,50" ++ nl;
   "3.0,0.3,0.3,80,80" ++ nl].

Definition demo_names : list string := split_comma (rstrip (nth 0 demo_file_blank "")).

Definition demo_joint_names : list string :=
  ["time"; "left_s0"; "right_s0"; "left_gripper"; "right_gripper"].

(** The command mapping of the first row of [demo_file]. *)
Definition demo_pos : gmap string Q :=
  dict [("left_s0", 0.6); ("right_s0", 0.1);
        ("left_gripper", 50); ("right_gripper", 50)].

(** ** Action clients for the examples *)

(** A client whose goal is still running when the wait times out: no
    result has arrived. *)
Definition running_client : ActionClient :=
  {| wait_for_server := fun _ => true;
     gh := true;
     get_state := ACTIVE;
     wait_for_result := fun _ => false;
     get_result := None |}.

(** A client whose goal has succeeded. *)
Definition done_client : ActionClient :=
  {| wait_for_server := fun _ => true;
     gh := true;
     get_state := SUCCEEDED;
     wait_for_result := fun _ => true;
     get_result := Some 0%Z |}.

(** A client whose server never comes up. *)
Definition down_client : ActionClient :=
  {| wait_for_server := fun _ => false;
     gh := false;
     get_state := LOST;
     wait_for_result := fun _ => false;
     get_result := None |}.

(** A cancelled goal is reported as preempted from then on. *)
Definition preempt (c : ActionClient) : ActionClient :=
  {| wait_for_server := wait_for_server c;
     gh := gh c;
     get_state := PREEMPTED;
     wait_for_result := wait_for_result c;
     get_result := get_result c |}.

Definition plain_gripper : Gripper :=
  {| g_error := false; g_calibrated := true; g_type := "electric" |}.

(** [gh is not None and get_state() == ACTIVE]. *)
Definition active_goal (c : ActionClient) : bool :=
  (gh c && is_active (get_state c))%bool.

(** ** [start] *)

(** While [start] polls, the feedback callbacks of the two clients run
    on their own threads, one thread per client.  A thread is at some
    step of an invocation of [_feedback], or has returned from its last
    one. *)
Record feedback_threads : Type := {
  th_session : Trajectory;
  th_left : callback;
  th_right : callback
}.

(** A thread that has not been handed any feedback yet. *)
Definition idle : callback := {| cb_pc := Returned; cb_time := 0 |}.

Definition threads_of (s : Trajectory) : feedback_threads :=
  {| th_session := s; th_left := idle; th_right := idle |}.

(** What the scheduler lets happen next.  [Deliver a t]: the thread of
    client [a] calls [_feedback] with a message stamped [t]; a thread
    takes its next message only after it has returned from the previous
    invocation, so the step changes nothing while one is under way.
    [Advance a]: the invocation on that thread takes its next step. *)
Inductive thread_step : Type :=
| Deliver (a : arm) (t : Q)
| Advance (a : arm).

Definition thread_cb (st : feedback_threads) (a : arm) : callback :=
  match a with
  | LeftArm => th_left st
  | RightArm => th_right st
  end.

Definition with_thread (st : feedback_threads) (a : arm)
           (s : Trajectory) (c : callback) : feedback_threads :=
  match a with
  | LeftArm => {| th_session := s; th_left := c; th_right := th_right st |}
  | RightArm => {| th_session := s; th_left := th_left st; th_right := c |}
  end.

Definition threads_step (st : feedback_threads) (x : thread_step)
  : feedback_threads :=
  match x with
  | Deliver a t =>
      match cb_pc (thread_cb st a) with
      | Returned => with_thread st a (th_session st) (invoke t)
      | _ => st
      end
  | Advance a =>
      let '(s', c') := cb_step (th_session st) (thread_cb st a) in
      with_thread st a s' c'
  end.

Definition threads_run (st : feedback_threads) (steps : list thread_step)
  : feedback_threads :=
  fold_left threads_step steps st.

(** One whole invocation on thread [a], nothing else in between. *)
Definition whole (a : arm) (t : Q) : list thread_step :=
  [Deliver a t; Advance a; Advance a; Advance a].

(** The polling loop of [start].  Each round is one evaluation of the
    loop test: the steps the feedback threads took since the previous
    one, and what [rospy.is_shutdown()] answers.  The test can fall
    between any two steps of an invocation.  [None] means the loop is
    still polling when the rounds run out. *)
Fixpoint poll (st : feedback_threads) (rounds : list (list thread_step * bool))
  : list event * option feedback_threads :=
  match rounds with
  | [] => ([], None)
  | (steps, shutdown) :: rest =>
      let st := threads_run st steps in
      if (negb shutdown && negb (_get_trajectory_flag (th_session st)))%bool
      then let '(tr, r) := poll st rest in (ESleep 0.05 :: tr, r)
      else ([], Some st)
  end.

(** [start]: both [send_goal] calls, the polling loop, then the gripper
    loop.  [late] are the steps the feedback threads take between the
    last loop test and the read of [_trajectory_actual_offset] that
    [_execute_gripper_commands] opens with; the offset is not read
    again.  The result is [None] while still polling, otherwise the
    session as that read found it, or the exception raised by the
    gripper loop. *)
Definition start (s : Trajectory) (lg rg : Gripper)
           (rounds : list (list thread_step * bool)) (late : list thread_step)
           (t0 : Q) (ticks : list (Q * bool))
  : list event * option (result Trajectory) :=
  let goals := [ESendGoal LeftArm (l_goal s); ESendGoal RightArm (r_goal s)] in
  match poll (threads_of s) rounds with
  | (sleeps, None) => ((goals ++ sleeps)%list, None)
  | (sleeps, Some st) =>
      let s' := th_session (threads_run st late) in
      match _execute_gripper_commands s' lg rg t0 ticks with
      | Ok cmds => ((goals ++ sleeps ++ cmds)%list, Some (Ok s'))
      | Err e => ((goals ++ sleeps)%list, Some (Err e))
      end
  end.

Definition is_command (e : event) : bool :=
  match e with ECommandPosition _ _ => true | _ => false end.

Definition is_command_of (a : arm) (e : event) : bool :=
  match e, a with
  | ECommandPosition LeftArm _, LeftArm => true
  | ECommandPosition RightArm _, RightArm => true
  | _, _ => false
  end.

(** The positions a gripper trajectory can command. *)
Definition gripper_values (g : FollowJointTrajectoryGoal) : list Q :=
  flat_map (fun p => firstn 1 (positions p)) (points g).

Definition custom_gripper : Gripper :=
  {| g_error := false; g_calibrated := false; g_type := "custom" |}.

Definition faulty_gripper : Gripper :=
  {| g_error := true; g_calibrated := false; g_type := "electric" |}.

(** A recording that is nothing but its header line. *)
Definition demo_header_only : list string :=
  ["time,left_s0,right_s0,left_gripper,right_gripper" ++ nl].

(** [demo_file] parsed a second time into the session it gave. *)
Definition demo_session_twice : Trajectory :=
  Eval vm_compute in
    match parse_file float_decimal demo_l_arm demo_r_arm demo_params
                     (Some demo_file) demo_session with
    | Ok s => s
    | Err _ => new_trajectory
    end.

(** What holds of two interleaved invocations reporting [ta] and [tb]
    against the threshold [thr], whatever the schedule. *)
Definition latch_inv (thr ta tb : Q) (s : Trajectory) (a b : callback) : Prop :=
  trajectory_start_offset s = thr /\ cb_time a = ta /\ cb_time b = tb
  /\ (cb_pc a = AtSetFlag \/ cb_pc a = AtSetOffset -> thr <= ta)
  /\ (cb_pc b = AtSetFlag \/ cb_pc b = AtSetOffset -> thr <= tb)
  /\ (arm_trajectory_started s = true -> thr <= ta \/ thr <= tb)
  /\ (arm_trajectory_started s = true ->
      cb_pc a = AtSetOffset \/ cb_pc b = AtSetOffset
      \/ (thr <= trajectory_actual_offset s
          /\ (trajectory_actual_offset s = ta \/ trajectory_actual_offset s = tb)))
  /\ (thr <= ta ->
      cb_pc a = AtTest \/ cb_pc a = AtSetFlag \/ arm_trajectory_started s = true)
  /\ (thr <= tb ->
      cb_pc b = AtTest \/ cb_pc b = AtSetFlag \/ arm_trajectory_started s = true).

(** [demo_file] with lines that end in carriage return and line feed. *)
Definition crlf : string :=
  String (ascii_of_nat 13) (String (ascii_of_nat 10) EmptyString).

Definition demo_file_crlf : list string :=
  ["time,left_s0,right_s0,left_gripper,right_gripper" ++ crlf;
   "1.0,0.6,0.1,50,50" ++ crlf;
   "3.0,0.3,0.3,80,80" ++ crlf].

(** [demo_file] followed by an empty last line. *)
Definition demo_file_blank_line : list string :=
  (demo_file ++ [nl])%list.

(** A recording whose header names the left gripper in two columns. *)
Definition demo_twice_names : list string :=
  ["time"; "left_gripper"; "right_gripper"; "left_gripper"].

(** What feedback leaves alone: the trajectories and the two offsets
    [parse_file] computed. *)
Definition same_plan (s s' : Trajectory) : Prop :=
  l_goal s' = l_goal s /\ r_goal s' = r_goal s
  /\ l_grip s' = l_grip s /\ r_grip s' = r_grip s
  /\ slow_move_offset s' = slow_move_offset s
  /\ trajectory_start_offset s' = trajectory_start_offset s.

(** A polling round in which the left client's thread has raised the
    flag for a message stamped [t] but not yet stored the time when the
    loop test is evaluated. *)
Definition racing_round (t : Q) : list thread_step * bool :=
  ([Deliver LeftArm t; Advance LeftArm; Advance LeftArm], false).

(** The end-to-end scenario of the specification: the first row is
    stamped [0.0] and commands the angles the arms already have. *)
Definition scenario_file : list string :=
  ["time,left_s0,right_s0,left_gripper,right_gripper" ++ nl;
   "0.0,0.1,0.1,50,50" ++ nl;
   "2.0,0.3,0.3,80,80" ++ nl].

Definition scenario_session : Trajectory :=
  Eval vm_compute in
    match demo_parse scenario_file with
    | Ok s => s
    | Err _ => new_trajectory
    end.

(** What [parse_file] needs of a data row: a time cell that reads as a
    number and a command for every key the row is indexed with. *)
Definition row_complete (py_float : string -> option Q)
           (names : list string) (line : string) : Prop :=
  is_Some (row_time py_float line)
  /\ forall k, In k (needed_keys (List.filter is_left names)
                                 (List.filter is_right names)) ->
               is_Some (row_cmd py_float names line !! k).

(** * Properties *)

Lemma Qltb_lt x y : Qltb x y = true <-> x < y.
Proof.
  unfold Qltb. rewrite negb_true_iff, <- not_true_iff_false, Qle_bool_iff.
  split; [apply Qnot_le_lt | apply Qlt_not_le].
Qed.

Lemma Qltb_ge x y : Qltb x y = false <-> y <= x.
Proof.
  unfold Qltb. rewrite negb_false_iff, Qle_bool_iff. tauto.
Qed.

Example float_decimal_ex :
  List.map float_decimal ["0.25"; "-12"; "3."; ".5"; "80"; ""; "abc"; "1.2.3"; "-"]
  = [Some (1 # 4); Some (-12 # 1); Some 3; Some (1 # 2); Some 80; None; None; None; None].
Proof. vm_compute. reflexivity. Qed.

(** ** The phase latch *)

Lemma feedback_started (s : Trajectory) (t : Q) :
  arm_trajectory_started s = true -> _feedback s t = s.
Proof. intros H. unfold _feedback, _get_trajectory_flag. rewrite H. reflexivity. Qed.

Lemma feedbacks_started (s : Trajectory) (ts : list Q) :
  arm_trajectory_started s = true -> feedbacks s ts = s.
Proof.
  unfold feedbacks. induction ts as [|t ts IH]; intros H; simpl; [reflexivity|].
  rewrite feedback_started by assumption. apply IH, H.
Qed.

Lemma feedback_below (s : Trajectory) (t : Q) :
  t < trajectory_start_offset s -> _feedback s t = s.
Proof.
  intros H. unfold _feedback.
  replace (Qle_bool (trajectory_start_offset s) t) with false.
  - rewrite andb_false_r. reflexivity.
  - symmetry. apply not_true_iff_false. rewrite Qle_bool_iff.
    apply Qlt_not_le, H.
Qed.

Lemma feedbacks_below (s : Trajectory) (ts : list Q) :
  Forall (fun u => u < trajectory_start_offset s) ts -> feedbacks s ts = s.
Proof.
  unfold feedbacks. induction 1 as [|t ts Ht _ IH]; simpl; [reflexivity|].
  rewrite feedback_below by assumption. exact IH.
Qed.

Lemma feedback_crossing (s : Trajectory) (t : Q) :
  arm_trajectory_started s = false -> trajectory_start_offset s <= t ->
  _feedback s t = set_actual_offset (_set_trajectory_flag s true) t.
Proof.
  intros Hf Ht. unfold _feedback, _get_trajectory_flag. rewrite Hf.
  apply Qle_bool_iff in Ht. rewrite Ht. reflexivity.
Qed.

Lemma flag_rises_started (s : Trajectory) (ts : list Q) :
  arm_trajectory_started s = true -> flag_rises s ts = 0%nat.
Proof.
  revert s. induction ts as [|t ts IH]; intros s H; simpl; [reflexivity|].
  rewrite feedback_started by assumption. rewrite H. simpl. apply IH, H.
Qed.

Lemma flag_rises_le_1 (s : Trajectory) (ts : list Q) : (flag_rises s ts <= 1)%nat.
Proof.
  revert s. induction ts as [|t ts IH]; intros s; simpl; [lia|].
  destruct (arm_trajectory_started s) eqn:Hs; simpl.
  - apply IH.
  - destruct (arm_trajectory_started (_feedback s t)) eqn:Hs'; simpl.
    + rewrite flag_rises_started by assumption. lia.
    + apply IH.
Qed.

(** Invocations that run one after the other, none starting before the
    previous one has returned: the first one whose reported time reaches
    [trajectory_start_offset] raises the flag and stores its time as
    [trajectory_actual_offset]; nothing before it changes the session,
    nothing after it changes the flag or the stored time, and the flag
    rises at most once.  The two clients call [_feedback] from two
    threads, so this covers only some of the runs; the others follow
    below. *)
Theorem feedback_first_crossing_latches
        (s : Trajectory) (pre post : list Q) (t : Q) :
  arm_trajectory_started s = false ->
  Forall (fun u => u < trajectory_start_offset s) pre ->
  trajectory_start_offset s <= t ->
  feedbacks s pre = s
  /\ arm_trajectory_started (feedbacks s (pre ++ [t])) = true
  /\ trajectory_actual_offset (feedbacks s (pre ++ [t])) = t
  /\ feedbacks s (pre ++ t :: post) = feedbacks s (pre ++ [t])
  /\ arm_trajectory_started (feedbacks s (pre ++ t :: post)) = true
  /\ trajectory_actual_offset (feedbacks s (pre ++ t :: post)) = t
  /\ flag_rises s (pre ++ t :: post) = 1%nat
  /\ (forall s0 ts, (flag_rises s0 ts <= 1)%nat)
  /\ (forall s0 u, arm_trajectory_started s0 = true -> _feedback s0 u = s0).
Proof.
  intros Hf Hpre Ht.
  pose proof (feedbacks_below s pre Hpre) as Hp.
  assert (Hone : feedbacks s (pre ++ [t])
                 = set_actual_offset (_set_trajectory_flag s true) t).
  { unfold feedbacks in *. rewrite fold_left_app, Hp. simpl.
    apply feedback_crossing; assumption. }
  assert (Hall : feedbacks s (pre ++ t :: post) = feedbacks s (pre ++ [t])).
  { rewrite Hone. unfold feedbacks in *. rewrite fold_left_app, Hp. simpl.
    rewrite feedback_crossing by assumption.
    apply (feedbacks_started _ post). reflexivity. }
  assert (Hr : flag_rises s (pre ++ t :: post) = 1%nat).
  { clear Hp Hone Hall. induction Hpre as [|u pre Hu _ IH]; simpl.
    - rewrite feedback_crossing by assumption. rewrite Hf. simpl.
      rewrite flag_rises_started by reflexivity. reflexivity.
    - rewrite feedback_below by assumption. rewrite Hf. simpl. exact IH. }
  rewrite Hall, Hone. simpl.
  repeat split; try assumption; try reflexivity.
  - intros s0 ts. apply flag_rises_le_1.
  - intros s0 u. apply feedback_started.
Qed.

Lemma feedback_first_crossing_latches_witness :
  let s := set_offsets new_trajectory 1 1 in
  arm_trajectory_started s = false
  /\ feedbacks s [0; 1 # 2] = s
  /\ trajectory_actual_offset (feedbacks s [0; 1 # 2; 3 # 2; 4; 0]) = 3 # 2
  /\ flag_rises s [0; 1 # 2; 3 # 2; 4; 0] = 1%nat.
Proof.
  intros s.
  assert (Hf : arm_trajectory_started s = false) by reflexivity.
  assert (Hpre : Forall (fun u => u < trajectory_start_offset s) [0; 1 # 2]).
  { repeat constructor. }
  assert (Ht : trajectory_start_offset s <= 3 # 2) by (vm_compute; discriminate).
  destruct (feedback_first_crossing_latches s [0; 1 # 2] [4; 0] (3 # 2) Hf Hpre Ht)
    as (H1 & _ & _ & _ & _ & H6 & H7 & _).
  repeat split; assumption.
Defined.

(** Taken alone, the three steps of an invocation are [_feedback]. *)
Lemma cb_steps_feedback (s : Trajectory) (t : Q) (b : callback) :
  fst (fst (interleave [true; true; true] s (invoke t) b)) = _feedback s t.
Proof.
  unfold _feedback. simpl. unfold cb_step at 1. simpl.
  destruct (negb (_get_trajectory_flag s)
            && Qle_bool (trajectory_start_offset s) t)%bool; reflexivity.
Qed.

(** C1: the latched time can be overwritten.  The lock is held inside
    [_get_trajectory_flag] and [_set_trajectory_flag] only, not from the
    test to the store.  When the invocations of the two clients both
    report a time at or after [trajectory_start_offset] and both pass
    the test before either raises the flag, the first one raises the
    flag, stores its time and returns, and the second one then stores
    its own time over it: the last writer wins, not the first crossing. *)
Theorem feedback_interleaved_overwrites (s : Trajectory) (ta tb : Q) :
  arm_trajectory_started s = false ->
  trajectory_start_offset s <= ta ->
  trajectory_start_offset s <= tb ->
  let '(s1, a1, b1) := interleave [true; false; true; true] s (invoke ta) (invoke tb) in
  let '(s2, a2, b2) := interleave [false; false] s1 a1 b1 in
  interleave [true; false; true; true; false; false] s (invoke ta) (invoke tb)
  = (s2, a2, b2)
  /\ arm_trajectory_started s1 = true
  /\ trajectory_actual_offset s1 = ta
  /\ cb_pc a1 = Returned
  /\ cb_pc b1 = AtSetFlag
  /\ arm_trajectory_started s2 = true
  /\ trajectory_actual_offset s2 = tb
  /\ cb_pc a2 = Returned
  /\ cb_pc b2 = Returned.
Proof.
  intros Hf Ha Hb. apply Qle_bool_iff in Ha. apply Qle_bool_iff in Hb.
  cbn [interleave]. unfold cb_step, _get_trajectory_flag.
  cbn [invoke cb_pc cb_time at_pc]. rewrite Hf, Ha. cbn [negb andb].
  rewrite ?Hf, ?Hb. cbn. auto 10.
Qed.

Lemma feedback_interleaved_overwrites_witness :
  let s := set_offsets new_trajectory 1 1 in
  arm_trajectory_started s = false
  /\ trajectory_actual_offset
       (fst (fst (interleave [true; false; true; true] s (invoke 1) (invoke 2)))) = 1
  /\ trajectory_actual_offset
       (fst (fst (interleave [true; false; true; true; false; false] s
                             (invoke 1) (invoke 2)))) = 2.
Proof.
  intros s.
  assert (Hf : arm_trajectory_started s = false) by reflexivity.
  assert (Ha : trajectory_start_offset s <= 1) by (vm_compute; discriminate).
  assert (Hb : trajectory_start_offset s <= 2) by (vm_compute; discriminate).
  pose proof (feedback_interleaved_overwrites s 1 2 Hf Ha Hb) as H.
  destruct (interleave [true; false; true; true] s (invoke 1) (invoke 2))
    as [[s1 a1] b1].
  destruct (interleave [false; false] s1 a1 b1) as [[s2 a2] b2].
  destruct H as (E & _ & H1 & _ & _ & _ & H2 & _).
  rewrite E. simpl. split; [exact Hf|]. split; [exact H1 | exact H2].
Defined.

(** ** The gripper lookup *)

Lemma sorted_nth (R : Q -> Q -> Prop) (a : list Q) :
  StronglySorted R a ->
  forall i j, (i < j < length a)%nat -> R (nth i a 0) (nth j a 0).
Proof.
  induction 1 as [|y a Hs IH Hall]; intros i j Hij; simpl in Hij; [lia|].
  destruct j as [|j]; [lia|]. destruct i as [|i]; simpl.
  - rewrite List.Forall_forall in Hall. apply Hall, nth_In. lia.
  - apply IH. lia.
Qed.

Lemma sorted_nth_le (a : list Q) :
  StronglySorted Qle a ->
  forall i j, (i <= j < length a)%nat -> nth i a 0 <= nth j a 0.
Proof.
  intros Hs i j Hij. destruct (Nat.eq_dec i j) as [->|Hne].
  - apply Qle_refl.
  - apply (sorted_nth Qle a Hs). lia.
Qed.

Lemma sorted_lt_le (a : list Q) : StronglySorted Qlt a -> StronglySorted Qle a.
Proof.
  induction 1 as [|y a Hs IH Hall]; constructor; [assumption|].
  eapply List.Forall_impl; [|exact Hall]. intros z Hz. apply Qlt_le_weak, Hz.
Qed.

(** The loop keeps the invariant "everything left of [lo] is [<= x],
    everything from [hi] on is [> x]" and ends with [lo = hi]. *)
Lemma bisect_loop_spec (a : list Q) (x : Q) (lo hi : nat) :
  StronglySorted Qle a ->
  (lo <= hi <= length a)%nat ->
  (forall i, (i < lo)%nat -> nth i a 0 <= x) ->
  (forall i, (hi <= i < length a)%nat -> x < nth i a 0) ->
  let r := bisect_loop a x lo hi in
  (lo <= r <= hi)%nat /\
  (forall i, (i < r)%nat -> nth i a 0 <= x) /\
  (forall i, (r <= i < length a)%nat -> x < nth i a 0).
Proof.
  intros Hs. funelim (bisect_loop a x lo hi); intros Hb Hlo Hhi; cbv zeta.
  - (* lo < hi: one more probe *)
    pose proof (midpoint_bounds lo hi l) as Hm.
    destruct (Qltb x (nth ((lo + hi) / 2) a 0)) eqn:Hc.
    + apply Qltb_lt in Hc.
      destruct (H Hs) as (Hr & Hle & Hgt); [lia | assumption | |].
      * intros i Hi. eapply Qlt_le_trans; [exact Hc|].
        apply sorted_nth_le; [assumption | lia].
      * split; [lia | split; assumption].
    + apply Qltb_ge in Hc.
      destruct (H0 Hs) as (Hr & Hle & Hgt); [lia | | assumption |].
      * intros i Hi. eapply Qle_trans; [|exact Hc].
        apply sorted_nth_le; [assumption | lia].
      * split; [lia | split; assumption].
  - (* lo >= hi: the loop exits *)
    split; [lia | split; [assumption|]].
    intros i Hi. apply Hhi. lia.
Qed.

Lemma bisect_spec (a : list Q) (x : Q) :
  StronglySorted Qle a ->
  let r := bisect_loop a x 0 (length a) in
  (r <= length a)%nat /\
  (forall i, (i < r)%nat -> nth i a 0 <= x) /\
  (forall i, (r <= i < length a)%nat -> x < nth i a 0).
Proof.
  intros Hs. destruct (bisect_loop_spec a x 0 (length a) Hs) as (Hr & H1 & H2);
    [lia | intros; lia | intros; lia |].
  split; [lia | split; assumption].
Qed.

(** For elapsed times at or after the first sample the index is the
    greatest one whose time is [<=] the elapsed time. *)
Lemma gripper_index_floor (a : list Q) (x : Q) :
  StronglySorted Qle a -> a <> [] -> nth 0 a 0 <= x ->
  (0 <= gripper_index a x < Z.of_nat (length a))%Z /\
  nth (Z.to_nat (gripper_index a x)) a 0 <= x /\
  (forall j, (Z.to_nat (gripper_index a x) < j < length a)%nat ->
             x < nth j a 0).
Proof.
  intros Hs Hne H0. unfold gripper_index, bisect.
  destruct (bisect_spec a x Hs) as (Hr & Hle & Hgt).
  set (r := bisect_loop a x 0 (length a)) in *.
  assert (Hlen : (0 < length a)%nat) by (destruct a; [congruence | simpl; lia]).
  assert (Hpos : (0 < r)%nat).
  { destruct r; [|lia]. exfalso.
    apply (Qlt_irrefl x). eapply Qlt_le_trans; [apply (Hgt 0%nat); lia | exact H0]. }
  split; [lia|].
  replace (Z.to_nat (Z.of_nat r - 1)) with (r - 1)%nat by lia.
  split; [apply Hle; lia | intros j Hj; apply Hgt; lia].
Qed.

Lemma gripper_index_exact (a : list Q) (x : Q) (i : nat) :
  StronglySorted Qlt a -> (i < length a)%nat -> x == nth i a 0 ->
  gripper_index a x = Z.of_nat i.
Proof.
  intros Hs Hi Hx. unfold gripper_index, bisect.
  destruct (bisect_spec a x (sorted_lt_le a Hs)) as (Hr & Hle & Hgt).
  set (r := bisect_loop a x 0 (length a)) in *.
  assert (r = S i); [|lia].
  destruct (lt_eq_lt_dec r (S i)) as [[Hlt|Heq]|Hlt]; [exfalso | exact Heq | exfalso].
  - apply (Qlt_irrefl x). rewrite Hx at 2. apply Hgt. lia.
  - apply (Qlt_irrefl x). eapply Qle_lt_trans; [rewrite Hx; apply Qle_refl|].
    eapply Qlt_le_trans; [apply (sorted_nth Qlt a Hs i (S i)); lia|].
    apply Hle. lia.
Qed.

(** Whatever the list holds, the bisection stays between [lo] and [hi]. *)
Lemma bisect_loop_bounds (a : list Q) (x : Q) (lo hi : nat) :
  (lo <= hi)%nat -> (lo <= bisect_loop a x lo hi <= hi)%nat.
Proof.
  funelim (bisect_loop a x lo hi); intros Hb.
  - pose proof (midpoint_bounds lo hi l) as Hm. cbv zeta.
    destruct (Qltb x (nth ((lo + hi) / 2) a 0)).
    + specialize (H ltac:(lia)). lia.
    + specialize (H0 ltac:(lia)). lia.
  - lia.
Qed.

Lemma gripper_index_range (a : list Q) (x : Q) :
  (-1 <= gripper_index a x < Z.of_nat (length a))%Z.
Proof.
  unfold gripper_index, bisect.
  pose proof (bisect_loop_bounds a x 0 (length a) ltac:(lia)). lia.
Qed.

Lemma gripper_index_before_first (a : list Q) (x : Q) :
  StronglySorted Qle a -> a <> [] -> x < nth 0 a 0 ->
  gripper_index a x = (-1)%Z.
Proof.
  intros Hs Hne Hx. unfold gripper_index, bisect.
  destruct (bisect_spec a x Hs) as (Hr & Hle & Hgt).
  set (r := bisect_loop a x 0 (length a)) in *.
  destruct r as [|r]; [reflexivity | exfalso].
  apply (Qlt_irrefl x). eapply Qlt_le_trans; [exact Hx|].
  eapply Qle_trans; [|apply (Hle r); lia].
  assert (r < length a)%nat by lia.
  apply sorted_nth_le; [assumption | lia].
Qed.

Lemma gripper_index_after_last (a : list Q) (x : Q) :
  StronglySorted Qle a -> a <> [] -> nth (length a - 1) a 0 <= x ->
  gripper_index a x = (Z.of_nat (length a) - 1)%Z.
Proof.
  intros Hs Hne Hx. unfold gripper_index, bisect.
  destruct (bisect_spec a x Hs) as (Hr & Hle & Hgt).
  set (r := bisect_loop a x 0 (length a)) in *.
  assert (Hlen : (0 < length a)%nat) by (destruct a; [congruence | simpl; lia]).
  assert (r = length a); [|lia].
  destruct (Nat.eq_dec r (length a)) as [|Hne']; [assumption | exfalso].
  apply (Qlt_irrefl x). eapply Qlt_le_trans; [apply (Hgt (length a - 1)%nat); lia|].
  exact Hx.
Qed.

Lemma py_getitem_minus1 {A} (l : list A) (d : A) :
  l <> [] -> py_getitem l (-1) = Ok (nth (length l - 1) l d).
Proof.
  intros Hne. unfold py_getitem.
  assert (Hlen : (0 < length l)%nat) by (destruct l; [congruence | simpl; lia]).
  change (-1 <? 0)%Z with true. cbv iota.
  replace ((-1 + Z.of_nat (length l) <? 0)%Z) with false by lia.
  replace ((Z.of_nat (length l) <=? -1 + Z.of_nat (length l))%Z) with false by lia.
  simpl. replace (Z.to_nat (-1 + Z.of_nat (length l))) with (length l - 1)%nat by lia.
  destruct (nth_error l (length l - 1)) eqn:E.
  - f_equal. symmetry. apply nth_error_nth, E.
  - apply nth_error_None in E. lia.
Qed.

(** The lookup on a non-empty sorted time list:
    [bisect(pnt_times, t) - 1] is the greatest index whose time is [<= t]
    for every [t] at or after the first sample: the index of the sample
    whose time equals [t] when times strictly increase, and the last
    index once [t] is at or after the last sample.  For [t] strictly
    before the first sample nothing clamps: the index is [-1], which the
    list access resolves to the last sample. *)
Theorem gripper_index_lookup (a : list Q) (x : Q) :
  StronglySorted Qle a -> a <> [] ->
  (nth 0 a 0 <= x ->
     (0 <= gripper_index a x < Z.of_nat (length a))%Z
     /\ nth (Z.to_nat (gripper_index a x)) a 0 <= x
     /\ forall j, (Z.to_nat (gripper_index a x) < j < length a)%nat -> x < nth j a 0)
  /\ (StronglySorted Qlt a ->
      forall i, (i < length a)%nat -> x == nth i a 0 ->
                gripper_index a x = Z.of_nat i)
  /\ (nth (length a - 1) a 0 <= x ->
      gripper_index a x = (Z.of_nat (length a) - 1)%Z)
  /\ (x < nth 0 a 0 ->
      gripper_index a x = (-1)%Z
      /\ py_getitem a (gripper_index a x) = Ok (nth (length a - 1) a 0)).
Proof.
  intros Hs Hne. split; [|split; [|split]].
  - intros H0. apply gripper_index_floor; assumption.
  - intros Hlt i Hi Hx. apply gripper_index_exact; assumption.
  - intros Hx. apply gripper_index_after_last; assumption.
  - intros Hx. rewrite (gripper_index_before_first a x Hs Hne Hx).
    split; [reflexivity | apply py_getitem_minus1, Hne].
Qed.

Lemma sorted_0_2_5 : StronglySorted Qlt [0; 2; 5].
Proof. repeat constructor. Qed.

Lemma gripper_index_lookup_witness :
  gripper_index [0; 2; 5] 2 = 1%Z
  /\ gripper_index [0; 2; 5] 7 = 2%Z
  /\ gripper_index [0; 2; 5] (-1) = (-1)%Z
  /\ py_getitem [0; 2; 5] (gripper_index [0; 2; 5] (-1)) = Ok 5.
Proof.
  assert (Hs : StronglySorted Qle [0; 2; 5]) by (apply sorted_lt_le, sorted_0_2_5).
  assert (Hne : [0; 2; 5] <> []) by discriminate.
  split; [|split].
  - destruct (gripper_index_lookup [0; 2; 5] 2 Hs Hne) as (_ & He & _).
    apply (He sorted_0_2_5 1%nat); [simpl; lia | reflexivity].
  - destruct (gripper_index_lookup [0; 2; 5] 7 Hs Hne) as (_ & _ & Hl & _).
    apply Hl. vm_compute. discriminate.
  - destruct (gripper_index_lookup [0; 2; 5] (-1) Hs Hne) as (_ & _ & _ & Hb).
    apply Hb. reflexivity.
Defined.

(** Before the first sample the lookup gives [-1], not [0]. *)
Lemma gripper_index_before_first_not_0 :
  ~ (forall (a : list Q) (x : Q),
        StronglySorted Qlt a -> a <> [] -> x < nth 0 a 0 ->
        gripper_index a x = 0%Z).
Proof.
  intros H.
  assert (Hs : StronglySorted Qlt [1; 2]) by repeat constructor.
  specialize (H [1; 2] 0 Hs ltac:(discriminate) ltac:(reflexivity)).
  vm_compute in H. discriminate H.
Qed.

(** ** Results and list comprehensions *)

Lemma bind_Ok {A B} (c : result A) (k : A -> result B) (b : B) :
  (c ≫= k) = Ok b -> exists a, c = Ok a /\ k a = Ok b.
Proof.
  destruct c as [a|e]; simpl; intros H; [eauto | discriminate].
Qed.

Ltac inv_bind H :=
  let a := fresh "a" in
  let Ha := fresh "Ha" in
  apply bind_Ok in H as (a & Ha & H).

Lemma list_comp_length {A B} (f : A -> result B) (l : list A) (r : list B) :
  list_comp f l = Ok r -> length r = length l.
Proof.
  revert r. induction l as [|x l IH]; intros r H; simpl in H.
  - injection H as <-. reflexivity.
  - inv_bind H. inv_bind H. injection H as <-. simpl. f_equal. eauto.
Qed.

Lemma list_comp_Forall2 {A B} (f : A -> result B) (l : list A) (r : list B) :
  list_comp f l = Ok r <-> Forall2 (fun x y => f x = Ok y) l r.
Proof.
  revert r. induction l as [|x l IH]; intros r; simpl; split; intros H.
  - injection H as <-. constructor.
  - inversion H. reflexivity.
  - inv_bind H. inv_bind H. injection H as <-. constructor; [assumption|].
    apply IH. assumption.
  - inversion H as [|? y ? r' Hx Hr]; subst. rewrite Hx. simpl.
    apply IH in Hr. rewrite Hr. reflexivity.
Qed.

Lemma list_comp_ok {A B} (f : A -> result B) (l : list A) :
  (forall x, In x l -> exists y, f x = Ok y) -> exists r, list_comp f l = Ok r.
Proof.
  induction l as [|x l IH]; intros H; simpl; [eauto|].
  destruct (H x (or_introl eq_refl)) as [y Hy]. rewrite Hy. simpl.
  destruct IH as [r Hr]; [intros z Hz; apply H; right; exact Hz|].
  rewrite Hr. simpl. eauto.
Qed.

Lemma list_comp_In {A B} (f : A -> result B) (l : list A) (r : list B) (x : A) :
  list_comp f l = Ok r -> In x l -> exists y, f x = Ok y /\ In y r.
Proof.
  revert r. induction l as [|z l IH]; intros r H Hin; simpl in *; [tauto|].
  inv_bind H. inv_bind H. injection H as <-.
  destruct Hin as [->|Hin].
  - exists a. split; [assumption | left; reflexivity].
  - destruct (IH a0 Ha0 Hin) as (y & Hy & Hiny). exists y. split; [assumption | right; assumption].
Qed.

Lemma py_getitem_0 {A} (x : A) (l : list A) : py_getitem (x :: l) 0 = Ok x.
Proof. reflexivity. Qed.

Lemma split_comma_nonempty (s : string) : split_comma s <> [].
Proof.
  destruct s as [|c s]; simpl; [discriminate|].
  destruct (Ascii.eqb c comma); [discriminate|].
  destruct (split_comma s); discriminate.
Qed.

(** ** The shape of what [parse_file] builds *)

Lemma extend_nil (s : Trajectory) : extend s [] [] [] [] = s.
Proof.
  destruct s as [[] [] [] [] ? ? ? ?]. unfold extend. simpl.
  rewrite !app_nil_r. reflexivity.
Qed.

Lemma extend_extend (s : Trajectory) a b c d a' b' c' d' :
  extend (extend s a b c d) a' b' c' d'
  = extend s (a ++ a') (b ++ b') (c ++ c') (d ++ d').
Proof. unfold extend. simpl. rewrite !app_assoc. reflexivity. Qed.

Lemma add_point_left s pos t :
  _add_point s pos "left" t
  = extend s [{| positions := pos; time_from_start := t |}] [] [] [].
Proof.
  destruct s as [[] [] [] [] ? ? ? ?]. unfold extend, _add_point. simpl.
  rewrite !app_nil_r. reflexivity.
Qed.

Lemma add_point_right s pos t :
  _add_point s pos "right" t
  = extend s [] [{| positions := pos; time_from_start := t |}] [] [].
Proof.
  destruct s as [[] [] [] [] ? ? ? ?]. unfold extend, _add_point. simpl.
  rewrite !app_nil_r. reflexivity.
Qed.

Lemma add_point_left_gripper s pos t :
  _add_point s pos "left_gripper" t
  = extend s [] [] [{| positions := pos; time_from_start := t |}] [].
Proof.
  destruct s as [[] [] [] [] ? ? ? ?]. unfold extend, _add_point. simpl.
  rewrite !app_nil_r. reflexivity.
Qed.

Lemma add_point_right_gripper s pos t :
  _add_point s pos "right_gripper" t
  = extend s [] [] [] [{| positions := pos; time_from_start := t |}].
Proof.
  destruct s as [[] [] [] [] ? ? ? ?]. unfold extend, _add_point. simpl.
  rewrite !app_nil_r. reflexivity.
Qed.

Lemma set_offsets_extend s a b c d slow start :
  set_offsets (extend s a b c d) slow start = extend (set_offsets s slow start) a b c d.
Proof. reflexivity. Qed.

Lemma left_not_right (name : string) : is_left name = true -> is_right name = false.
Proof.
  unfold is_left, is_right. intros H. apply String.eqb_eq in H. rewrite <- H.
  reflexivity.
Qed.

Lemma add_names_nil (s : Trajectory) : add_names s [] [] = s.
Proof.
  destruct s as [[] [] ? ? ? ? ? ?]. unfold add_names. simpl.
  rewrite !app_nil_r. reflexivity.
Qed.

Lemma add_names_add_names s a b a' b' :
  add_names (add_names s a b) a' b' = add_names s (a ++ a') (b ++ b').
Proof. unfold add_names. simpl. rewrite !app_assoc. reflexivity. Qed.

Lemma classify_add_names (s : Trajectory) (name : string) :
  classify s name
  = add_names s (if is_left name then [name] else [])
                (if is_right name then [name] else []).
Proof.
  unfold classify. fold (is_left name) (is_right name).
  destruct (is_left name) eqn:Hl.
  - rewrite (left_not_right name Hl).
    destruct s as [[] [] ? ? ? ? ? ?]. unfold add_names, set_l_goal. simpl.
    rewrite !app_nil_r. reflexivity.
  - destruct (is_right name).
    + destruct s as [[] [] ? ? ? ? ? ?]. unfold add_names, set_r_goal. simpl.
      rewrite !app_nil_r. reflexivity.
    + symmetry. apply add_names_nil.
Qed.

Lemma classify_fold (names : list string) (s : Trajectory) :
  fold_left classify names s
  = add_names s (List.filter is_left names) (List.filter is_right names).
Proof.
  revert s. induction names as [|name names IH]; intros s; simpl.
  - symmetry. apply add_names_nil.
  - rewrite IH, classify_add_names, add_names_add_names.
    destruct (is_left name), (is_right name); reflexivity.
Qed.

Section ParserFacts.

Variable py_float : string -> option Q.
Variable l_arm r_arm : gmap string Q.
Variable params : gmap string Q.


Lemma clean_line_eq (line : string) (names : list string) :
  _clean_line py_float line names = (row_cmd py_float names line, row_values py_float line).
Proof. reflexivity. Qed.

Lemma row_values_0 (line : string) :
  py_getitem (row_values py_float line) 0 = Ok (row_time py_float line).
Proof.
  unfold row_time, row_values.
  destruct (split_comma (rstrip line)) as [|c cs] eqn:E.
  - exfalso. exact (split_comma_nonempty _ E).
  - reflexivity.
Qed.

Lemma first_row_spec names cmd values s s1 off :
  first_row l_arm r_arm params names cmd values s = Ok (s1, off) ->
  exists cl cr t0,
    list_comp (joint_angle l_arm) (joint_names (l_goal s)) = Ok cl
    /\ list_comp (joint_angle r_arm) (joint_names (r_goal s)) = Ok cr
    /\ find_start_offset l_arm r_arm params names cmd = Ok off
    /\ py_getitem values 0 = Ok (Some t0)
    /\ s1 = set_offsets
              (extend s [{| positions := cl; time_from_start := 0 |}]
                        [{| positions := cr; time_from_start := 0 |}] [] [])
              off (off + t0).
Proof.
  unfold first_row. intros H.
  inv_bind H. rename a into cl. rewrite add_point_left in H.
  inv_bind H. rename a into cr. rewrite add_point_right, extend_extend in H.
  inv_bind H. inv_bind H. inv_bind H.
  destruct a0 as [t0|]; simpl in Ha3; [|discriminate].
  injection Ha3 as <-. injection H as <- <-.
  exists cl, cr, t0. simpl in Ha0. auto 10.
Qed.

Lemma add_cell_num_Ok (v0 : option Q) (off t : Q) :
  add_cell_num v0 off = Ok t -> exists t0, v0 = Some t0 /\ t = t0 + off.
Proof.
  destruct v0 as [t0|]; simpl; [|discriminate]. intros [= <-]. eauto.
Qed.

Lemma row_points_spec cmd values off s s' :
  row_points cmd values off s = Ok s' <->
  exists rd,
    row_reads cmd values (joint_names (l_goal s)) (joint_names (r_goal s)) rd
    /\ s' = extend_rows s off [rd].
Proof.
  unfold row_points, row_reads, extend_rows. split.
  - intros H.
    apply bind_Ok in H as (pl & Hpl & H).
    apply bind_Ok in H as (v0 & Hv0 & H).
    apply bind_Ok in H as (t & Ht & H).
    apply add_cell_num_Ok in Ht as (t0 & -> & ->).
    rewrite add_point_left in H. simpl joint_names in H.
    apply bind_Ok in H as (pr & Hpr & H).
    rewrite Hv0 in H. simpl in H.
    rewrite add_point_right, extend_extend in H.
    apply bind_Ok in H as (gl & Hgl & H).
    rewrite add_point_left_gripper, extend_extend in H.
    apply bind_Ok in H as (gr & Hgr & H).
    rewrite add_point_right_gripper, extend_extend in H.
    injection H as <-.
    exists {| rd_time := t0; rd_left := pl; rd_right := pr; rd_lgrip := gl;
              rd_rgrip := gr |}.
    simpl. auto 10.
  - intros (rd & (H0 & Hl & Hr & Hgl & Hgr) & ->).
    rewrite Hl, H0. simpl.
    rewrite add_point_left. simpl joint_names. rewrite Hr. simpl.
    rewrite add_point_right, extend_extend. rewrite Hgl. simpl.
    rewrite add_point_left_gripper, extend_extend. rewrite Hgr. simpl.
    rewrite add_point_right_gripper, extend_extend. reflexivity.
Qed.

Lemma extend_rows_cons s off rd rds :
  extend_rows s off (rd :: rds) = extend_rows (extend_rows s off [rd]) off rds.
Proof. unfold extend_rows. rewrite extend_extend. reflexivity. Qed.

Lemma parse_rows_cons_tail names n off line rest s :
  parse_rows py_float l_arm r_arm params names (S n) (Some off) (line :: rest) s
  = (s1 ← row_points (row_cmd py_float names line) (row_values py_float line) off s;
     parse_rows py_float l_arm r_arm params names (S (S n)) (Some off) rest s1).
Proof. reflexivity. Qed.

Lemma parse_rows_cons_first names line rest s :
  parse_rows py_float l_arm r_arm params names 0 None (line :: rest) s
  = ('(s1, off) ← first_row l_arm r_arm params names
                     (row_cmd py_float names line) (row_values py_float line) s;
     s2 ← row_points (row_cmd py_float names line) (row_values py_float line) off s1;
     parse_rows py_float l_arm r_arm params names 1 (Some off) rest s2).
Proof.
  cbn [parse_rows]. rewrite clean_line_eq. cbn [Nat.eqb].
  destruct (first_row l_arm r_arm params names (row_cmd py_float names line)
                      (row_values py_float line) s) as [[s1 off]|e];
    reflexivity.
Qed.

(** Every row after the first adds one point to each trajectory. *)
Lemma parse_rows_tail names n off rows s s' :
  parse_rows py_float l_arm r_arm params names (S n) (Some off) rows s = Ok s' <->
  exists rds,
    Forall2 (fun line rd =>
               row_reads (row_cmd py_float names line) (row_values py_float line)
                         (joint_names (l_goal s)) (joint_names (r_goal s)) rd)
            rows rds
    /\ s' = extend_rows s off rds.
Proof.
  revert n s s'. induction rows as [|line rest IH]; intros n s s'.
  - simpl. split.
    + intros H. injection H as <-. exists []. split; [constructor|].
      unfold extend_rows. simpl. symmetry. apply extend_nil.
    + intros (rds & HF & ->). inversion HF; subst.
      unfold extend_rows. simpl. rewrite extend_nil. reflexivity.
  - rewrite parse_rows_cons_tail. split.
    + intros H. inv_bind H. apply row_points_spec in Ha as (rd & Hrd & ->).
      apply IH in H as (rds & HF & ->).
      exists (rd :: rds). split; [constructor; assumption|].
      symmetry. apply extend_rows_cons.
    + intros (rds & HF & ->). inversion HF as [|? rd ? rds' Hrd HF']; subst.
      assert (Hrp : row_points (row_cmd py_float names line)
                      (row_values py_float line) off s
                    = Ok (extend_rows s off [rd])).
      { apply row_points_spec. eauto. }
      rewrite Hrp. simpl. apply IH. exists rds'. split; [exact HF'|].
      apply extend_rows_cons.
Qed.

(** A file with a header and at least one data row, parsed into a
    fresh session. *)
Lemma parse_file_shape header line0 rest s' :
  let names := split_comma (rstrip header) in
  let ln := List.filter is_left names in
  let rn := List.filter is_right names in
  parse_file py_float l_arm r_arm params (Some (header :: line0 :: rest))
             new_trajectory = Ok s' <->
  exists cl cr off t0 rds,
    list_comp (joint_angle l_arm) ln = Ok cl
    /\ list_comp (joint_angle r_arm) rn = Ok cr
    /\ find_start_offset l_arm r_arm params names (row_cmd py_float names line0) = Ok off
    /\ row_time py_float line0 = Some t0
    /\ Forall2 (fun line rd =>
                  row_reads (row_cmd py_float names line) (row_values py_float line)
                            ln rn rd)
               (line0 :: rest) rds
    /\ s' = extend_rows
              (set_offsets
                 (extend (add_names new_trajectory ln rn)
                         [{| positions := cl; time_from_start := 0 |}]
                         [{| positions := cr; time_from_start := 0 |}] [] [])
                 off (off + t0))
              off rds.
Proof.
  intros names ln rn. unfold parse_file. rewrite py_getitem_0.
  cbn [mbind result_bind rbind List.tl]. fold names.
  rewrite classify_fold. fold ln rn. rewrite parse_rows_cons_first. split.
  - intros H. inv_bind H. destruct a as [s1 off].
    apply first_row_spec in Ha as (cl & cr & t0 & Hcl & Hcr & Hoff & Ht0 & ->).
    inv_bind H. apply row_points_spec in Ha as (rd & Hrd & ->).
    apply parse_rows_tail in H as (rds & HF & ->).
    rewrite row_values_0 in Ht0. injection Ht0 as Ht0.
    exists cl, cr, off, t0, (rd :: rds). simpl in *.
    repeat (split; [first [assumption | constructor; assumption]|]).
    symmetry. apply extend_rows_cons.
  - intros (cl & cr & off & t0 & rds & Hcl & Hcr & Hoff & Ht0 & HF & ->).
    inversion HF as [|? rd ? rds' Hrd HF']; subst.
    unfold first_row. simpl joint_names.
    rewrite Hcl. simpl. rewrite add_point_left. simpl joint_names.
    rewrite Hcr. simpl. rewrite add_point_right, extend_extend.
    rewrite Hoff. simpl. rewrite row_values_0, Ht0. simpl.
    match goal with
    | |- (row_points ?c ?v ?o ?s ≫= _) = _ =>
        assert (Hrp : row_points c v o s = Ok (extend_rows s o [rd]))
          by (apply row_points_spec; eauto)
    end.
    rewrite Hrp. simpl. apply parse_rows_tail. exists rds'. split; [exact HF'|].
    apply extend_rows_cons.
Qed.

(** A file with nothing but a header parses into a session without points. *)
Lemma parse_file_header_only header :
  let names := split_comma (rstrip header) in
  parse_file py_float l_arm r_arm params (Some [header]) new_trajectory
  = Ok (add_names new_trajectory (List.filter is_left names)
                  (List.filter is_right names)).
Proof.
  intros names. unfold parse_file. rewrite py_getitem_0. simpl.
  fold names. rewrite classify_fold. reflexivity.
Qed.

End ParserFacts.

(** ** The trajectories of a parsed recording *)

Lemma sorted_shift (off : Q) (ts : list Q) :
  StronglySorted Qlt ts -> StronglySorted Qlt (List.map (fun t => t + off) ts).
Proof.
  induction 1 as [|t ts Hs IH Hall]; simpl; constructor; [assumption|].
  rewrite List.Forall_forall in *. intros u Hu.
  apply in_map_iff in Hu as (v & <- & Hv).
  apply Qplus_lt_l, Hall, Hv.
Qed.

Lemma times_point_at (off : Q) (pos : RowData -> list Q) (rds : list RowData) :
  List.map time_from_start (List.map (point_at off pos) rds)
  = List.map (fun t => t + off) (List.map rd_time rds).
Proof. rewrite !List.map_map. reflexivity. Qed.

Lemma Forall2_map_right {A B C} (R : A -> C -> Prop) (f : B -> C)
      (l : list A) (l' : list B) :
  Forall2 (fun x y => R x (f y)) l l' -> Forall2 R l (List.map f l').
Proof. induction 1; simpl; constructor; assumption. Qed.

(** A time put before a strictly increasing list keeps it strictly
    increasing exactly when it is before the first element. *)
Lemma sorted_cons_iff (x y : Q) (l : list Q) :
  StronglySorted Qlt (y :: l) ->
  StronglySorted Qlt (x :: y :: l) <-> x < y.
Proof.
  intros Hs. split.
  - intros H. inversion H as [|? ? _ Hall]; subst.
    inversion Hall; subst. assumption.
  - intros Hxy. constructor; [exact Hs|]. constructor; [exact Hxy|].
    inversion Hs as [|? ? _ Hall]; subst.
    eapply List.Forall_impl; [|exact Hall].
    intros z Hz. eapply Qlt_trans; eassumption.
Qed.

Lemma dict_get_Forall2 (cmd : gmap string Q) (names : list string) (vs : list Q) :
  list_comp (dict_get cmd) names = Ok vs ->
  Forall2 (fun name v => cmd !! name = Some v) names vs.
Proof.
  intros H. apply list_comp_Forall2 in H.
  eapply Forall2_impl; [exact H|]. intros name v. unfold dict_get.
  destruct (cmd !! name); [intros [= ->]; reflexivity | discriminate].
Qed.

Section Recordings.

Variable py_float : string -> option Q.
Variable l_arm r_arm : gmap string Q.
Variable params : gmap string Q.

Lemma row_reads_times names ln rn (lines : list string) (rds : list RowData) :
  Forall2 (fun line rd =>
             row_reads (row_cmd py_float names line) (row_values py_float line)
                       ln rn rd) lines rds ->
  List.map (row_time py_float) lines = List.map Some (List.map rd_time rds).
Proof.
  induction 1 as [|line rd lines rds (H0 & _) _ IH]; simpl; [reflexivity|].
  rewrite row_values_0 in H0. injection H0 as ->. f_equal. exact IH.
Qed.

Lemma snapshot_Forall2 (limb : gmap string Q) names cur :
  list_comp (joint_angle limb) names = Ok cur ->
  Forall2 (fun name v => limb !! name = Some v) names cur.
Proof.
  intros H. apply list_comp_Forall2 in H.
  eapply Forall2_impl; [exact H|]. intros name v. unfold joint_angle, dict_get.
  destruct (limb !! name); [intros [= ->]; reflexivity | discriminate].
Qed.

(** C3 (as the code has it): in a recording that parses, each arm's
    joint names are the header's columns of that arm, and its trajectory
    opens with a point at time 0 holding the limb's current angles of
    these joints, not the first row's values.  Every later point holds
    its row's commanded values and is stamped with the row's recorded
    time plus [slow_move_offset], so these later stamps strictly
    increase when the recorded times do.  The first of them is after
    the initial point's 0 only when the first recorded time plus
    [slow_move_offset] is positive: the whole sequence strictly
    increases exactly then. *)
Theorem parse_file_arm_trajectories header line0 rest s' :
  parse_file py_float l_arm r_arm params (Some (header :: line0 :: rest))
             new_trajectory = Ok s' ->
  exists (cl cr : list Q) (t0 : Q) (ts : list Q)
         (ptsl ptsr : list JointTrajectoryPoint),
    joint_names (l_goal s') = List.filter is_left (split_comma (rstrip header))
    /\ joint_names (r_goal s') = List.filter is_right (split_comma (rstrip header))
    /\ List.map (row_time py_float) (line0 :: rest) = List.map Some (t0 :: ts)
    /\ points (l_goal s') = {| positions := cl; time_from_start := 0 |} :: ptsl
    /\ Forall2 (fun name v => l_arm !! name = Some v) (joint_names (l_goal s')) cl
    /\ List.map time_from_start ptsl
       = List.map (fun t => t + slow_move_offset s') (t0 :: ts)
    /\ Forall2 (fun line p =>
                  Forall2 (fun name v =>
                             row_cmd py_float (split_comma (rstrip header)) line
                             !! name = Some v)
                          (joint_names (l_goal s')) (positions p))
               (line0 :: rest) ptsl
    /\ points (r_goal s') = {| positions := cr; time_from_start := 0 |} :: ptsr
    /\ Forall2 (fun name v => r_arm !! name = Some v) (joint_names (r_goal s')) cr
    /\ List.map time_from_start ptsr
       = List.map (fun t => t + slow_move_offset s') (t0 :: ts)
    /\ Forall2 (fun line p =>
                  Forall2 (fun name v =>
                             row_cmd py_float (split_comma (rstrip header)) line
                             !! name = Some v)
                          (joint_names (r_goal s')) (positions p))
               (line0 :: rest) ptsr
    /\ (StronglySorted Qlt (t0 :: ts) ->
        StronglySorted Qlt (List.map time_from_start ptsl)
        /\ StronglySorted Qlt (List.map time_from_start ptsr)
        /\ (StronglySorted Qlt (times (l_goal s')) <-> 0 < t0 + slow_move_offset s')
        /\ (StronglySorted Qlt (times (r_goal s')) <-> 0 < t0 + slow_move_offset s')).
Proof.
  intros H.
  apply parse_file_shape in H
    as (cl & cr & off & t0 & rds & Hcl & Hcr & Hoff & Ht0 & HF & ->).
  pose proof (row_reads_times _ _ _ _ _ HF) as Htimes.
  destruct rds as [|rd rds]; [inversion HF|].
  assert (Hrd : rd_time rd = t0).
  { simpl in Htimes. rewrite Ht0 in Htimes. injection Htimes as E _.
    symmetry. exact E. }
  exists cl, cr, t0, (List.map rd_time rds),
    (List.map (point_at off rd_left) (rd :: rds)),
    (List.map (point_at off rd_right) (rd :: rds)).
  unfold times. simpl points. simpl joint_names. simpl slow_move_offset.
  rewrite !times_point_at. cbn [List.map]. rewrite Hrd.
  split; [reflexivity|]. split; [reflexivity|].
  split; [rewrite <- Hrd; exact Htimes|].
  split; [reflexivity|]. split; [apply snapshot_Forall2, Hcl|].
  split; [reflexivity|]. split.
  { apply (Forall2_map_right _ (point_at off rd_left) _ (rd :: rds)).
    eapply Forall2_impl; [exact HF|].
    intros line r (_ & Hl & _). apply dict_get_Forall2, Hl. }
  split; [reflexivity|]. split; [apply snapshot_Forall2, Hcr|].
  split; [reflexivity|]. split.
  { apply (Forall2_map_right _ (point_at off rd_right) _ (rd :: rds)).
    eapply Forall2_impl; [exact HF|].
    intros line r (_ & _ & Hr & _). apply dict_get_Forall2, Hr. }
  intros Hs.
  pose proof (sorted_shift off _ Hs) as Hs'. cbn [List.map] in Hs'.
  split; [exact Hs'|]. split; [exact Hs'|].
  rewrite !times_point_at. cbn [time_from_start point_at]. rewrite Hrd.
  split; apply sorted_cons_iff; exact Hs'.
Qed.

(** C5: [trajectory_start_offset] is [slow_move_offset] plus the time
    stamp of the first data row, whatever that stamp is; and
    [slow_move_offset] is what [find_start_offset] returns for that
    row. *)
Theorem parse_file_start_offset header line0 rest s' :
  parse_file py_float l_arm r_arm params (Some (header :: line0 :: rest))
             new_trajectory = Ok s' ->
  exists t0,
    row_time py_float line0 = Some t0
    /\ trajectory_start_offset s' = slow_move_offset s' + t0
    /\ find_start_offset l_arm r_arm params (split_comma (rstrip header))
          (row_cmd py_float (split_comma (rstrip header)) line0)
       = Ok (slow_move_offset s').
Proof.
  intros H.
  apply parse_file_shape in H
    as (cl & cr & off & t0 & rds & Hcl & Hcr & Hoff & Ht0 & HF & ->).
  exists t0. simpl. auto.
Qed.

End Recordings.

Lemma demo_parse_ok : demo_parse demo_file = Ok demo_session.
Proof. vm_compute. reflexivity. Qed.

Lemma parse_file_arm_trajectories_witness :
  demo_parse demo_file = Ok demo_session
  /\ exists (cl cr : list Q) (t0 : Q) (ts : list Q)
            (ptsl ptsr : list JointTrajectoryPoint),
      joint_names (l_goal demo_session)
      = List.filter is_left (split_comma (rstrip (nth 0 demo_file "")))
      /\ joint_names (r_goal demo_session)
         = List.filter is_right (split_comma (rstrip (nth 0 demo_file "")))
      /\ List.map (row_time float_decimal)
                  (nth 1 demo_file "" :: List.tl (List.tl demo_file))
         = List.map Some (t0 :: ts)
      /\ points (l_goal demo_session)
         = {| positions := cl; time_from_start := 0 |} :: ptsl
      /\ Forall2 (fun name v => demo_l_arm !! name = Some v)
                 (joint_names (l_goal demo_session)) cl
      /\ List.map time_from_start ptsl
         = List.map (fun t => t + slow_move_offset demo_session) (t0 :: ts)
      /\ Forall2 (fun line p =>
                    Forall2 (fun name v =>
                               row_cmd float_decimal
                                       (split_comma (rstrip (nth 0 demo_file ""))) line
                               !! name = Some v)
                            (joint_names (l_goal demo_session)) (positions p))
                 (nth 1 demo_file "" :: List.tl (List.tl demo_file)) ptsl
      /\ points (r_goal demo_session)
         = {| positions := cr; time_from_start := 0 |} :: ptsr
      /\ Forall2 (fun name v => demo_r_arm !! name = Some v)
                 (joint_names (r_goal demo_session)) cr
      /\ List.map time_from_start ptsr
         = List.map (fun t => t + slow_move_offset demo_session) (t0 :: ts)
      /\ Forall2 (fun line p =>
                    Forall2 (fun name v =>
                               row_cmd float_decimal
                                       (split_comma (rstrip (nth 0 demo_file ""))) line
                               !! name = Some v)
                            (joint_names (r_goal demo_session)) (positions p))
                 (nth 1 demo_file "" :: List.tl (List.tl demo_file)) ptsr
      /\ (StronglySorted Qlt (t0 :: ts) ->
          StronglySorted Qlt (List.map time_from_start ptsl)
          /\ StronglySorted Qlt (List.map time_from_start ptsr)
          /\ (StronglySorted Qlt (times (l_goal demo_session))
              <-> 0 < t0 + slow_move_offset demo_session)
          /\ (StronglySorted Qlt (times (r_goal demo_session))
              <-> 0 < t0 + slow_move_offset demo_session)).
Proof.
  split; [exact demo_parse_ok|].
  exact (parse_file_arm_trajectories float_decimal demo_l_arm demo_r_arm
           demo_params (nth 0 demo_file "") (nth 1 demo_file "")
           (List.tl (List.tl demo_file)) demo_session demo_parse_ok).
Defined.

(** C3 as stated fails on the end-to-end scenario of the specification:
    the recorded times 0 and 2 strictly increase, the arms already have
    the angles of the first row, so the start offset is 0 and the first
    recorded point is stamped 0 like the initial point. *)
Lemma parse_file_first_point_not_after_initial :
  demo_parse scenario_file = Ok scenario_session
  /\ List.map (row_time float_decimal) (List.tl scenario_file) = [Some 0; Some 2]
  /\ StronglySorted Qlt [0; 2]
  /\ slow_move_offset scenario_session == 0
  /\ Forall2 Qeq (times (l_goal scenario_session)) [0; 0; 2]
  /\ Forall2 Qeq (times (r_goal scenario_session)) [0; 0; 2]
  /\ ~ StronglySorted Qlt (times (l_goal scenario_session))
  /\ ~ StronglySorted Qlt (times (r_goal scenario_session)).
Proof.
  split; [vm_compute; reflexivity|]. split; [vm_compute; reflexivity|].
  split; [repeat constructor|]. split; [vm_compute; reflexivity|].
  split; [vm_compute; repeat constructor|].
  split; [vm_compute; repeat constructor|].
  split; intros H; vm_compute in H;
    inversion H as [|? ? _ Hall]; subst;
    inversion Hall as [|? ? Hlt _]; subst;
    vm_compute in Hlt; discriminate Hlt.
Qed.

Lemma parse_file_start_offset_witness :
  demo_parse demo_file = Ok demo_session
  /\ exists t0,
      row_time float_decimal (nth 1 demo_file "") = Some t0
      /\ trajectory_start_offset demo_session = slow_move_offset demo_session + t0
      /\ find_start_offset demo_l_arm demo_r_arm demo_params
            (split_comma (rstrip (nth 0 demo_file "")))
            (row_cmd float_decimal (split_comma (rstrip (nth 0 demo_file "")))
                     (nth 1 demo_file ""))
         = Ok (slow_move_offset demo_session).
Proof.
  split; [exact demo_parse_ok|].
  exact (parse_file_start_offset float_decimal demo_l_arm demo_r_arm
           demo_params (nth 0 demo_file "") (nth 1 demo_file "")
           (List.tl (List.tl demo_file)) demo_session demo_parse_ok).
Defined.

Example demo_session_offsets :
  slow_move_offset demo_session == 2
  /\ trajectory_start_offset demo_session == 3
  /\ Forall2 Qeq (times (l_goal demo_session)) [0; 3; 5]
  /\ Forall2 Qeq (times (l_grip demo_session)) [3; 5].
Proof. vm_compute. repeat split; repeat constructor. Qed.

(** ** The gripper trajectories and the gripper loop *)

Lemma py_getitem_in_range {A} (l : list A) (i : Z) :
  (- Z.of_nat (length l) <= i < Z.of_nat (length l))%Z ->
  exists x, py_getitem l i = Ok x /\ In x l.
Proof.
  intros Hi. unfold py_getitem.
  set (n := Z.of_nat (length l)) in *.
  set (j := if (i <? 0)%Z then (i + n)%Z else i).
  assert (Hj : (0 <= j < n)%Z) by (subst j; destruct (Z.ltb_spec i 0); lia).
  destruct (Z.ltb_spec j 0); [lia|]. destruct (Z.leb_spec n j); [lia|]. simpl.
  destruct (nth_error l (Z.to_nat j)) as [x|] eqn:E.
  - exists x. split; [reflexivity | eapply nth_error_In, E].
  - apply nth_error_None in E. lia.
Qed.

Lemma gripper_command_ok (a : arm) (g : Gripper)
      (cmd : list JointTrajectoryPoint) (idx : Z) :
  (- Z.of_nat (length cmd) <= idx < Z.of_nat (length cmd))%Z ->
  (forall p, In p cmd -> positions p <> []) ->
  exists evs, gripper_command a g cmd idx = Ok evs.
Proof.
  intros Hi Hpos. unfold gripper_command.
  destruct (negb (String.eqb (g_type g) "custom")); [|eauto].
  destruct (py_getitem_in_range cmd idx Hi) as (p & -> & Hp). simpl.
  specialize (Hpos p Hp). destruct (positions p) as [|v vs]; [congruence|].
  rewrite py_getitem_0. simpl. eauto.
Qed.

Lemma gripper_loop_ok (lg rg : Gripper) (l_cmd r_cmd : list JointTrajectoryPoint)
      (pnt_times : list Q) (start_time end_time : Q) (ticks : list (Q * bool)) :
  pnt_times <> [] ->
  length l_cmd = length pnt_times -> length r_cmd = length pnt_times ->
  (forall p, In p l_cmd -> positions p <> []) ->
  (forall p, In p r_cmd -> positions p <> []) ->
  exists evs,
    gripper_loop lg rg l_cmd r_cmd pnt_times start_time end_time ticks = Ok evs.
Proof.
  intros Hne Hl Hr Hpl Hpr.
  assert (Hlen : (0 < length pnt_times)%nat)
    by (destruct pnt_times; [congruence | simpl; lia]).
  induction ticks as [|[now shutdown] ticks IH]; simpl; [eauto|].
  destruct (Qltb _ _ && negb shutdown)%bool; [|eauto].
  pose proof (gripper_index_range pnt_times (now - start_time)) as Hidx.
  destruct (gripper_command_ok RightArm rg r_cmd
              (gripper_index pnt_times (now - start_time)))
    as (er & ->); [rewrite Hr; lia | exact Hpr |].
  destruct (gripper_command_ok LeftArm lg l_cmd
              (gripper_index pnt_times (now - start_time)))
    as (el & ->); [rewrite Hl; lia | exact Hpl |].
  destruct IH as (more & ->). simpl. eauto.
Qed.

Section GripperTrajectories.

Variable py_float : string -> option Q.
Variable l_arm r_arm : gmap string Q.
Variable params : gmap string Q.

(** C10: in a recording that parses, both gripper trajectories hold
    one point per data row, stamped alike with the row's recorded time
    plus [slow_move_offset]; so every index the gripper loop computes
    from the right gripper's times can be used on the left gripper's
    points, and the loop never fails on a list access. *)
Theorem parse_file_gripper_trajectories lines s' :
  parse_file py_float l_arm r_arm params (Some lines) new_trajectory = Ok s' ->
  exists ts : list Q,
    List.map (row_time py_float) (List.tl lines) = List.map Some ts
    /\ length (points (l_grip s')) = length (List.tl lines)
    /\ length (points (r_grip s')) = length (List.tl lines)
    /\ times (l_grip s') = List.map (fun t => t + slow_move_offset s') ts
    /\ times (r_grip s') = List.map (fun t => t + slow_move_offset s') ts
    /\ (List.tl lines <> [] ->
        forall now, exists p,
          py_getitem (points (l_grip s'))
                     (gripper_index (times (r_grip s')) now) = Ok p)
    /\ (List.tl lines <> [] ->
        forall lg rg t0 ticks, exists evs,
          _execute_gripper_commands s' lg rg t0 ticks = Ok evs).
Proof.
  intros H. destruct lines as [|header [|line0 rest]].
  - discriminate H.
  - rewrite parse_file_header_only in H. injection H as <-.
    exists []. simpl. repeat split; try reflexivity; intros; congruence.
  - apply parse_file_shape in H
      as (cl & cr & off & t0 & rds & Hcl & Hcr & Hoff & Ht0 & HF & ->).
    pose proof (Forall2_length _ _ _ HF) as Hlen. simpl in Hlen.
    exists (List.map rd_time rds). unfold times. cbn [List.tl].
    simpl points. simpl slow_move_offset.
    rewrite !times_point_at, !length_map.
    split; [apply (row_reads_times _ _ _ _ _ _ HF)|].
    do 4 (split; [solve [auto]|]).
    assert (Hne : List.map (fun t => t + off) (List.map rd_time rds) <> []).
    { destruct rds; [discriminate Hlen | discriminate]. }
    assert (Hpos : forall (g : RowData -> Q) p,
               In p (List.map (point_at off (fun rd => [g rd])) rds) ->
               positions p <> []).
    { intros g p Hp. apply in_map_iff in Hp as (rd & <- & _). discriminate. }
    split; intros _.
    + intros now.
      pose proof (gripper_index_range
                    (List.map (fun t => t + off) (List.map rd_time rds)) now) as Hi.
      rewrite !length_map in Hi.
      destruct (py_getitem_in_range
                  (List.map (point_at off (fun rd => [rd_lgrip rd])) rds)
                  (gripper_index
                     (List.map (fun t => t + off) (List.map rd_time rds)) now))
        as (p & Hp & _); [rewrite length_map; lia | eauto].
    + intros lg rg t1 ticks. unfold _execute_gripper_commands.
      simpl points. simpl trajectory_actual_offset. rewrite times_point_at.
      rewrite (py_getitem_minus1 _ 0 Hne). simpl.
      apply gripper_loop_ok; try assumption.
      * rewrite !length_map. reflexivity.
      * rewrite !length_map. reflexivity.
      * apply Hpos.
      * apply Hpos.
Qed.

End GripperTrajectories.

Lemma parse_file_gripper_trajectories_witness :
  demo_parse demo_file = Ok demo_session
  /\ exists ts : list Q,
      List.map (row_time float_decimal) (List.tl demo_file) = List.map Some ts
      /\ length (points (l_grip demo_session)) = length (List.tl demo_file)
      /\ length (points (r_grip demo_session)) = length (List.tl demo_file)
      /\ times (l_grip demo_session)
         = List.map (fun t => t + slow_move_offset demo_session) ts
      /\ times (r_grip demo_session)
         = List.map (fun t => t + slow_move_offset demo_session) ts
      /\ (List.tl demo_file <> [] ->
          forall now, exists p,
            py_getitem (points (l_grip demo_session))
                       (gripper_index (times (r_grip demo_session)) now) = Ok p)
      /\ (List.tl demo_file <> [] ->
          forall lg rg t0 ticks, exists evs,
            _execute_gripper_commands demo_session lg rg t0 ticks = Ok evs).
Proof.
  split; [exact demo_parse_ok|].
  exact (parse_file_gripper_trajectories float_decimal demo_l_arm demo_r_arm
           demo_params demo_file demo_session demo_parse_ok).
Defined.

(** ** Cells that do not read as numbers *)

Lemma dict_fold_None (l : list (string * Q)) (m : gmap string Q) (k : string) :
  fold_left (fun m kv => <[fst kv := snd kv]> m) l m !! k = None
  <-> m !! k = None /\ forall v, ~ In (k, v) l.
Proof.
  revert m. induction l as [|[k' v'] l IH]; intros m; simpl.
  - split; [intros H; split; [assumption | tauto] | tauto].
  - rewrite IH. destruct (decide (k' = k)) as [->|Hne].
    + rewrite lookup_insert_eq. split; [intros [H _]; discriminate|].
      intros [_ H]. exfalso. apply (H v'). left. reflexivity.
    + rewrite lookup_insert_ne by assumption. split.
      * intros [Hm H]. split; [assumption|].
        intros v [Heq|Hin]; [congruence | exact (H v Hin)].
      * intros [Hm H]. split; [assumption|]. intros v Hin. apply (H v). right. exact Hin.
Qed.

Lemma dict_fold_Some (l : list (string * Q)) (m : gmap string Q) (k : string) (v : Q) :
  fold_left (fun m kv => <[fst kv := snd kv]> m) l m !! k = Some v ->
  m !! k = Some v \/ In (k, v) l.
Proof.
  revert m. induction l as [|[k' v'] l IH]; intros m; simpl; [auto|].
  intros H. apply IH in H as [H|H]; [|auto].
  destruct (decide (k' = k)) as [->|Hne].
  - rewrite lookup_insert_eq in H. injection H as ->. auto.
  - rewrite lookup_insert_ne in H by assumption. auto.
Qed.

Lemma dict_None (l : list (string * Q)) (k : string) :
  dict l !! k = None <-> forall v, ~ In (k, v) l.
Proof.
  unfold dict. rewrite dict_fold_None, lookup_empty. tauto.
Qed.

Lemma dict_Some (l : list (string * Q)) (k : string) (v : Q) :
  dict l !! k = Some v -> In (k, v) l.
Proof.
  unfold dict. intros H. apply dict_fold_Some in H as [H|H]; [|assumption].
  rewrite lookup_empty in H. discriminate.
Qed.

Lemma In_drop_none (combined : list (string * option Q)) (k : string) (v : Q) :
  In (k, v) (drop_none combined) <-> In (k, Some v) combined.
Proof.
  induction combined as [|[k' [v'|]] l IH]; simpl; [tauto| |].
  - rewrite IH. split; (intros [H|H]; [left; congruence | right; assumption]).
  - rewrite IH. split; [auto | intros [H|H]; [discriminate | assumption]].
Qed.

Lemma In_combine_nth {A B} (xs : list A) (ys : list B) (x : A) (y : B) :
  In (x, y) (combine xs ys)
  <-> exists i, nth_error xs i = Some x /\ nth_error ys i = Some y.
Proof.
  revert ys. induction xs as [|x' xs IH]; intros ys; simpl.
  - split; [tauto | intros ([|i] & H & _); discriminate].
  - destruct ys as [|y' ys]; simpl.
    + split; [tauto | intros ([|i] & _ & H); discriminate].
    + rewrite IH. split.
      * intros [H|(i & H1 & H2)].
        -- injection H as -> ->. exists 0%nat. auto.
        -- exists (S i). auto.
      * intros ([|i] & H1 & H2); simpl in *.
        -- left. congruence.
        -- right. eauto.
Qed.

Lemma nth_error_tl {A} (l : list A) (i : nat) :
  nth_error (List.tl l) i = nth_error l (S i).
Proof. destruct l; [destruct i|]; reflexivity. Qed.

Section Cells.

Variable py_float : string -> option Q.
Variable l_arm r_arm : gmap string Q.
Variable params : gmap string Q.

(** A joint is in the command mapping of a line exactly through a
    column that carries its name and a cell that reads as a number. *)
Lemma row_cmd_In names line k v :
  In (k, v) (drop_none (combine (List.tl names)
                                (List.tl (row_values py_float line))))
  <-> exists i c, nth_error names (S i) = Some k
                  /\ nth_error (split_comma (rstrip line)) (S i) = Some c
                  /\ py_float c = Some v.
Proof.
  rewrite In_drop_none, In_combine_nth. unfold row_values. split.
  - intros (i & Hk & Hv). rewrite nth_error_tl in Hk. rewrite nth_error_tl in Hv.
    rewrite nth_error_map in Hv.
    destruct (nth_error (split_comma (rstrip line)) (S i)) as [c|] eqn:Hc;
      [|discriminate].
    injection Hv as Hv. eauto.
  - intros (i & c & Hk & Hc & Hv). exists i. rewrite !nth_error_tl.
    rewrite nth_error_map, Hc. simpl. split; [assumption | congruence].
Qed.

Lemma row_cmd_None names line k :
  row_cmd py_float names line !! k = None
  <-> forall i c, nth_error names (S i) = Some k ->
                  nth_error (split_comma (rstrip line)) (S i) = Some c ->
                  py_float c = None.
Proof.
  unfold row_cmd, _clean_line. cbn [fst]. rewrite dict_None. split.
  - intros H i c Hk Hc. destruct (py_float c) as [v|] eqn:Hv; [|reflexivity].
    exfalso. apply (H v). apply row_cmd_In. eauto.
  - intros H v Hin. apply row_cmd_In in Hin as (i & c & Hk & Hc & Hv).
    rewrite (H i c Hk Hc) in Hv. discriminate.
Qed.

Lemma row_cmd_Some names line k v :
  row_cmd py_float names line !! k = Some v ->
  exists i c, nth_error names (S i) = Some k
              /\ nth_error (split_comma (rstrip line)) (S i) = Some c
              /\ py_float c = Some v.
Proof.
  unfold row_cmd, _clean_line. cbn [fst]. intros H.
  apply dict_Some in H. apply row_cmd_In. exact H.
Qed.

Lemma dict_get_ok (d : gmap string Q) (k : string) :
  (exists v, dict_get d k = Ok v) <-> is_Some (d !! k).
Proof.
  unfold dict_get. destruct (d !! k) as [v|]; split.
  - intros _. eauto.
  - intros _. eauto.
  - intros [v H]. discriminate.
  - intros [v H]. discriminate.
Qed.

Lemma row_reads_iff cmd values lnames rnames :
  (exists rd, row_reads cmd values lnames rnames rd)
  <-> (exists t, py_getitem values 0 = Ok (Some t))
      /\ forall k, In k (needed_keys lnames rnames) -> is_Some (cmd !! k).
Proof.
  unfold row_reads, needed_keys. split.
  - intros (rd & H0 & Hl & Hr & Hgl & Hgr). split; [eauto|].
    intros k Hk. apply dict_get_ok.
    apply in_app_or in Hk as [Hk|Hk]; [|apply in_app_or in Hk as [Hk|Hk]].
    + destruct (list_comp_In _ _ _ k Hl Hk) as (y & Hy & _). eauto.
    + destruct (list_comp_In _ _ _ k Hr Hk) as (y & Hy & _). eauto.
    + destruct Hk as [<-|[<-|[]]]; eauto.
  - intros [(t & Ht) Hk].
    destruct (list_comp_ok (dict_get cmd) lnames) as (pl & Hpl).
    { intros k Hin. apply dict_get_ok, Hk, in_or_app. auto. }
    destruct (list_comp_ok (dict_get cmd) rnames) as (pr & Hpr).
    { intros k Hin. apply dict_get_ok, Hk, in_or_app. right.
      apply in_or_app. auto. }
    destruct (proj2 (dict_get_ok cmd "left_gripper")) as (gl & Hgl).
    { apply Hk. apply in_or_app. right. apply in_or_app. right. simpl. auto. }
    destruct (proj2 (dict_get_ok cmd "right_gripper")) as (gr & Hgr).
    { apply Hk. apply in_or_app. right. apply in_or_app. right. simpl. auto. }
    exists {| rd_time := t; rd_left := pl; rd_right := pr;
              rd_lgrip := gl; rd_rgrip := gr |}.
    simpl. auto 10.
Qed.

End Cells.

Lemma Forall2_In_left {A B} (R : A -> B -> Prop) (l : list A) (l' : list B) (x : A) :
  Forall2 R l l' -> In x l -> exists y, R x y.
Proof.
  induction 1 as [|a b l l' Hab _ IH]; simpl; [tauto|].
  intros [<-|Hin]; [eauto | auto].
Qed.

(** ** The start offset *)

Lemma combine_map {A B C} (f : A -> B) (g : A -> C) (l : list A) :
  combine (List.map f l) (List.map g l) = List.map (fun x => (f x, g x)) l.
Proof. induction l as [|x l IH]; simpl; [reflexivity | f_equal; exact IH]. Qed.

Lemma list_comp_map {A B C} (f : B -> result C) (g : A -> B) (l : list A) :
  list_comp f (List.map g l) = list_comp (fun x => f (g x)) l.
Proof.
  induction l as [|x l IH]; simpl; [reflexivity|]. rewrite IH. reflexivity.
Qed.

Lemma list_comp_ext {A B} (f g : A -> result B) (l : list A) :
  (forall x, f x = g x) -> list_comp f l = list_comp g l.
Proof.
  intros H. induction l as [|x l IH]; simpl; [reflexivity|].
  rewrite H, IH. reflexivity.
Qed.

Lemma py_max_spec (l : list Q) (m : Q) :
  py_max l = Ok m -> In m l /\ forall x, In x l -> x <= m.
Proof.
  destruct l as [|x l]; simpl; [discriminate|]. intros [= <-].
  assert (H : forall acc,
             (In (fold_left (fun m y => if Qltb m y then y else m) l acc) (acc :: l))
             /\ acc <= fold_left (fun m y => if Qltb m y then y else m) l acc
             /\ forall y, In y l ->
                   y <= fold_left (fun m y => if Qltb m y then y else m) l acc).
  { induction l as [|y l IH]; intros acc; simpl.
    - split; [auto | split; [apply Qle_refl | tauto]].
    - destruct (Qltb acc y) eqn:Hc.
      + apply Qltb_lt in Hc. destruct (IH y) as (Hin & Hle & Hall).
        split; [simpl in Hin; tauto|]. split.
        * eapply Qle_trans; [apply Qlt_le_weak, Hc | exact Hle].
        * intros z [<-|Hz]; [exact Hle | apply Hall, Hz].
      + apply Qltb_ge in Hc. destruct (IH acc) as (Hin & Hle & Hall).
        split; [simpl in Hin; tauto|]. split; [exact Hle|].
        intros z [<-|Hz]; [eapply Qle_trans; eassumption | apply Hall, Hz]. }
  destruct (H x) as (Hin & Hle & Hall). split; [exact Hin|].
  intros z [<-|Hz]; [exact Hle | apply Hall, Hz].
Qed.

Lemma py_max_ok (l : list Q) : l <> [] -> exists m, py_max l = Ok m.
Proof. destruct l; [congruence | simpl; eauto]. Qed.

Section StartOffset.

Variable l_arm r_arm : gmap string Q.
Variable params : gmap string Q.

Lemma offset_step_spec pos cur cmd vel name :
  offset_step l_arm r_arm params pos (cur, cmd, vel) name
  = if is_arm name then
      tr ← joint_triple l_arm r_arm params pos name;
      Ok ((cur ++ [fst (fst tr)])%list, (cmd ++ [snd (fst tr)])%list,
          (vel ++ [snd tr])%list)
    else Ok (cur, cmd, vel).
Proof.
  unfold offset_step, joint_triple, current, is_arm, joint_angle, velocity.
  fold (is_left name) (is_right name).
  destruct (is_left name) eqn:Hl; simpl.
  - destruct (dict_get pos name); simpl; [|reflexivity].
    unfold dict_get. destruct (l_arm !! name); reflexivity.
  - destruct (is_right name); [|reflexivity].
    destruct (dict_get pos name); simpl; [|reflexivity].
    unfold dict_get. destruct (r_arm !! name); reflexivity.
Qed.

Lemma offset_lists_spec pos names cur cmd vel :
  offset_lists l_arm r_arm params pos names (cur, cmd, vel)
  = (trs ← list_comp (joint_triple l_arm r_arm params pos)
                     (List.filter is_arm names);
     Ok ((cur ++ List.map (fun tr => fst (fst tr)) trs)%list,
         (cmd ++ List.map (fun tr => snd (fst tr)) trs)%list,
         (vel ++ List.map snd trs)%list)).
Proof.
  revert cur cmd vel. induction names as [|name names IH]; intros cur cmd vel.
  - simpl. rewrite !app_nil_r. reflexivity.
  - cbn [offset_lists List.filter]. rewrite offset_step_spec.
    destruct (is_arm name).
    + cbn [list_comp].
      destruct (joint_triple l_arm r_arm params pos name) as [[[a c] v]|e];
        [|reflexivity].
      simpl. rewrite IH.
      destruct (list_comp _ (List.filter is_arm names)) as [trs|e];
        [|reflexivity].
      simpl. rewrite <- !app_assoc. reflexivity.
    + simpl. apply IH.
Qed.

(** [find_start_offset] as one pass over the arm joints of the header. *)
Lemma find_start_offset_spec names pos :
  find_start_offset l_arm r_arm params names pos
  = (trs ← list_comp (joint_triple l_arm r_arm params pos)
                     (List.filter is_arm names);
     ratios ← list_comp triple_ratio trs;
     py_max ratios).
Proof.
  unfold find_start_offset. rewrite offset_lists_spec.
  destruct (list_comp _ (List.filter is_arm names)) as [trs|e]; [|reflexivity].
  simpl. f_equal.
  rewrite combine_map, !List.map_map, combine_map, list_comp_map.
  apply list_comp_ext. intros [[a c] v]. reflexivity.
Qed.

End StartOffset.

Lemma Forall2_In_right {A B} (R : A -> B -> Prop) (l : list A) (l' : list B) (y : B) :
  Forall2 R l l' -> In y l' -> exists x, In x l /\ R x y.
Proof.
  induction 1 as [|a b l l' Hab _ IH]; simpl; [tauto|].
  intros [<-|Hin]; [eauto|]. destruct (IH Hin) as (x & Hx & HR). eauto.
Qed.

Lemma Forall2_In_left' {A B} (R : A -> B -> Prop) (l : list A) (l' : list B) (x : A) :
  Forall2 R l l' -> In x l -> exists y, In y l' /\ R x y.
Proof.
  induction 1 as [|a b l l' Hab _ IH]; simpl; [tauto|].
  intros [<-|Hin]; [eauto|]. destruct (IH Hin) as (y & Hy & HR). eauto.
Qed.

Section StartOffsetMax.

Variable l_arm r_arm : gmap string Q.
Variable params : gmap string Q.

Lemma usable_ratios pos (joints : list string) :
  (forall name, In name joints -> usable l_arm r_arm params pos name) ->
  exists trs ratios,
    list_comp (joint_triple l_arm r_arm params pos) joints = Ok trs
    /\ list_comp triple_ratio trs = Ok ratios
    /\ Forall2 (fun name r => joint_ratio l_arm r_arm params pos name = Some r)
               joints ratios.
Proof.
  induction joints as [|name joints IH]; intros H.
  - exists [], []. simpl. repeat split; constructor.
  - destruct IH as (trs & ratios & Ht & Hr & HF);
      [intros n Hn; apply H; right; exact Hn|].
    destruct (H name (or_introl eq_refl)) as [[r Hjr] Hv].
    unfold joint_ratio in Hjr.
    destruct (pos !! name) as [c|] eqn:Hc; [|discriminate].
    destruct (current l_arm r_arm name) as [a|] eqn:Ha; [|discriminate].
    injection Hjr as <-.
    exists ((a, c, velocity params name) :: trs),
      (Qabs (c - a) / velocity params name :: ratios).
    assert (Hdiv : py_div (Qabs (c - a)) (velocity params name)
                   = Ok (Qabs (c - a) / velocity params name)).
    { unfold py_div. destruct (Qeq_bool (velocity params name) 0) eqn:E;
        [|reflexivity].
      apply Qeq_bool_iff in E. contradiction. }
    split; [|split].
    + assert (Htr : joint_triple l_arm r_arm params pos name
                    = Ok (a, c, velocity params name)).
      { unfold joint_triple, dict_get. rewrite Hc, Ha. reflexivity. }
      cbn [list_comp]. rewrite Htr. simpl. rewrite Ht. reflexivity.
    + cbn [list_comp triple_ratio]. rewrite Hdiv. simpl. rewrite Hr. reflexivity.
    + constructor; [|exact HF]. unfold joint_ratio. rewrite Hc, Ha. reflexivity.
Qed.

(** With usable arm joints, and at least one of them, the start offset
    is a ratio of some arm joint and no arm joint has a larger one. *)
Lemma find_start_offset_max names pos :
  (forall name, In name names -> is_arm name = true -> usable l_arm r_arm params pos name) ->
  (exists name, In name names /\ is_arm name = true) ->
  exists off,
    find_start_offset l_arm r_arm params names pos = Ok off
    /\ (exists name, In name names /\ is_arm name = true
                     /\ joint_ratio l_arm r_arm params pos name = Some off)
    /\ (forall name r, In name names -> is_arm name = true ->
                       joint_ratio l_arm r_arm params pos name = Some r ->
                       r <= off).
Proof.
  intros Hus (n0 & Hn0 & Ha0).
  destruct (usable_ratios pos (List.filter is_arm names))
    as (trs & ratios & Ht & Hr & HF).
  { intros name Hin. apply filter_In in Hin as [Hin Harm]. auto. }
  assert (Hne : ratios <> []).
  { intros ->. inversion HF as [Hnil|]; subst.
    assert (Hin : In n0 (List.filter is_arm names)) by (apply filter_In; auto).
    rewrite <- Hnil in Hin. destruct Hin. }
  destruct (py_max_ok ratios Hne) as (off & Hmax).
  exists off. rewrite find_start_offset_spec, Ht. simpl. rewrite Hr. simpl.
  split; [exact Hmax|].
  apply py_max_spec in Hmax as [Hin Hub]. split.
  - destruct (Forall2_In_right _ _ _ off HF Hin) as (name & Hname & Hjr).
    apply filter_In in Hname as [Hname Harm]. eauto.
  - intros name r Hname Harm Hjr.
    assert (Hf : In name (List.filter is_arm names)) by (apply filter_In; auto).
    destruct (Forall2_In_left' _ _ _ name HF Hf) as (r' & Hr' & Hjr').
    rewrite Hjr in Hjr'. injection Hjr' as <-. apply Hub, Hr'.
Qed.

(** C4: for a first row that commands every arm joint of the header, a
    snapshot that knows each of them and velocities (0.25 where the
    parameter server has none) that are not zero, with at least one arm
    joint, [find_start_offset] returns the greatest
    [|commanded - current| / velocity] over the arm joints; the value
    does not depend on the order of the joints and is 0 when every
    current angle equals the commanded one. *)
Theorem find_start_offset_is_max names pos :
  (forall name, In name names -> is_arm name = true -> usable l_arm r_arm params pos name) ->
  (exists name, In name names /\ is_arm name = true) ->
  exists off,
    find_start_offset l_arm r_arm params names pos = Ok off
    /\ (exists name, In name names /\ is_arm name = true
                     /\ joint_ratio l_arm r_arm params pos name = Some off)
    /\ (forall name r, In name names -> is_arm name = true ->
                       joint_ratio l_arm r_arm params pos name = Some r ->
                       r <= off)
    /\ (forall name, params !! vel_param name = None ->
                     velocity params name = 0.25)
    /\ (forall names', Permutation names names' ->
          exists off', find_start_offset l_arm r_arm params names' pos = Ok off'
                       /\ off' == off)
    /\ ((forall name c a, In name names -> is_arm name = true ->
                          pos !! name = Some c ->
                          current l_arm r_arm name = Some a -> c == a) ->
        off == 0).
Proof.
  intros Hus Hex.
  destruct (find_start_offset_max names pos Hus Hex)
    as (off & Hoff & (n & Hn & Han & Hjn) & Hub).
  exists off. split; [exact Hoff|]. split; [eauto|]. split; [exact Hub|].
  split; [|split].
  - intros name Hnone. unfold velocity, get_param. rewrite Hnone. reflexivity.
  - intros names' Hperm.
    destruct (find_start_offset_max names' pos)
      as (off' & Hoff' & (n' & Hn' & Han' & Hjn') & Hub').
    { intros name Hin. apply Hus. eapply Permutation_in; [|exact Hin].
      apply Permutation_sym, Hperm. }
    { destruct Hex as (m & Hm & Hma). exists m. split; [|exact Hma].
      eapply Permutation_in; eassumption. }
    exists off'. split; [exact Hoff'|]. apply Qle_antisym.
    + apply (Hub n'); [|assumption..].
      eapply Permutation_in; [|exact Hn']. apply Permutation_sym, Hperm.
    + apply (Hub' n); [|assumption..]. eapply Permutation_in; eassumption.
  - intros Heq. unfold joint_ratio in Hjn.
    destruct (pos !! n) as [c|] eqn:Hc; [|discriminate].
    destruct (current l_arm r_arm n) as [a|] eqn:Ha; [|discriminate].
    injection Hjn as Hjn. rewrite <- Hjn.
    assert (Hz : Qabs (c - a) == 0).
    { rewrite (Heq n c a Hn Han Hc Ha).
      setoid_replace (a - a) with 0 using relation Qeq by ring. reflexivity. }
    rewrite Hz. unfold Qdiv. ring.
Qed.

End StartOffsetMax.

Lemma find_start_offset_is_max_witness :
  (forall name, In name demo_joint_names -> is_arm name = true ->
                usable demo_l_arm demo_r_arm demo_params demo_pos name)
  /\ (exists name, In name demo_joint_names /\ is_arm name = true)
  /\ exists off,
      find_start_offset demo_l_arm demo_r_arm demo_params demo_joint_names demo_pos
      = Ok off
      /\ joint_ratio demo_l_arm demo_r_arm demo_params demo_pos "left_s0" = Some off
      /\ off == 2.
Proof.
  assert (Hus : forall name, In name demo_joint_names -> is_arm name = true ->
                  usable demo_l_arm demo_r_arm demo_params demo_pos name).
  { intros name Hin Harm. vm_compute in Hin.
    destruct Hin as [<-|[<-|[<-|[<-|[<-|[]]]]]]; vm_compute in Harm;
      try discriminate Harm;
      (split; [vm_compute; eexists; reflexivity | vm_compute; discriminate]). }
  assert (Hex : exists name, In name demo_joint_names /\ is_arm name = true).
  { exists "left_s0". split; vm_compute; [right; left|]; reflexivity. }
  split; [exact Hus|]. split; [exact Hex|].
  destruct (find_start_offset_is_max demo_l_arm demo_r_arm demo_params
              demo_joint_names demo_pos Hus Hex) as (off & Hoff & _).
  exists off. split; [exact Hoff|].
  vm_compute in Hoff. injection Hoff as <-.
  split; vm_compute; reflexivity.
Defined.

(** ** Construction *)

(** C9: [__init__] first probes the left and then the right action
    server, each for 10 time units; when either probe fails the
    constructor logs, signals shutdown and ends in an exception, so
    that whatever the caller meant to do with the session is never run
    and no goal is sent. *)
Theorem init_fails_fast (left right : ActionClient) (lg rg : Gripper)
        (B : Type) (k : Trajectory -> prog B) :
  wait_for_server left 10 = false \/ wait_for_server right 10 = false ->
  pbind (init left right lg rg) k
  = ([EWaitForServer LeftArm 10; EWaitForServer RightArm 10;
      ELogErr server_msg; ESignalShutdown server_msg],
     Err NameError)
  /\ forallb (fun e => negb (is_send_goal e))
             (fst (pbind (init left right lg rg) k)) = true
  /\ (forall left' right' lg' rg', exists rest,
         fst (init left' right' lg' rg')
         = EWaitForServer LeftArm 10 :: EWaitForServer RightArm 10 :: rest
         /\ forallb (fun e => negb (is_send_goal e)) rest = true).
Proof.
  intros Hdown.
  assert (Hinit : init left right lg rg
                  = ([EWaitForServer LeftArm 10; EWaitForServer RightArm 10;
                      ELogErr server_msg; ESignalShutdown server_msg],
                     Err NameError)).
  { unfold init. destruct Hdown as [-> | ->]; simpl.
    - reflexivity.
    - rewrite orb_true_r. reflexivity. }
  rewrite Hinit. simpl. split; [reflexivity|]. split; [reflexivity|].
  intros left' right' lg' rg'. unfold init.
  destruct (negb (wait_for_server left' 10) || negb (wait_for_server right' 10))%bool;
    simpl.
  - eexists. split; reflexivity.
  - eexists. split; [reflexivity|].
    destruct (g_error lg'), (g_error rg'); reflexivity.
Qed.

Lemma init_fails_fast_witness :
  wait_for_server down_client 10 = false
  /\ pbind (init done_client down_client plain_gripper plain_gripper) send_goals
     = ([EWaitForServer LeftArm 10; EWaitForServer RightArm 10;
         ELogErr server_msg; ESignalShutdown server_msg],
        Err NameError).
Proof.
  split; [reflexivity|].
  apply (init_fails_fast done_client down_client plain_gripper plain_gripper
           Trajectory send_goals).
  right. reflexivity.
Defined.

(** ** Cancellation *)

Section StopFacts.

Variable cancel_goal : ActionClient -> ActionClient.

Lemma stop_arm_trace (a : arm) (c : ActionClient) :
  fst (stop_arm cancel_goal a c) = if active_goal c then [ECancelGoal a] else [].
Proof. unfold stop_arm, active_goal. destruct (gh c && _)%bool; reflexivity. Qed.

Lemma stop_arm_client (a : arm) (c : ActionClient) :
  snd (stop_arm cancel_goal a c) = if active_goal c then cancel_goal c else c.
Proof. unfold stop_arm, active_goal. destruct (gh c && _)%bool; reflexivity. Qed.

Lemma stop_trace (left right : ActionClient) :
  fst (stop cancel_goal left right)
  = ((if active_goal left then [ECancelGoal LeftArm] else [])
       ++ (if active_goal right then [ECancelGoal RightArm] else [])
       ++ [ESleep 0.1])%list.
Proof.
  unfold stop. rewrite <- (stop_arm_trace LeftArm left), <- (stop_arm_trace RightArm right).
  destruct (stop_arm cancel_goal LeftArm left), (stop_arm cancel_goal RightArm right).
  reflexivity.
Qed.

Lemma stop_clients (left right : ActionClient) :
  snd (stop cancel_goal left right)
  = (if active_goal left then cancel_goal left else left,
     if active_goal right then cancel_goal right else right).
Proof.
  unfold stop. rewrite <- (stop_arm_client LeftArm left), <- (stop_arm_client RightArm right).
  destruct (stop_arm cancel_goal LeftArm left), (stop_arm cancel_goal RightArm right).
  reflexivity.
Qed.

Lemma active_goal_iff (c : ActionClient) :
  active_goal c = true <-> gh c = true /\ get_state c = ACTIVE.
Proof.
  unfold active_goal. rewrite andb_true_iff.
  destruct (get_state c); simpl; intuition congruence.
Qed.

Lemma stop_cancel_left (left right : ActionClient) :
  In (ECancelGoal LeftArm) (fst (stop cancel_goal left right))
  <-> active_goal left = true.
Proof.
  rewrite stop_trace.
  destruct (active_goal left), (active_goal right); simpl; split; intros H;
    try reflexivity; try discriminate H; auto;
    repeat (destruct H as [H|H]; try discriminate H); contradiction.
Qed.

Lemma stop_cancel_right (left right : ActionClient) :
  In (ECancelGoal RightArm) (fst (stop cancel_goal left right))
  <-> active_goal right = true.
Proof.
  rewrite stop_trace.
  destruct (active_goal left), (active_goal right); simpl; split; intros H;
    try reflexivity; try discriminate H; auto;
    repeat (destruct H as [H|H]; try discriminate H); contradiction.
Qed.

Lemma stop_ends_with_delay (left right : ActionClient) :
  exists cancels,
    fst (stop cancel_goal left right) = (cancels ++ [ESleep 0.1])%list
    /\ forall e, In e cancels -> exists a, e = ECancelGoal a.
Proof.
  rewrite stop_trace.
  exists ((if active_goal left then [ECancelGoal LeftArm] else [])
            ++ (if active_goal right then [ECancelGoal RightArm] else []))%list.
  split; [rewrite <- app_assoc; reflexivity|].
  intros e He. apply in_app_or in He.
  destruct (active_goal left), (active_goal right), He as [He|He];
    simpl in He; try contradiction; destruct He as [<-|[]]; eauto.
Qed.

Lemma stop_cancel_count (a : arm) (left right : ActionClient) :
  (length (List.filter (is_cancel a) (fst (stop cancel_goal left right))) <= 1)%nat.
Proof.
  rewrite stop_trace.
  destruct a, (active_goal left), (active_goal right); simpl; lia.
Qed.

Lemma stop_idle (left right : ActionClient) :
  active_goal left = false -> active_goal right = false ->
  stop cancel_goal left right = ([ESleep 0.1], (left, right)).
Proof.
  intros Hl Hr. unfold stop, stop_arm. fold (active_goal left) (active_goal right).
  rewrite Hl, Hr. reflexivity.
Qed.

(** C8: [stop] asks an arm's client to cancel exactly when that client
    has a goal handle and reports the goal active, and always ends with
    the 0.1 drain delay.  With no goal active it does nothing but wait,
    and leaves the clients as they are; called twice in a row, the
    second call sends no cancellation once the clients no longer report
    the cancelled goals active. *)
Theorem stop_cancels_active_goals (left right : ActionClient) :
  let tr := fst (stop cancel_goal left right) in
  let after := snd (stop cancel_goal left right) in
  (In (ECancelGoal LeftArm) tr <-> gh left = true /\ get_state left = ACTIVE)
  /\ (In (ECancelGoal RightArm) tr <-> gh right = true /\ get_state right = ACTIVE)
  /\ (exists cancels, tr = (cancels ++ [ESleep 0.1])%list
                      /\ forall e, In e cancels -> exists a, e = ECancelGoal a)
  /\ (length (List.filter (is_cancel LeftArm) tr) <= 1)%nat
  /\ (length (List.filter (is_cancel RightArm) tr) <= 1)%nat
  /\ (active_goal left = false -> active_goal right = false ->
      tr = [ESleep 0.1] /\ after = (left, right)
      /\ stop cancel_goal (fst after) (snd after) = ([ESleep 0.1], (left, right)))
  /\ ((forall c, active_goal (cancel_goal c) = false) ->
      fst (stop cancel_goal (fst after) (snd after)) = [ESleep 0.1]).
Proof.
  intros tr after. subst tr after.
  split; [rewrite <- active_goal_iff; apply stop_cancel_left|].
  split; [rewrite <- active_goal_iff; apply stop_cancel_right|].
  split; [apply stop_ends_with_delay|].
  split; [apply stop_cancel_count|]. split; [apply stop_cancel_count|].
  split.
  - intros Hl Hr. rewrite (stop_idle left right Hl Hr). simpl.
    rewrite (stop_idle left right Hl Hr). auto.
  - intros Hc. rewrite stop_clients. simpl.
    assert (Hoff : forall c, active_goal (if active_goal c then cancel_goal c else c)
                             = false).
    { intros c. destruct (active_goal c) eqn:E; [apply Hc | exact E]. }
    rewrite stop_idle by apply Hoff. reflexivity.
Qed.

End StopFacts.

Lemma stop_cancels_active_goals_witness :
  (forall c, active_goal (preempt c) = false)
  /\ fst (stop preempt running_client done_client) = [ECancelGoal LeftArm; ESleep 0.1]
  /\ fst (stop preempt (fst (snd (stop preempt running_client done_client)))
               (snd (snd (stop preempt running_client done_client))))
     = [ESleep 0.1].
Proof.
  assert (Hp : forall c, active_goal (preempt c) = false).
  { intros c. unfold active_goal. simpl. apply andb_false_r. }
  split; [exact Hp|]. split; [reflexivity|].
  destruct (stop_cancels_active_goals preempt running_client done_client)
    as (_ & _ & _ & _ & _ & _ & Htwice).
  exact (Htwice Hp).
Defined.

(** ** Waiting for the result *)

Lemma wait_timeout_value (params : gmap string Q) (s : Trajectory)
      (p : JointTrajectoryPoint) (pts : list JointTrajectoryPoint) :
  points (r_goal s) = (pts ++ [p])%list ->
  exists timeout,
    wait_timeout params s = Ok timeout
    /\ timeout == slow_move_offset s + time_from_start p + 1.5
                  + get_param params (param_ns ++ "goal_time") 0.
Proof.
  intros Hp. unfold wait_timeout.
  rewrite (py_getitem_minus1 (points (r_goal s)) p)
    by (rewrite Hp; destruct pts; discriminate).
  rewrite Hp, length_app, app_nth2 by (simpl; lia).
  replace (length pts + length [p] - 1 - length pts)%nat with 0%nat by (simpl; lia).
  simpl. eexists. split; [reflexivity | ring].
Qed.

(** When both clients hold a result, [wait] gives the expected verdict:
    true exactly when both finished in time with error code 0, and
    otherwise false with one warning. *)
Lemma wait_with_results (params : gmap string Q) (s : Trajectory)
      (left right : ActionClient) (timeout : Q) (lc rc : Z) :
  wait_timeout params s = Ok timeout ->
  get_result left = Some lc -> get_result right = Some rc ->
  let ok := (wait_for_result left timeout && wait_for_result right timeout
             && (lc =? 0)%Z && (rc =? 0)%Z)%bool in
  wait params s left right
  = (([EWaitForResult LeftArm timeout; EWaitForResult RightArm timeout]
        ++ (if ok then [] else [ELogWarn wait_msg]))%list,
     Ok ok).
Proof.
  intros Ht Hl Hr. unfold wait. rewrite Ht, Hl, Hr. simpl.
  destruct (wait_for_result left timeout), (wait_for_result right timeout),
    (lc =? 0)%Z, (rc =? 0)%Z; reflexivity.
Qed.

(** A client without a result makes [wait] raise, whatever else holds. *)
Lemma wait_without_result (params : gmap string Q) (s : Trajectory)
      (left right : ActionClient) (timeout : Q) :
  wait_timeout params s = Ok timeout ->
  get_result left = None \/ get_result right = None ->
  wait params s left right
  = ([EWaitForResult LeftArm timeout; EWaitForResult RightArm timeout],
     Err AttributeError).
Proof.
  intros Ht Hnone. unfold wait. rewrite Ht.
  destruct Hnone as [-> | ->]; simpl; [reflexivity|].
  destruct (get_result left); reflexivity.
Qed.

(** C6: [wait] is meant to answer false, with a warning, when an arm
    has not finished within the timeout.  It does not: here the left
    client is still running (its wait times out and it has no result
    yet) and the right one has succeeded, and [wait] ends in
    [AttributeError] without logging a warning; the same happens with
    the roles swapped.  With both goals done it answers true. *)
Theorem wait_raises_on_timeout :
  (exists t, wait_timeout demo_params demo_session = Ok t
             /\ t == 2 + 5 + 1.5 + 0
             /\ wait_for_result running_client t = false)
  /\ snd (wait demo_params demo_session running_client done_client)
     = Err AttributeError
  /\ existsb is_warning
             (fst (wait demo_params demo_session running_client done_client))
     = false
  /\ snd (wait demo_params demo_session done_client running_client)
     = Err AttributeError
  /\ snd (wait demo_params demo_session done_client done_client) = Ok true.
Proof.
  split.
  - vm_compute. eexists. split; [reflexivity|]. split; reflexivity.
  - vm_compute. repeat split; reflexivity.
Qed.

(** What [find_start_offset] does outside the theorem's conditions. *)
Example find_start_offset_zero_velocity :
  find_start_offset demo_l_arm demo_r_arm
    {[vel_param "left_s0" := 0]} demo_joint_names demo_pos
  = Err ZeroDivisionError.
Proof. vm_compute. reflexivity. Qed.

Example find_start_offset_no_arm_joint :
  find_start_offset demo_l_arm demo_r_arm demo_params
    ["time"; "left_gripper"; "right_gripper"] demo_pos
  = Err ValueError.
Proof. vm_compute. reflexivity. Qed.

Example find_start_offset_missing_command :
  find_start_offset demo_l_arm demo_r_arm demo_params
    demo_joint_names (delete "left_s0" demo_pos)
  = Err KeyError.
Proof. vm_compute. reflexivity. Qed.

(** ** The lookup once the latched time has been stored *)

Lemma feedback_keeps (s : Trajectory) (t : Q) :
  r_grip (_feedback s t) = r_grip s
  /\ l_grip (_feedback s t) = l_grip s
  /\ trajectory_start_offset (_feedback s t) = trajectory_start_offset s.
Proof.
  unfold _feedback.
  destruct (negb (_get_trajectory_flag s)
            && Qle_bool (trajectory_start_offset s) t)%bool; auto.
Qed.

(** Once the flag is up, the latched time is at or after
    [trajectory_start_offset]. *)
Lemma feedbacks_latched (s : Trajectory) (ts : list Q) :
  arm_trajectory_started s = false ->
  arm_trajectory_started (feedbacks s ts) = true ->
  trajectory_start_offset s <= trajectory_actual_offset (feedbacks s ts)
  /\ r_grip (feedbacks s ts) = r_grip s.
Proof.
  unfold feedbacks. revert s. induction ts as [|t ts IH]; intros s Hf Ht; simpl in *.
  - congruence.
  - destruct (Qle_bool (trajectory_start_offset s) t) eqn:Hc.
    + rewrite feedback_crossing in * by (try apply Qle_bool_iff; assumption).
      fold (feedbacks (set_actual_offset (_set_trajectory_flag s true) t) ts).
      rewrite feedbacks_started by reflexivity. simpl.
      split; [apply Qle_bool_iff, Hc | reflexivity].
    + assert (Hs : _feedback s t = s).
      { unfold _feedback. rewrite Hc, andb_false_r. reflexivity. }
      rewrite Hs in *. apply IH; assumption.
Qed.

Section AfterLatch.

Variable py_float : string -> option Q.
Variable l_arm r_arm : gmap string Q.
Variable params : gmap string Q.

Lemma parse_file_first_sample header line0 rest s' :
  parse_file py_float l_arm r_arm params (Some (header :: line0 :: rest))
             new_trajectory = Ok s' ->
  arm_trajectory_started s' = false
  /\ exists t later, times (r_grip s') = t :: later
                     /\ t == trajectory_start_offset s'.
Proof.
  intros Hp.
  apply parse_file_shape in Hp
    as (cl & cr & off & t1 & rds & _ & _ & _ & Ht1 & HF & ->).
  split; [reflexivity|].
  inversion HF as [|? rd ? rds' (Hrd & _) _]; subst.
  rewrite row_values_0, Ht1 in Hrd. injection Hrd as Hrd.
  unfold times. simpl. rewrite Hrd.
  eexists. eexists. split; [reflexivity | apply Qplus_comm].
Qed.

(** In a session that was parsed, once an invocation of [_feedback]
    has raised the flag and also stored its time (here: invocations
    taken whole), the elapsed time the gripper loop computes from that
    time is at or after the first gripper sample, so the index is not
    negative.  [start] can read the offset before it is stored; that
    run is followed in the section on [start]. *)
Lemma gripper_index_after_latch header line0 rest s' ts t0 now :
  parse_file py_float l_arm r_arm params (Some (header :: line0 :: rest))
             new_trajectory = Ok s' ->
  arm_trajectory_started (feedbacks s' ts) = true ->
  StronglySorted Qle (times (r_grip s')) ->
  t0 <= now ->
  (0 <= gripper_index (times (r_grip (feedbacks s' ts)))
                      (now - (t0 - trajectory_actual_offset (feedbacks s' ts))))%Z.
Proof.
  intros Hp Hflag Hsorted Hclock.
  destruct (parse_file_first_sample _ _ _ _ Hp) as (Hf & t & later & Ht & Hthr).
  destruct (feedbacks_latched s' ts Hf Hflag) as [Hact ->].
  set (act := trajectory_actual_offset (feedbacks s' ts)) in *.
  apply gripper_index_floor; [assumption | rewrite Ht; discriminate |].
  rewrite Ht. simpl. rewrite Hthr.
  apply Qle_trans with act; [exact Hact|].
  setoid_replace (now - (t0 - act)) with (act + (now - t0)) using relation Qeq by ring.
  rewrite <- (Qplus_0_r act) at 1. apply Qplus_le_r.
  unfold Qminus. rewrite <- (Qplus_opp_r t0). apply Qplus_le_l, Hclock.
Qed.

End AfterLatch.

(** * More of [trajectory.py] *)

(** ** What [parse_file] does to a session that is not fresh *)

Section ParseAppends.

Variable py_float : string -> option Q.
Variable l_arm r_arm : gmap string Q.
Variable params : gmap string Q.

(** The session [parse_file] builds from any session it is given. *)
Lemma parse_file_shape_any header rows s s' :
  let names := split_comma (rstrip header) in
  let s1 := add_names s (List.filter is_left names) (List.filter is_right names) in
  parse_file py_float l_arm r_arm params (Some (header :: rows)) s = Ok s' ->
  (rows = [] /\ s' = s1)
  \/ exists cl cr off t0 rds,
      rows <> [] /\ length rds = length rows
      /\ length cl = length (joint_names (l_goal s1))
      /\ length cr = length (joint_names (r_goal s1))
      /\ Forall (fun rd => length (rd_left rd) = length (joint_names (l_goal s1))
                           /\ length (rd_right rd) = length (joint_names (r_goal s1)))
                rds
      /\ s' = extend_rows
                (set_offsets
                   (extend s1 [{| positions := cl; time_from_start := 0 |}]
                              [{| positions := cr; time_from_start := 0 |}] [] [])
                   off (off + t0))
                off rds.
Proof.
  intros names s1. unfold parse_file. rewrite py_getitem_0.
  cbn [mbind result_bind rbind List.tl]. fold names.
  rewrite classify_fold. fold s1. destruct rows as [|line0 rest].
  - simpl. intros [= <-]. left. auto.
  - rewrite parse_rows_cons_first. intros H. right.
    apply bind_Ok in H as ([s2 off] & Hfirst & H).
    apply first_row_spec in Hfirst as (cl & cr & t0 & Hcl & Hcr & _ & _ & ->).
    apply bind_Ok in H as (s3 & Hrow & H).
    apply row_points_spec in Hrow as (rd & Hrd & ->).
    apply parse_rows_tail in H as (rds & HF & ->).
    exists cl, cr, off, t0, (rd :: rds). simpl in *.
    split; [discriminate|].
    split; [f_equal; symmetry; apply (Forall2_length _ _ _ HF)|].
    split; [apply (list_comp_length _ _ _ Hcl)|].
    split; [apply (list_comp_length _ _ _ Hcr)|].
    split; [|symmetry; apply extend_rows_cons].
    assert (Hlens : forall cmd values rd0,
               row_reads cmd values (joint_names (l_goal s1))
                         (joint_names (r_goal s1)) rd0 ->
               length (rd_left rd0) = length (joint_names (l_goal s1))
               /\ length (rd_right rd0) = length (joint_names (r_goal s1))).
    { intros cmd values rd0 (_ & Hl & Hr & _).
      split; eapply list_comp_length; eassumption. }
    constructor; [eapply Hlens; exact Hrd|].
    clear Hrd. induction HF as [|line rd' lines rds' Hr' _ IH]; constructor.
    + eapply Hlens; exact Hr'.
    + exact IH.
Qed.

(** X1: [parse_file] only appends.  On any session, fresh or not, the
    joint names and points it already holds stay in front, the arm
    trajectories gain one point more than there are data rows (none for
    a header alone), the gripper trajectories one per data row, and the
    flag and the latched offset are not touched. *)
Theorem parse_file_only_appends lines s s' :
  parse_file py_float l_arm r_arm params (Some lines) s = Ok s' ->
  let n := length (List.tl lines) in
  let arm_n := match n with O => O | S _ => S n end in
  arm_trajectory_started s' = arm_trajectory_started s
  /\ trajectory_actual_offset s' = trajectory_actual_offset s
  /\ (exists ln rn,
        joint_names (l_goal s') = (joint_names (l_goal s) ++ ln)%list
        /\ joint_names (r_goal s') = (joint_names (r_goal s) ++ rn)%list)
  /\ joint_names (l_grip s') = joint_names (l_grip s)
  /\ joint_names (r_grip s') = joint_names (r_grip s)
  /\ (exists pl pr gl gr,
        points (l_goal s') = (points (l_goal s) ++ pl)%list
        /\ points (r_goal s') = (points (r_goal s) ++ pr)%list
        /\ points (l_grip s') = (points (l_grip s) ++ gl)%list
        /\ points (r_grip s') = (points (r_grip s) ++ gr)%list
        /\ length pl = arm_n /\ length pr = arm_n
        /\ length gl = n /\ length gr = n).
Proof.
  intros H. destruct lines as [|header rows]; [discriminate H|].
  apply parse_file_shape_any in H
    as [[-> ->] | (cl & cr & off & t0 & rds & Hne & Hlen & _ & _ & _ & ->)].
  - simpl. repeat split; eauto.
    exists [], [], [], []. rewrite !app_nil_r. auto 10.
  - cbn [List.tl]. rewrite <- Hlen.
    destruct rds as [|rd rds]; [destruct rows; [congruence | discriminate Hlen]|].
    simpl. repeat split; eauto.
    eexists _, _, _, _. rewrite <- !app_assoc.
    repeat split; try reflexivity; simpl; rewrite ?length_map; reflexivity.
Qed.

End ParseAppends.

Lemma demo_parse_twice_ok :
  parse_file float_decimal demo_l_arm demo_r_arm demo_params (Some demo_file)
             demo_session = Ok demo_session_twice.
Proof. vm_compute. reflexivity. Qed.

Lemma parse_file_only_appends_witness :
  parse_file float_decimal demo_l_arm demo_r_arm demo_params (Some demo_file)
             demo_session = Ok demo_session_twice
  /\ arm_trajectory_started demo_session_twice = arm_trajectory_started demo_session
  /\ exists pl, points (l_goal demo_session_twice)
                = (points (l_goal demo_session) ++ pl)%list
                /\ length pl = 3%nat.
Proof.
  split; [exact demo_parse_twice_ok|].
  destruct (parse_file_only_appends float_decimal demo_l_arm demo_r_arm
              demo_params demo_file demo_session demo_session_twice
              demo_parse_twice_ok)
    as (Hflag & _ & _ & _ & _ & (pl & pr & gl & gr & Hpl & _ & _ & _ & Hl & _)).
  split; [exact Hflag|]. exists pl. split; [exact Hpl | exact Hl].
Defined.

(** ** The trajectories of a fresh session *)

Section FreshSession.

Variable py_float : string -> option Q.
Variable l_arm r_arm : gmap string Q.
Variable params : gmap string Q.

(** X2: after [parse_file] on a fresh session the left arm's joint names
    are the header entries whose name without its last three characters
    is "left", in header order, and likewise for the right arm; no name
    is on both sides, the two gripper keys are on neither, and the
    gripper trajectories carry no joint names. *)
Theorem parse_file_joint_names header rows s' :
  parse_file py_float l_arm r_arm params (Some (header :: rows)) new_trajectory
  = Ok s' ->
  let names := split_comma (rstrip header) in
  joint_names (l_goal s') = List.filter is_left names
  /\ joint_names (r_goal s') = List.filter is_right names
  /\ (forall name, In name (joint_names (l_goal s'))
                   <-> In name names /\ drop_last3 name = "left")
  /\ (forall name, In name (joint_names (r_goal s'))
                   <-> In name names /\ drop_last3 name = "right")
  /\ (forall name, In name (joint_names (l_goal s')) ->
                   ~ In name (joint_names (r_goal s')))
  /\ ~ In "left_gripper" (joint_names (l_goal s'))
  /\ ~ In "right_gripper" (joint_names (r_goal s'))
  /\ joint_names (l_grip s') = []
  /\ joint_names (r_grip s') = [].
Proof.
  intros H names.
  assert (Hl : joint_names (l_goal s') = List.filter is_left names
               /\ joint_names (r_goal s') = List.filter is_right names
               /\ joint_names (l_grip s') = [] /\ joint_names (r_grip s') = []).
  { apply parse_file_shape_any in H
      as [[_ ->] | (cl & cr & off & t0 & rds & _ & _ & _ & _ & _ & ->)];
      simpl; auto. }
  destruct Hl as (Hl & Hr & Hgl & Hgr). rewrite Hl, Hr.
  assert (Hleft : forall name, In name (List.filter is_left names)
                               <-> In name names /\ drop_last3 name = "left").
  { intros name. rewrite filter_In. unfold is_left. rewrite String.eqb_eq.
    split; intros [? ?]; split; congruence. }
  assert (Hright : forall name, In name (List.filter is_right names)
                                <-> In name names /\ drop_last3 name = "right").
  { intros name. rewrite filter_In. unfold is_right. rewrite String.eqb_eq.
    split; intros [? ?]; split; congruence. }
  split; [reflexivity|]. split; [reflexivity|].
  split; [exact Hleft|]. split; [exact Hright|].
  split; [|split; [|split; [|split; assumption]]].
  - intros name Hin Hin'. apply Hleft in Hin as [_ E]. apply Hright in Hin' as [_ E'].
    rewrite E in E'. discriminate E'.
  - intros Hin. apply Hleft in Hin as [_ E]. vm_compute in E. discriminate E.
  - intros Hin. apply Hright in Hin as [_ E]. vm_compute in E. discriminate E.
Qed.

(** X3: after [parse_file] on a fresh session every arm point has as
    many positions as the arm has joint names and every gripper point
    has exactly one; each arm trajectory has one point more than the
    file has data rows, or none when the file is only a header. *)
Theorem parse_file_points_well_formed header rows s' :
  parse_file py_float l_arm r_arm params (Some (header :: rows)) new_trajectory
  = Ok s' ->
  Forall (fun p => length (positions p) = length (joint_names (l_goal s')))
         (points (l_goal s'))
  /\ Forall (fun p => length (positions p) = length (joint_names (r_goal s')))
            (points (r_goal s'))
  /\ Forall (fun p => length (positions p) = 1%nat) (points (l_grip s'))
  /\ Forall (fun p => length (positions p) = 1%nat) (points (r_grip s'))
  /\ length (points (l_goal s'))
     = match rows with [] => 0%nat | _ :: _ => S (length rows) end
  /\ length (points (r_goal s')) = length (points (l_goal s')).
Proof.
  intros H.
  apply parse_file_shape_any in H
    as [[-> ->] | (cl & cr & off & t0 & rds & Hne & Hlen & Hcl & Hcr & Hrds & ->)].
  - simpl. repeat split; constructor.
  - simpl in *. rewrite !length_map, Hlen.
    assert (Hmap : forall (pos : RowData -> list Q) (n : nat),
               Forall (fun rd => length (pos rd) = n) rds ->
               Forall (fun p => length (positions p) = n)
                      (List.map (point_at off pos) rds)).
    { intros pos n HF. apply List.Forall_map. exact HF. }
    repeat split.
    + constructor; [exact Hcl|]. apply Hmap.
      eapply List.Forall_impl; [|exact Hrds]. intros rd [E _]. exact E.
    + constructor; [exact Hcr|]. apply Hmap.
      eapply List.Forall_impl; [|exact Hrds]. intros rd [_ E]. exact E.
    + apply Hmap. apply List.Forall_forall. reflexivity.
    + apply Hmap. apply List.Forall_forall. reflexivity.
    + destruct rows; [congruence | reflexivity].
Qed.

End FreshSession.

Lemma parse_file_joint_names_witness :
  demo_parse demo_file = Ok demo_session
  /\ joint_names (l_goal demo_session) = ["left_s0"]
  /\ joint_names (r_goal demo_session) = ["right_s0"].
Proof.
  split; [exact demo_parse_ok|].
  destruct (parse_file_joint_names float_decimal demo_l_arm demo_r_arm
              demo_params (nth 0 demo_file "") (List.tl demo_file)
              demo_session demo_parse_ok) as (Hl & Hr & _).
  rewrite Hl, Hr. vm_compute. split; reflexivity.
Defined.

Lemma parse_file_points_well_formed_witness :
  demo_parse demo_file = Ok demo_session
  /\ Forall (fun p => length (positions p) = 1%nat) (points (l_goal demo_session))
  /\ length (points (l_goal demo_session)) = 3%nat.
Proof.
  split; [exact demo_parse_ok|].
  destruct (parse_file_points_well_formed float_decimal demo_l_arm demo_r_arm
              demo_params (nth 0 demo_file "") (List.tl demo_file)
              demo_session demo_parse_ok) as (Hl & _ & _ & _ & Hn & _).
  split; [exact Hl | exact Hn].
Defined.

(** ** More on the start offset *)

Lemma list_comp_Err {A B} (f : A -> result B) (l : list A) (e : exn) :
  (forall x, In x l -> f x = Err e \/ exists y, f x = Ok y) ->
  (exists x, In x l /\ f x = Err e) ->
  list_comp f l = Err e.
Proof.
  induction l as [|x l IH]; intros Hall (z & Hz & Hfz); simpl in *; [tauto|].
  destruct (Hall x (or_introl eq_refl)) as [Hx | (y & Hx)]; rewrite Hx; simpl.
  - reflexivity.
  - destruct Hz as [<-|Hz]; [congruence|].
    rewrite IH; [reflexivity | intros w Hw; apply Hall; right; exact Hw | eauto].
Qed.

Lemma filter_nil {A} (f : A -> bool) (l : list A) :
  (forall x, In x l -> f x = false) -> List.filter f l = [].
Proof.
  induction l as [|x l IH]; intros H; simpl; [reflexivity|].
  rewrite (H x (or_introl eq_refl)). apply IH. intros y Hy. apply H. right. exact Hy.
Qed.

Section StartOffsetMore.

Variable l_arm r_arm : gmap string Q.
Variable params : gmap string Q.

Lemma joint_triple_Ok pos name tr :
  joint_triple l_arm r_arm params pos name = Ok tr ->
  exists c a, pos !! name = Some c /\ current l_arm r_arm name = Some a
              /\ tr = (a, c, velocity params name).
Proof.
  unfold joint_triple, dict_get.
  destruct (pos !! name) as [c|]; simpl; [|discriminate].
  destruct (current l_arm r_arm name) as [a|]; simpl; [|discriminate].
  intros [= <-]. eauto.
Qed.

Lemma joint_triple_cases pos name :
  joint_triple l_arm r_arm params pos name = Err KeyError
  \/ exists tr, joint_triple l_arm r_arm params pos name = Ok tr.
Proof.
  unfold joint_triple, dict_get.
  destruct (pos !! name); simpl; [|auto].
  destruct (current l_arm r_arm name); simpl; eauto.
Qed.

Lemma triple_ratio_Ok (a c v r : Q) :
  triple_ratio (a, c, v) = Ok r -> ~ v == 0 /\ r = Qabs (c - a) / v.
Proof.
  unfold triple_ratio, py_div. destruct (Qeq_bool v 0) eqn:E; [discriminate|].
  intros [= <-]. split; [|reflexivity].
  intros Hv. apply Qeq_bool_iff in Hv. congruence.
Qed.

(** A start offset that was returned comes with the ratio of every arm
    joint. *)
Lemma find_start_offset_Ok names pos off :
  find_start_offset l_arm r_arm params names pos = Ok off ->
  exists ratios,
    py_max ratios = Ok off
    /\ Forall2 (fun name r =>
                  exists c a, pos !! name = Some c
                              /\ current l_arm r_arm name = Some a
                              /\ ~ velocity params name == 0
                              /\ r = Qabs (c - a) / velocity params name)
               (List.filter is_arm names) ratios.
Proof.
  rewrite find_start_offset_spec. intros H.
  apply bind_Ok in H as (trs & Htrs & H). apply bind_Ok in H as (ratios & Hr & H).
  exists ratios. split; [exact H|].
  apply list_comp_Forall2 in Htrs. apply list_comp_Forall2 in Hr.
  clear H. revert ratios Hr.
  induction Htrs as [|name tr joints trs Hname _ IH]; intros ratios Hr.
  - inversion Hr. constructor.
  - inversion Hr as [|? r ? ratios' Htr Hrest]; subst.
    constructor; [|apply IH; exact Hrest].
    apply joint_triple_Ok in Hname as (c & a & Hc & Ha & ->).
    apply triple_ratio_Ok in Htr as [Hv ->]. eauto 10.
Qed.

(** X4: with positive velocities a returned start offset is not
    negative and is long enough for every arm joint: each joint covers
    the distance from its current to its commanded angle within the
    offset at its velocity. *)
Theorem find_start_offset_reaches names pos off :
  find_start_offset l_arm r_arm params names pos = Ok off ->
  (forall name, In name names -> is_arm name = true ->
                0 < velocity params name) ->
  0 <= off
  /\ forall name, In name names -> is_arm name = true ->
       exists c a, pos !! name = Some c /\ current l_arm r_arm name = Some a
                   /\ Qabs (c - a) <= off * velocity params name.
Proof.
  intros Hoff Hvel.
  apply find_start_offset_Ok in Hoff as (ratios & Hmax & HF).
  apply py_max_spec in Hmax as [Hin Hub]. split.
  - destruct (Forall2_In_right _ _ _ off HF Hin)
      as (name & Hname & c & a & _ & _ & _ & ->).
    apply filter_In in Hname as [Hname Harm].
    apply Qle_shift_div_l; [apply Hvel; assumption|].
    rewrite Qmult_0_l. apply Qabs_nonneg.
  - intros name Hname Harm.
    assert (Hf : In name (List.filter is_arm names)) by (apply filter_In; auto).
    destruct (Forall2_In_left' _ _ _ name HF Hf)
      as (r & Hr & c & a & Hc & Ha & Hv & ->).
    exists c, a. split; [exact Hc|]. split; [exact Ha|].
    apply Hub in Hr.
    apply (Qmult_le_r _ _ (velocity params name)) in Hr; [|apply Hvel; assumption].
    eapply Qle_trans; [|exact Hr].
    setoid_replace (Qabs (c - a) / velocity params name * velocity params name)
      with (Qabs (c - a)) using relation Qeq by (field; exact Hv).
    apply Qle_refl.
Qed.

(** X5: how [find_start_offset] fails.  A missing commanded value or
    current angle of an arm joint is a [KeyError], whatever the
    velocities; a header without arm joints is a [ValueError]; and when
    every arm joint has both values, a zero velocity is a
    [ZeroDivisionError]. *)
Theorem find_start_offset_errors names pos :
  ((exists name, In name names /\ is_arm name = true
                 /\ (pos !! name = None \/ current l_arm r_arm name = None)) ->
   find_start_offset l_arm r_arm params names pos = Err KeyError)
  /\ ((forall name, In name names -> is_arm name = false) ->
      find_start_offset l_arm r_arm params names pos = Err ValueError)
  /\ ((forall name, In name names -> is_arm name = true ->
                    is_Some (joint_ratio l_arm r_arm params pos name)) ->
      (exists name, In name names /\ is_arm name = true
                    /\ velocity params name == 0) ->
      find_start_offset l_arm r_arm params names pos = Err ZeroDivisionError).
Proof.
  rewrite find_start_offset_spec. split; [|split].
  - intros (name & Hname & Harm & Hmiss).
    rewrite (list_comp_Err _ _ KeyError); [reflexivity | |].
    + intros x _. apply joint_triple_cases.
    + exists name. split; [apply filter_In; auto|].
      unfold joint_triple, dict_get.
      destruct Hmiss as [-> | Hcur]; [reflexivity|].
      destruct (pos !! name); simpl; [rewrite Hcur|]; reflexivity.
  - intros Hnone. rewrite filter_nil by exact Hnone. reflexivity.
  - intros Hall (name & Hname & Harm & Hzero).
    destruct (list_comp_ok (joint_triple l_arm r_arm params pos)
                           (List.filter is_arm names)) as (trs & Htrs).
    { intros x Hx. apply filter_In in Hx as [Hx Hxa].
      destruct (Hall x Hx Hxa) as (r & Hr). unfold joint_ratio in Hr.
      unfold joint_triple, dict_get.
      destruct (pos !! x); [|discriminate].
      destruct (current l_arm r_arm x); [|discriminate]. simpl. eauto. }
    rewrite Htrs. simpl.
    rewrite (list_comp_Err _ _ ZeroDivisionError); [reflexivity | |].
    + intros [[a c] v] _. unfold triple_ratio, py_div.
      destruct (Qeq_bool v 0); eauto.
    + apply list_comp_Forall2 in Htrs.
      assert (Hf : In name (List.filter is_arm names)) by (apply filter_In; auto).
      destruct (Forall2_In_left' _ _ _ name Htrs Hf) as (tr & Htr & Hjt).
      apply joint_triple_Ok in Hjt as (c & a & _ & _ & ->).
      exists (a, c, velocity params name). split; [exact Htr|].
      unfold triple_ratio, py_div.
      apply Qeq_bool_iff in Hzero. rewrite Hzero. reflexivity.
Qed.

End StartOffsetMore.

Lemma demo_offset_ok :
  find_start_offset demo_l_arm demo_r_arm demo_params demo_joint_names demo_pos
  = Ok (5000 # 2500).
Proof. vm_compute. reflexivity. Qed.

Lemma find_start_offset_reaches_witness :
  find_start_offset demo_l_arm demo_r_arm demo_params demo_joint_names demo_pos
  = Ok (5000 # 2500)
  /\ 0 <= 5000 # 2500
  /\ exists c a, demo_pos !! "left_s0" = Some c
                 /\ current demo_l_arm demo_r_arm "left_s0" = Some a
                 /\ Qabs (c - a) <= (5000 # 2500) * velocity demo_params "left_s0".
Proof.
  split; [exact demo_offset_ok|].
  assert (Hvel : forall name, In name demo_joint_names -> is_arm name = true ->
                              0 < velocity demo_params name).
  { intros name _ _. reflexivity. }
  destruct (find_start_offset_reaches demo_l_arm demo_r_arm demo_params
              demo_joint_names demo_pos _ demo_offset_ok Hvel) as [Hpos Hreach].
  split; [exact Hpos|].
  apply Hreach; vm_compute; [right; left|]; reflexivity.
Defined.

Lemma find_start_offset_errors_witness :
  find_start_offset demo_l_arm demo_r_arm demo_params demo_joint_names
                    (delete "left_s0" demo_pos) = Err KeyError
  /\ find_start_offset demo_l_arm demo_r_arm demo_params
                       ["time"; "left_gripper"] demo_pos = Err ValueError
  /\ find_start_offset demo_l_arm demo_r_arm {[vel_param "left_s0" := 0]}
                       demo_joint_names demo_pos = Err ZeroDivisionError.
Proof.
  split; [|split].
  - apply (find_start_offset_errors demo_l_arm demo_r_arm demo_params).
    exists "left_s0". vm_compute. split; [right; left; reflexivity|].
    split; [reflexivity | left; reflexivity].
  - apply (find_start_offset_errors demo_l_arm demo_r_arm demo_params).
    intros name Hin. vm_compute in Hin.
    destruct Hin as [<-|[<-|[]]]; vm_compute; reflexivity.
  - apply (find_start_offset_errors demo_l_arm demo_r_arm
             {[vel_param "left_s0" := 0]}).
    + intros name Hin Harm. vm_compute in Hin.
      destruct Hin as [<-|[<-|[<-|[<-|[<-|[]]]]]]; vm_compute in Harm;
        try discriminate Harm; vm_compute; eexists; reflexivity.
    + exists "left_s0". vm_compute. split; [right; left; reflexivity|].
      split; reflexivity.
Defined.

(** ** Cells that do not read as numbers: the row and the file *)

Lemma Forall_exists_Forall2 {A B} (R : A -> B -> Prop) (l : list A) :
  Forall (fun x => exists y, R x y) l -> exists l', Forall2 R l l'.
Proof.
  induction 1 as [|x l (y & Hy) _ (l' & IH)].
  - exists []. constructor.
  - exists (y :: l'). constructor; assumption.
Qed.

Lemma Forall2_Forall_left {A B} (R : A -> B -> Prop) (P : A -> Prop)
      (l : list A) (l' : list B) :
  Forall2 R l l' -> (forall x y, R x y -> P x) -> Forall P l.
Proof.
  intros H HP. induction H as [|x y l l' Hxy _ IH]; constructor; eauto.
Qed.

Lemma right_not_left (name : string) : is_right name = true -> is_left name = false.
Proof.
  intros Hr. destruct (is_left name) eqn:Hl; [|reflexivity].
  rewrite (left_not_right name Hl) in Hr. discriminate Hr.
Qed.

Section WholeFile.

Variable py_float : string -> option Q.
Variable l_arm r_arm : gmap string Q.
Variable params : gmap string Q.

(** [find_start_offset] returns exactly when every arm joint of the
    header is usable and there is at least one. *)
Lemma find_start_offset_ok_iff names pos :
  (exists off, find_start_offset l_arm r_arm params names pos = Ok off)
  <-> (forall name, In name names -> is_arm name = true ->
                    usable l_arm r_arm params pos name)
      /\ (exists name, In name names /\ is_arm name = true).
Proof.
  split.
  - intros (off & Hoff).
    apply find_start_offset_Ok in Hoff as (ratios & Hmax & HF).
    apply py_max_spec in Hmax as [Hin _]. split.
    + intros name Hname Harm.
      assert (Hf : In name (List.filter is_arm names)) by (apply filter_In; auto).
      destruct (Forall2_In_left' _ _ _ name HF Hf)
        as (r & _ & c & a & Hc & Ha & Hv & _).
      split; [|exact Hv]. unfold joint_ratio. rewrite Hc, Ha. eauto.
    + destruct (Forall2_In_right _ _ _ off HF Hin) as (name & Hname & _).
      apply filter_In in Hname as [Hname Harm]. eauto.
  - intros [Hus Hex].
    destruct (find_start_offset_max l_arm r_arm params names pos Hus Hex)
      as (off & Hoff & _).
    eauto.
Qed.

Lemma row_complete_reads names line :
  row_complete py_float names line
  <-> exists rd, row_reads (row_cmd py_float names line) (row_values py_float line)
                           (List.filter is_left names)
                           (List.filter is_right names) rd.
Proof.
  unfold row_complete. rewrite row_reads_iff, row_values_0. unfold is_Some.
  split; intros [(t & Ht) Hk]; (split; [|exact Hk]); exists t; congruence.
Qed.

(** A file with a header and at least one data row parses into a fresh
    session exactly when every row is complete and the first row finds
    what the start offset needs: a current angle for every arm joint of
    the header, a velocity that is not zero, and at least one arm
    joint. *)
Lemma parse_file_ok_iff header line0 rest :
  (exists s', parse_file py_float l_arm r_arm params
                         (Some (header :: line0 :: rest)) new_trajectory = Ok s')
  <-> (forall name, In name (split_comma (rstrip header)) -> is_arm name = true ->
                    is_Some (current l_arm r_arm name)
                    /\ ~ velocity params name == 0)
      /\ (exists name, In name (split_comma (rstrip header)) /\ is_arm name = true)
      /\ Forall (row_complete py_float (split_comma (rstrip header))) (line0 :: rest).
Proof.
  set (names := split_comma (rstrip header)). split.
  - intros (s' & Hp).
    apply parse_file_shape in Hp
      as (cl & cr & off & t0 & rds & _ & _ & Hoff & _ & HF & _).
    fold names in Hoff, HF.
    destruct (proj1 (find_start_offset_ok_iff names _) (ex_intro _ off Hoff))
      as [Hus Hex].
    split; [|split; [exact Hex|]].
    + intros name Hname Harm. destruct (Hus name Hname Harm) as [[r Hr] Hv].
      split; [|exact Hv]. unfold joint_ratio in Hr.
      destruct (row_cmd py_float names line0 !! name); [|discriminate Hr].
      destruct (current l_arm r_arm name) as [a|]; [eauto | discriminate Hr].
    + eapply Forall2_Forall_left; [exact HF|].
      intros line rd Hrd. apply row_complete_reads. exists rd. exact Hrd.
  - intros (Hcur & Hex & Hrows).
    assert (H0 : row_complete py_float names line0) by (inversion Hrows; assumption).
    destruct (list_comp_ok (joint_angle l_arm) (List.filter is_left names))
      as (cl & Hcl).
    { intros name Hin. apply filter_In in Hin as [Hin Hl].
      destruct (Hcur name Hin) as [[a Ha] _];
        [unfold is_arm; rewrite Hl; reflexivity|].
      unfold current in Ha. rewrite Hl in Ha.
      unfold joint_angle, dict_get. rewrite Ha. eauto. }
    destruct (list_comp_ok (joint_angle r_arm) (List.filter is_right names))
      as (cr & Hcr).
    { intros name Hin. apply filter_In in Hin as [Hin Hr].
      destruct (Hcur name Hin) as [[a Ha] _];
        [unfold is_arm; rewrite Hr; apply orb_true_r|].
      unfold current in Ha. rewrite (right_not_left name Hr) in Ha.
      unfold joint_angle, dict_get. rewrite Ha. eauto. }
    destruct (proj2 (find_start_offset_ok_iff names (row_cmd py_float names line0)))
      as (off & Hoff).
    { split; [|exact Hex]. intros name Hname Harm.
      destruct (Hcur name Hname Harm) as [[a Ha] Hv]. split; [|exact Hv].
      destruct H0 as [_ Hkeys].
      destruct (Hkeys name) as [c Hc].
      { unfold needed_keys. unfold is_arm in Harm.
        apply orb_true_iff in Harm as [Hl|Hr].
        - apply in_or_app. left. apply filter_In. auto.
        - apply in_or_app. right. apply in_or_app. left. apply filter_In. auto. }
      unfold joint_ratio. rewrite Hc, Ha. eauto. }
    destruct H0 as [[t0 Ht0] _].
    destruct (Forall_exists_Forall2
                (fun line rd =>
                   row_reads (row_cmd py_float names line) (row_values py_float line)
                             (List.filter is_left names)
                             (List.filter is_right names) rd)
                (line0 :: rest)) as (rds & HF).
    { eapply List.Forall_impl; [|exact Hrows].
      intros line Hline. apply row_complete_reads, Hline. }
    eexists. apply parse_file_shape.
    exists cl, cr, off, t0, rds. fold names. auto 10.
Qed.

(** C7 (as the code has it): [_clean_line] never fails and leaves a
    joint out of the row's command mapping exactly when no column of
    that name holds a cell that reads as a number.  The four points of
    a row are then added without error if and only if the row is
    complete: its time cell reads as a number and the mapping holds
    every arm joint of the header and both gripper keys.  A file with a
    header and at least one data row parses if and only if every row is
    complete, the header names an arm joint, each limb reports the
    current angle of its joints and no arm joint's velocity is zero; so
    a row that lacks a needed cell makes [parse_file] fail, as do an
    empty and an unreadable file. *)
Theorem clean_line_bad_cells header line :
  let names := split_comma (rstrip header) in
  let cmd := row_cmd py_float names line in
  let cells := split_comma (rstrip line) in
  _clean_line py_float line names = (cmd, List.map py_float cells)
  /\ (forall k, cmd !! k = None <->
                forall i c, nth_error names (S i) = Some k ->
                            nth_error cells (S i) = Some c ->
                            py_float c = None)
  /\ (forall k v, cmd !! k = Some v ->
                  exists i c, nth_error names (S i) = Some k
                              /\ nth_error cells (S i) = Some c
                              /\ py_float c = Some v)
  /\ (forall off s,
        (exists s', row_points cmd (List.map py_float cells) off s = Ok s')
        <-> is_Some (row_time py_float line)
            /\ forall k, In k (needed_keys (joint_names (l_goal s))
                                           (joint_names (r_goal s))) ->
                         is_Some (cmd !! k))
  /\ (forall line0 rest,
        (exists s', parse_file py_float l_arm r_arm params
                               (Some (header :: line0 :: rest)) new_trajectory
                    = Ok s')
        <-> (forall name, In name names -> is_arm name = true ->
                          is_Some (current l_arm r_arm name)
                          /\ ~ velocity params name == 0)
            /\ (exists name, In name names /\ is_arm name = true)
            /\ Forall (row_complete py_float names) (line0 :: rest))
  /\ (forall rows,
        In line rows ->
        (exists k, In k (needed_keys (List.filter is_left names)
                                     (List.filter is_right names))
                   /\ cmd !! k = None) ->
        exists e, parse_file py_float l_arm r_arm params
                             (Some (header :: rows)) new_trajectory = Err e)
  /\ (exists s', parse_file py_float l_arm r_arm params (Some [header])
                            new_trajectory = Ok s')
  /\ parse_file py_float l_arm r_arm params (Some []) new_trajectory
     = Err IndexError
  /\ parse_file py_float l_arm r_arm params None new_trajectory = Err IOError.
Proof.
  intros names cmd cells.
  split; [reflexivity|]. split; [apply row_cmd_None|].
  split; [apply row_cmd_Some|].
  split; [|split; [|split; [|split; [|split; reflexivity]]]].
  - intros off s. change (List.map py_float cells) with (row_values py_float line).
    assert (Hiff : (exists s', row_points cmd (row_values py_float line) off s = Ok s')
                   <-> exists rd, row_reads cmd (row_values py_float line)
                                    (joint_names (l_goal s))
                                    (joint_names (r_goal s)) rd).
    { split.
      - intros (s' & H). apply row_points_spec in H as (rd & H & _). eauto.
      - intros (rd & H). eexists. apply row_points_spec. eauto. }
    rewrite Hiff, row_reads_iff, row_values_0. unfold is_Some.
    split; intros [(t & Ht) Hk]; (split; [|exact Hk]); exists t; congruence.
  - intros line0 rest. apply parse_file_ok_iff.
  - intros rows Hin (k & Hk & Hnone).
    destruct (parse_file py_float l_arm r_arm params (Some (header :: rows))
                         new_trajectory) as [s'|e] eqn:Hp; [exfalso | eauto].
    destruct rows as [|line0 rest]; [destruct Hin|].
    assert (Hok : exists s', parse_file py_float l_arm r_arm params
                               (Some (header :: line0 :: rest)) new_trajectory
                             = Ok s') by eauto.
    apply parse_file_ok_iff in Hok as (_ & _ & Hrows).
    rewrite List.Forall_forall in Hrows.
    destruct (Hrows line Hin) as [_ Hkeys].
    destruct (Hkeys k Hk) as (v & Hv). subst cmd names. congruence.
  - eexists. apply parse_file_header_only.
Qed.

End WholeFile.

Lemma clean_line_bad_cells_witness :
  row_cmd float_decimal (split_comma (rstrip (nth 0 demo_file_blank "")))
          (nth 1 demo_file_blank "") !! "left_s0" = None
  /\ exists e,
      parse_file float_decimal demo_l_arm demo_r_arm demo_params
                 (Some (nth 0 demo_file_blank "" :: List.tl demo_file_blank))
                 new_trajectory = Err e.
Proof.
  destruct (clean_line_bad_cells float_decimal demo_l_arm demo_r_arm demo_params
              (nth 0 demo_file_blank "") (nth 1 demo_file_blank ""))
    as (_ & Hnone & _ & _ & _ & Hfatal & _).
  split.
  - apply Hnone. intros i c Hk Hc.
    destruct i as [|[|[|[|[|i]]]]]; try discriminate Hk.
    injection Hc as <-. reflexivity.
  - apply (Hfatal (List.tl demo_file_blank)).
    + vm_compute. left. reflexivity.
    + exists "left_s0". split; [vm_compute; left; reflexivity | vm_compute; reflexivity].
Defined.

(** C7 as stated fails: a readable, non-empty recording whose only flaw
    is one blank joint cell does not parse, while the same recording
    with the cell filled in does; and a recording that has every cell
    but no arm joint in its header does not parse either. *)
Lemma parse_file_blank_cell_fatal :
  row_time float_decimal (nth 1 demo_file_blank "") = Some 1
  /\ row_cmd float_decimal demo_names (nth 1 demo_file_blank "") !! "left_s0" = None
  /\ demo_parse demo_file_blank = Err KeyError
  /\ is_ok (demo_parse demo_file) = true
  /\ demo_parse ["time,left_gripper,right_gripper" ++ nl; "0.0,50,50" ++ nl]
     = Err ValueError.
Proof. vm_compute. repeat split; reflexivity. Qed.

(** ** Time stamps of a whole trajectory *)

Lemma map_Some_inj {A} (l l' : list A) :
  List.map Some l = List.map Some l' -> l = l'.
Proof.
  revert l'. induction l as [|x l IH]; intros [|y l'] H; simpl in H;
    try discriminate H; [reflexivity|].
  injection H as -> H. f_equal. apply IH, H.
Qed.

Lemma sorted_le_shift (off : Q) (ts : list Q) :
  StronglySorted Qle ts -> StronglySorted Qle (List.map (fun t => t + off) ts).
Proof.
  induction 1 as [|t ts Hs IH Hall]; simpl; constructor; [assumption|].
  rewrite List.Forall_forall in *. intros u Hu.
  apply in_map_iff in Hu as (v & <- & Hv).
  apply Qplus_le_l, Hall, Hv.
Qed.

Lemma sorted_le_lower (ts : list Q) (b : Q) :
  StronglySorted Qle ts -> b <= List.hd b ts -> Forall (Qle b) ts.
Proof.
  intros Hs Hb. destruct ts as [|t ts]; [constructor|].
  simpl in Hb. inversion Hs as [|? ? _ Hall]; subst.
  constructor; [exact Hb|].
  eapply List.Forall_impl; [|exact Hall].
  intros u Hu. eapply Qle_trans; eassumption.
Qed.

Lemma find_start_offset_nonneg (l_arm r_arm params : gmap string Q)
      (names : list string) (pos : gmap string Q) (off : Q) :
  find_start_offset l_arm r_arm params names pos = Ok off ->
  (forall name, In name names -> is_arm name = true ->
                0 < velocity params name) ->
  0 <= off.
Proof.
  intros Hoff Hvel.
  apply find_start_offset_Ok in Hoff as (ratios & Hmax & HF).
  apply py_max_spec in Hmax as [Hin _].
  destruct (Forall2_In_right _ _ _ off HF Hin)
    as (name & Hname & c & a & _ & _ & _ & ->).
  apply filter_In in Hname as [Hname Harm].
  apply Qle_shift_div_l; [apply Hvel; assumption|].
  rewrite Qmult_0_l. apply Qabs_nonneg.
Qed.

Section WholeTrajectory.

Variable py_float : string -> option Q.
Variable l_arm r_arm : gmap string Q.
Variable params : gmap string Q.

(** X6: when the default velocities of the arm joints are positive and
    the recorded times are sorted and start at or after 0, the start
    offset is not negative and the time stamps of all four trajectories
    never decrease, the initial point at 0 included. *)
Theorem parse_file_times_sorted header line0 rest s' ts :
  parse_file py_float l_arm r_arm params (Some (header :: line0 :: rest))
             new_trajectory = Ok s' ->
  (forall name, In name (split_comma (rstrip header)) -> is_arm name = true ->
                0 < velocity params name) ->
  List.map (row_time py_float) (line0 :: rest) = List.map Some ts ->
  StronglySorted Qle ts ->
  0 <= List.hd 0 ts ->
  0 <= slow_move_offset s'
  /\ StronglySorted Qle (times (l_goal s'))
  /\ StronglySorted Qle (times (r_goal s'))
  /\ StronglySorted Qle (times (l_grip s'))
  /\ StronglySorted Qle (times (r_grip s')).
Proof.
  intros Hp Hvel Hts Hsorted Hfirst.
  apply parse_file_shape in Hp
    as (cl & cr & off & t0 & rds & _ & _ & Hoff & _ & HF & ->).
  rewrite (row_reads_times _ _ _ _ _ _ HF) in Hts. apply map_Some_inj in Hts.
  rewrite <- Hts in *. clear Hts ts.
  pose proof (find_start_offset_nonneg _ _ _ _ _ _ Hoff Hvel) as Hpos.
  unfold times. simpl. rewrite !times_point_at.
  pose proof (sorted_le_shift off _ Hsorted) as Hshift.
  assert (Hlow : Forall (Qle 0) (List.map (fun t => t + off) (List.map rd_time rds))).
  { apply List.Forall_map.
    eapply List.Forall_impl; [|apply (sorted_le_lower _ 0 Hsorted Hfirst)].
    intros t Ht. simpl. rewrite <- (Qplus_0_r 0).
    apply Qplus_le_compat; assumption. }
  split; [exact Hpos|].
  split; [constructor; assumption|]. split; [constructor; assumption|].
  split; assumption.
Qed.

End WholeTrajectory.

Lemma parse_file_times_sorted_witness :
  demo_parse demo_file = Ok demo_session
  /\ 0 <= slow_move_offset demo_session
  /\ StronglySorted Qle (times (l_goal demo_session)).
Proof.
  split; [exact demo_parse_ok|].
  assert (Hvel : forall name, In name (split_comma (rstrip (nth 0 demo_file ""))) ->
                              is_arm name = true -> 0 < velocity demo_params name).
  { intros name _ _. reflexivity. }
  assert (Hts : List.map (row_time float_decimal) (List.tl demo_file)
                = List.map Some [1; 3]).
  { vm_compute. reflexivity. }
  assert (Hs : StronglySorted Qle [1; 3]).
  { repeat constructor; vm_compute; discriminate. }
  assert (H0 : 0 <= List.hd 0 [1; 3]) by (vm_compute; discriminate).
  destruct (parse_file_times_sorted float_decimal demo_l_arm demo_r_arm
              demo_params (nth 0 demo_file "") (nth 1 demo_file "")
              (List.tl (List.tl demo_file)) demo_session [1; 3]
              demo_parse_ok Hvel Hts Hs H0) as (Hpos & Hl & _).
  split; [exact Hpos | exact Hl].
Defined.

(** ** More on the phase latch *)

Lemma feedback_flag_up (s : Trajectory) (t : Q) :
  arm_trajectory_started (_feedback s t) = true
  <-> arm_trajectory_started s = true \/ trajectory_start_offset s <= t.
Proof.
  unfold _feedback, _get_trajectory_flag.
  destruct (arm_trajectory_started s) eqn:Hf; simpl.
  - rewrite Hf. tauto.
  - destruct (Qle_bool (trajectory_start_offset s) t) eqn:Hc; simpl.
    + apply Qle_bool_iff in Hc. tauto.
    + rewrite Hf. split; [discriminate|].
      intros [H|H]; [discriminate|]. apply Qle_bool_iff in H. congruence.
Qed.

Lemma feedbacks_keep (s : Trajectory) (ts : list Q) :
  l_goal (feedbacks s ts) = l_goal s /\ r_goal (feedbacks s ts) = r_goal s
  /\ l_grip (feedbacks s ts) = l_grip s /\ r_grip (feedbacks s ts) = r_grip s
  /\ slow_move_offset (feedbacks s ts) = slow_move_offset s
  /\ trajectory_start_offset (feedbacks s ts) = trajectory_start_offset s.
Proof.
  unfold feedbacks. revert s. induction ts as [|t ts IH]; intros s; simpl; [auto 10|].
  destruct (IH (_feedback s t)) as (H1 & H2 & H3 & H4 & H5 & H6).
  rewrite H1, H2, H3, H4, H5, H6. unfold _feedback.
  destruct (negb (_get_trajectory_flag s)
            && Qle_bool (trajectory_start_offset s) t)%bool; auto 10.
Qed.

(** X7: starting with the flag down, the flag is up after a sequence of
    feedback invocations exactly when one of the reported times reached
    [trajectory_start_offset]; if none did, the latched offset is still
    what it was.  Feedback never changes the trajectories, the slow-move
    offset or the threshold itself. *)
Theorem feedbacks_flag_iff (s : Trajectory) (ts : list Q) :
  arm_trajectory_started s = false ->
  (arm_trajectory_started (feedbacks s ts) = true
   <-> exists t, In t ts /\ trajectory_start_offset s <= t)
  /\ (arm_trajectory_started (feedbacks s ts) = false ->
      trajectory_actual_offset (feedbacks s ts) = trajectory_actual_offset s)
  /\ l_goal (feedbacks s ts) = l_goal s /\ r_goal (feedbacks s ts) = r_goal s
  /\ l_grip (feedbacks s ts) = l_grip s /\ r_grip (feedbacks s ts) = r_grip s
  /\ slow_move_offset (feedbacks s ts) = slow_move_offset s
  /\ trajectory_start_offset (feedbacks s ts) = trajectory_start_offset s.
Proof.
  intros Hf. split; [|split; [|apply feedbacks_keep]].
  - unfold feedbacks. revert s Hf. induction ts as [|t ts IH]; intros s Hf; simpl.
    + rewrite Hf. split; [discriminate | intros (t & [] & _)].
    + destruct (Qle_bool (trajectory_start_offset s) t) eqn:Hc.
      * rewrite feedback_crossing by (try apply Qle_bool_iff; assumption).
        fold (feedbacks (set_actual_offset (_set_trajectory_flag s true) t) ts).
        rewrite feedbacks_started by reflexivity. simpl.
        split; [intros _ | reflexivity].
        exists t. split; [left; reflexivity | apply Qle_bool_iff, Hc].
      * assert (Hs : _feedback s t = s).
        { unfold _feedback. rewrite Hc, andb_false_r. reflexivity. }
        rewrite Hs, (IH s Hf). split; intros (u & Hu & Hle).
        -- exists u. split; [right; exact Hu | exact Hle].
        -- destruct Hu as [<-|Hu]; [|eauto].
           apply Qle_bool_iff in Hle. congruence.
  - unfold feedbacks. revert s Hf. induction ts as [|t ts IH]; intros s Hf; simpl;
      [reflexivity|].
    destruct (Qle_bool (trajectory_start_offset s) t) eqn:Hc.
    + rewrite feedback_crossing by (try apply Qle_bool_iff; assumption).
      fold (feedbacks (set_actual_offset (_set_trajectory_flag s true) t) ts).
      rewrite feedbacks_started by reflexivity. simpl. discriminate.
    + assert (Hs : _feedback s t = s).
      { unfold _feedback. rewrite Hc, andb_false_r. reflexivity. }
      rewrite Hs. apply IH, Hf.
Qed.

Lemma feedbacks_flag_iff_witness :
  let s := set_offsets new_trajectory 1 1 in
  arm_trajectory_started s = false
  /\ arm_trajectory_started (feedbacks s [0; 1 # 2]) = false
  /\ trajectory_actual_offset (feedbacks s [0; 1 # 2]) = 0
  /\ arm_trajectory_started (feedbacks s [0; 2]) = true.
Proof.
  intros s.
  assert (Hf : arm_trajectory_started s = false) by reflexivity.
  split; [exact Hf|].
  destruct (feedbacks_flag_iff s [0; 1 # 2] Hf) as (_ & Hkeep & _).
  destruct (feedbacks_flag_iff s [0; 2] Hf) as (Hup & _).
  split; [reflexivity|]. split; [apply Hkeep; reflexivity|].
  apply Hup. exists 2. split; [right; left; reflexivity | vm_compute; discriminate].
Defined.

(** ** Two feedback invocations that interleave *)

Lemma latch_inv_sym thr ta tb s a b :
  latch_inv thr ta tb s a b -> latch_inv thr tb ta s b a.
Proof. unfold latch_inv. intuition auto. Qed.

Lemma latch_inv_step thr ta tb s a b :
  latch_inv thr ta tb s a b ->
  latch_inv thr ta tb (fst (cb_step s a)) (snd (cb_step s a)) b.
Proof.
  unfold latch_inv. intros (H1 & H2 & H3 & H4 & H5 & H6 & H7 & H8 & H9).
  unfold cb_step, _get_trajectory_flag. destruct a as [p t]. simpl in *. subst t.
  destruct p; simpl.
  - (* the test *)
    destruct (arm_trajectory_started s) eqn:Hf; simpl.
    + intuition (auto; discriminate).
    + destruct (Qle_bool (trajectory_start_offset s) ta) eqn:Hc; simpl.
      * apply Qle_bool_iff in Hc. rewrite H1 in Hc. rewrite Hf.
        intuition (auto; discriminate).
      * assert (Hn : ~ thr <= ta).
        { intros Hle. rewrite <- H1 in Hle. apply Qle_bool_iff in Hle. congruence. }
        rewrite Hf. intuition (auto; discriminate).
  - (* setting the flag *)
    intuition (auto; discriminate).
  - (* storing the time *)
    intuition (auto; discriminate).
  - (* returned *)
    intuition auto.
Qed.

Lemma latch_inv_interleave thr ta tb sched s a b :
  latch_inv thr ta tb s a b ->
  let '(s', a', b') := interleave sched s a b in latch_inv thr ta tb s' a' b'.
Proof.
  revert s a b. induction sched as [|[|] sched IH]; intros s a b Hinv; simpl.
  - exact Hinv.
  - pose proof (latch_inv_step _ _ _ _ _ _ Hinv) as Hstep.
    destruct (cb_step s a) as [s1 a1]. apply IH, Hstep.
  - pose proof (latch_inv_step _ _ _ _ _ _ (latch_inv_sym _ _ _ _ _ _ Hinv)) as Hstep.
    destruct (cb_step s b) as [s1 b1]. apply IH, latch_inv_sym, Hstep.
Qed.

(** X8: two feedback invocations may take their three steps (test, set
    the flag, store the time) in any order.  Whatever the order, once
    both have returned the flag is up exactly when one of the two
    reported times reached the threshold, and the latched offset is
    then one of the two reported times and not below the threshold. *)
Theorem interleave_latch_safe (sched : list bool) (s : Trajectory) (ta tb : Q) :
  arm_trajectory_started s = false ->
  let '(s', a', b') := interleave sched s (invoke ta) (invoke tb) in
  cb_pc a' = Returned -> cb_pc b' = Returned ->
  (arm_trajectory_started s' = true
   <-> trajectory_start_offset s <= ta \/ trajectory_start_offset s <= tb)
  /\ (arm_trajectory_started s' = true ->
      trajectory_start_offset s <= trajectory_actual_offset s'
      /\ (trajectory_actual_offset s' = ta \/ trajectory_actual_offset s' = tb)).
Proof.
  intros Hf.
  assert (Hinv : latch_inv (trajectory_start_offset s) ta tb s (invoke ta) (invoke tb)).
  { unfold latch_inv. simpl. rewrite Hf.
    repeat split; auto; try discriminate; intros [E|E]; discriminate E. }
  pose proof (latch_inv_interleave _ _ _ sched _ _ _ Hinv) as H.
  destruct (interleave sched s (invoke ta) (invoke tb)) as [[s' a'] b'].
  destruct H as (H1 & H2 & H3 & H4 & H5 & H6 & H7 & H8 & H9).
  intros Ha Hb. rewrite Ha, Hb in *. split; [split|].
  - exact H6.
  - intros [Hle|Hle].
    + destruct (H8 Hle) as [E|[E|E]]; [discriminate E | discriminate E | exact E].
    + destruct (H9 Hle) as [E|[E|E]]; [discriminate E | discriminate E | exact E].
  - intros Hup. destruct (H7 Hup) as [E|[E|E]];
      [discriminate E | discriminate E | exact E].
Qed.

Lemma interleave_latch_safe_witness :
  let s := set_offsets new_trajectory 1 1 in
  let sched := [true; false; true; true; false; false] in
  arm_trajectory_started s = false
  /\ arm_trajectory_started (fst (fst (interleave sched s (invoke 1) (invoke 2))))
     = true
  /\ trajectory_start_offset s
     <= trajectory_actual_offset
          (fst (fst (interleave sched s (invoke 1) (invoke 2)))).
Proof.
  intros s sched.
  assert (Hf : arm_trajectory_started s = false) by reflexivity.
  split; [exact Hf|].
  pose proof (interleave_latch_safe sched s 1 2 Hf) as H.
  destruct (interleave sched s (invoke 1) (invoke 2)) as [[s' a'] b'] eqn:E.
  assert (Ha : cb_pc a' = Returned).
  { vm_compute in E. injection E as _ <- _. reflexivity. }
  assert (Hb : cb_pc b' = Returned).
  { vm_compute in E. injection E as _ _ <-. reflexivity. }
  destruct (H Ha Hb) as [Hiff Hsafe]. simpl.
  assert (Hup : arm_trajectory_started s' = true).
  { apply Hiff. left. vm_compute. discriminate. }
  split; [exact Hup | apply Hsafe, Hup].
Defined.

(** ** More on the gripper loop *)

Lemma py_getitem_In {A} (l : list A) (i : Z) (x : A) :
  py_getitem l i = Ok x -> In x l.
Proof.
  unfold py_getitem. destruct (_ || _)%bool; [discriminate|].
  destruct (nth_error l _) as [y|] eqn:E; [|discriminate].
  intros [= <-]. eapply nth_error_In, E.
Qed.

Lemma gripper_values_In (g : FollowJointTrajectoryGoal)
      (p : JointTrajectoryPoint) (v : Q) :
  In p (points g) -> py_getitem (positions p) 0 = Ok v -> In v (gripper_values g).
Proof.
  intros Hp Hv. unfold gripper_values. apply in_flat_map. exists p.
  split; [exact Hp|]. destruct (positions p) as [|w ws]; [discriminate Hv|].
  rewrite py_getitem_0 in Hv. injection Hv as <-. left. reflexivity.
Qed.

Lemma gripper_command_events (a : arm) (g : Gripper)
      (cmd : list JointTrajectoryPoint) (idx : Z) (evs : list event) :
  gripper_command a g cmd idx = Ok evs ->
  (g_type g = "custom" /\ evs = [])
  \/ (g_type g <> "custom"
      /\ exists p v, In p cmd /\ py_getitem (positions p) 0 = Ok v
                     /\ evs = [ECommandPosition a v]).
Proof.
  unfold gripper_command. destruct (String.eqb_spec (g_type g) "custom") as [E|E]; simpl.
  - intros [= <-]. auto.
  - intros H. apply bind_Ok in H as (p & Hp & H). apply bind_Ok in H as (v & Hv & H).
    injection H as <-. right. split; [exact E|].
    exists p, v. split; [eapply py_getitem_In, Hp | auto].
Qed.

(** X9: what the gripper loop can issue.  Every event of a run is a
    position command or the rate sleep; a gripper of type "custom" is
    never commanded; and every commanded value is the first position of
    a point of that gripper's own trajectory. *)
Theorem execute_gripper_commands_events (s : Trajectory) (lg rg : Gripper)
        (t0 : Q) (ticks : list (Q * bool)) (evs : list event) :
  _execute_gripper_commands s lg rg t0 ticks = Ok evs ->
  (forall e, In e evs ->
             e = ERateSleep gripper_rate
             \/ (exists v, e = ECommandPosition LeftArm v
                           /\ g_type lg <> "custom"
                           /\ In v (gripper_values (l_grip s)))
             \/ (exists v, e = ECommandPosition RightArm v
                           /\ g_type rg <> "custom"
                           /\ In v (gripper_values (r_grip s))))
  /\ (length (List.filter is_command evs) <= 2 * length ticks)%nat.
Proof.
  unfold _execute_gripper_commands. intros H.
  apply bind_Ok in H as (end_time & _ & H).
  set (pnt_times := List.map time_from_start (points (r_grip s))) in *.
  set (start_time := t0 - trajectory_actual_offset s) in *.
  clearbody pnt_times start_time.
  revert evs H. induction ticks as [|[now shutdown] ticks IH]; intros evs H;
    cbn [gripper_loop] in H.
  - injection H as <-. split; [intros e []|simpl; lia].
  - destruct (Qltb _ _ && negb shutdown)%bool.
    + apply bind_Ok in H as (er & Her & H). apply bind_Ok in H as (el & Hel & H).
      apply bind_Ok in H as (more & Hmore & H). injection H as <-.
      destruct (IH more Hmore) as [IHev IHlen].
      apply gripper_command_events in Her, Hel.
      split.
      * intros e He. apply in_app_or in He as [He|He].
        { destruct Her as [[_ ->] | (Hty & p & v & Hp & Hv & ->)]; [destruct He|].
          destruct He as [<-|[]]. right. right. exists v.
          split; [reflexivity|]. split; [exact Hty|].
          eapply gripper_values_In; eassumption. }
        apply in_app_or in He as [He|He].
        { destruct Hel as [[_ ->] | (Hty & p & v & Hp & Hv & ->)]; [destruct He|].
          destruct He as [<-|[]]. right. left. exists v.
          split; [reflexivity|]. split; [exact Hty|].
          eapply gripper_values_In; eassumption. }
        destruct He as [<-|He]; [left; reflexivity | apply IHev, He].
      * destruct Her as [[_ ->] | (_ & _ & ? & _ & _ & ->)],
                 Hel as [[_ ->] | (_ & _ & ? & _ & _ & ->)];
          simpl in *; lia.
    + injection H as <-. split; [intros e []|simpl; lia].
Qed.

Lemma demo_gripper_run :
  exists evs,
    _execute_gripper_commands demo_session custom_gripper plain_gripper 0
                              [(3, false); (4, false); (6, false)] = Ok evs
    /\ List.filter is_command evs
       = [ECommandPosition RightArm 50; ECommandPosition RightArm 50].
Proof. vm_compute. eexists. split; reflexivity. Qed.

Lemma execute_gripper_commands_events_witness :
  exists evs,
    _execute_gripper_commands demo_session custom_gripper plain_gripper 0
                              [(3, false); (4, false); (6, false)] = Ok evs
    /\ (length (List.filter is_command evs) <= 6)%nat
    /\ forall v, ~ In (ECommandPosition LeftArm v) evs.
Proof.
  destruct demo_gripper_run as (evs & Hrun & _).
  exists evs. split; [exact Hrun|].
  destruct (execute_gripper_commands_events demo_session custom_gripper
              plain_gripper 0 _ evs Hrun) as [Hev Hlen].
  split; [exact Hlen|].
  intros v Hin. destruct (Hev _ Hin) as [E | [(w & _ & Hty & _) | (w & E & _)]].
  - discriminate E.
  - apply Hty. reflexivity.
  - discriminate E.
Defined.



Lemma py_getitem_nonneg {A} (l : list A) (i : Z) :
  (0 <= i < Z.of_nat (length l))%Z ->
  exists x, nth_error l (Z.to_nat i) = Some x /\ py_getitem l i = Ok x.
Proof.
  intros Hi. unfold py_getitem.
  destruct (Z.ltb_spec i 0); [lia|].
  destruct (Z.ltb_spec i 0); [lia|]. destruct (Z.leb_spec (Z.of_nat (length l)) i); [lia|].
  simpl. destruct (nth_error l (Z.to_nat i)) as [x|] eqn:E; [eauto|].
  apply nth_error_None in E. lia.
Qed.

Lemma nth_times (cmd : list JointTrajectoryPoint) (i : nat) (p : JointTrajectoryPoint) :
  nth_error cmd i = Some p ->
  nth i (List.map time_from_start cmd) 0 = time_from_start p.
Proof.
  intros H. apply (nth_error_nth _ _ 0).
  rewrite nth_error_map, H. reflexivity.
Qed.

(** X11: one round of the gripper loop holds the latest sample.  With
    sorted sample times, an elapsed time at or after the first sample
    and before the loop's end, and two grippers that are not custom,
    the round commands both grippers, right before left, with the first
    position of the point at the greatest index whose time is at or
    before the elapsed time, the same index on both sides, and then
    sleeps for the rate. *)
Theorem gripper_loop_holds_sample (lg rg : Gripper)
        (l_cmd r_cmd : list JointTrajectoryPoint)
        (start_time end_time now : Q) (rest : list (Q * bool)) :
  let pnt_times := List.map time_from_start r_cmd in
  let elapsed := now - start_time in
  StronglySorted Qle pnt_times ->
  r_cmd <> [] -> length l_cmd = length r_cmd ->
  (forall p, In p l_cmd -> positions p <> []) ->
  (forall p, In p r_cmd -> positions p <> []) ->
  g_type lg <> "custom" -> g_type rg <> "custom" ->
  nth 0 pnt_times 0 <= elapsed ->
  elapsed < end_time + 1 / gripper_rate ->
  exists i pr pl vr vl,
    nth_error r_cmd i = Some pr /\ nth_error l_cmd i = Some pl
    /\ time_from_start pr <= elapsed
    /\ (forall j p, (i < j)%nat -> nth_error r_cmd j = Some p ->
                    elapsed < time_from_start p)
    /\ List.hd_error (positions pr) = Some vr
    /\ List.hd_error (positions pl) = Some vl
    /\ gripper_loop lg rg l_cmd r_cmd pnt_times start_time end_time
                    ((now, false) :: rest)
       = (more ← gripper_loop lg rg l_cmd r_cmd pnt_times start_time end_time rest;
          Ok (ECommandPosition RightArm vr :: ECommandPosition LeftArm vl
                :: ERateSleep gripper_rate :: more)).
Proof.
  intros pnt_times elapsed Hs Hne Hlen Hpl Hpr Hlg Hrg Hfirst Hend.
  assert (Hne' : pnt_times <> []).
  { subst pnt_times. destruct r_cmd; [congruence | discriminate]. }
  destruct (gripper_index_floor pnt_times elapsed Hs Hne' Hfirst) as (Hi & Hle & Hgt).
  assert (Hlt : length pnt_times = length r_cmd) by (subst pnt_times; apply length_map).
  set (idx := gripper_index pnt_times elapsed) in *.
  destruct (py_getitem_nonneg r_cmd idx) as (pr & Hnr & Hgr); [lia|].
  destruct (py_getitem_nonneg l_cmd idx) as (pl & Hnl & Hgl); [lia|].
  assert (Hvr : exists vr, positions pr = vr :: List.tl (positions pr)).
  { specialize (Hpr pr (nth_error_In _ _ Hnr)).
    destruct (positions pr); [congruence | eauto]. }
  assert (Hvl : exists vl, positions pl = vl :: List.tl (positions pl)).
  { specialize (Hpl pl (nth_error_In _ _ Hnl)).
    destruct (positions pl); [congruence | eauto]. }
  destruct Hvr as (vr & Hvr), Hvl as (vl & Hvl).
  exists (Z.to_nat idx), pr, pl, vr, vl.
  split; [exact Hnr|]. split; [exact Hnl|].
  split; [rewrite <- (nth_times r_cmd _ pr Hnr); exact Hle|].
  split.
  { intros j p Hj Hp. rewrite <- (nth_times r_cmd _ p Hp). apply Hgt.
    split; [exact Hj|]. rewrite Hlt. apply nth_error_Some. congruence. }
  split; [rewrite Hvr; reflexivity|]. split; [rewrite Hvl; reflexivity|].
  cbn [gripper_loop]. fold elapsed. apply Qltb_lt in Hend. rewrite Hend. simpl.
  fold idx. unfold gripper_command.
  destruct (String.eqb_spec (g_type rg) "custom") as [E|_]; [contradiction|].
  destruct (String.eqb_spec (g_type lg) "custom") as [E|_]; [contradiction|].
  simpl. rewrite Hgr, Hgl. simpl. rewrite Hvr, Hvl, !py_getitem_0. simpl.
  destruct (gripper_loop lg rg l_cmd r_cmd pnt_times start_time end_time rest);
    reflexivity.
Qed.

Lemma gripper_loop_holds_sample_witness :
  exists i pr pl,
    nth_error (points (r_grip demo_session)) i = Some pr
    /\ nth_error (points (l_grip demo_session)) i = Some pl
    /\ time_from_start pr <= 4 - 0
    /\ List.hd_error (positions pr) = Some 50
    /\ List.hd_error (positions pl) = Some 50.
Proof.
  destruct (gripper_loop_holds_sample plain_gripper plain_gripper
              (points (l_grip demo_session)) (points (r_grip demo_session))
              0 5 4 [])
    as (i & pr & pl & vr & vl & Hr & Hl & Hle & Hgt & Hvr & Hvl & _).
  - vm_compute. repeat constructor; discriminate.
  - vm_compute. discriminate.
  - reflexivity.
  - intros p Hp. vm_compute in Hp. destruct Hp as [<-|[<-|[]]]; discriminate.
  - intros p Hp. vm_compute in Hp. destruct Hp as [<-|[<-|[]]]; discriminate.
  - vm_compute. discriminate.
  - vm_compute. discriminate.
  - vm_compute. discriminate.
  - vm_compute. reflexivity.
  - exists i, pr, pl. split; [exact Hr|]. split; [exact Hl|]. split; [exact Hle|].
    destruct i as [|[|i]].
    + vm_compute in Hr, Hl. injection Hr as <-. injection Hl as <-.
      split; reflexivity.
    + exfalso. vm_compute in Hr. injection Hr as <-. vm_compute in Hle.
      apply Hle. reflexivity.
    + exfalso. simpl in Hr. destruct i; discriminate Hr.
Defined.

(** ** [start] *)

Lemma gripper_command_no_goal (a : arm) (g : Gripper)
      (cmd : list JointTrajectoryPoint) (idx : Z) (evs : list event) :
  gripper_command a g cmd idx = Ok evs ->
  forall e, In e evs -> is_send_goal e = false.
Proof.
  intros H e He. apply gripper_command_events in H
    as [[_ ->] | (_ & p & v & _ & _ & ->)]; [destruct He|].
  destruct He as [<-|[]]. reflexivity.
Qed.

(** The gripper loop sends no goal. *)
Lemma gripper_run_no_goal (s : Trajectory) (lg rg : Gripper)
      (t0 : Q) (ticks : list (Q * bool)) (evs : list event) :
  _execute_gripper_commands s lg rg t0 ticks = Ok evs ->
  forall e, In e evs -> is_send_goal e = false.
Proof.
  unfold _execute_gripper_commands. intros H.
  apply bind_Ok in H as (end_time & _ & H). revert evs H.
  induction ticks as [|[now shutdown] ticks IH]; intros evs H; cbn [gripper_loop] in H.
  - injection H as <-. intros e [].
  - destruct (Qltb _ _ && negb shutdown)%bool; [|injection H as <-; intros e []].
    apply bind_Ok in H as (er & Her & H). apply bind_Ok in H as (el & Hel & H).
    apply bind_Ok in H as (more & Hmore & H). injection H as <-.
    intros e He. apply in_app_or in He as [He|He];
      [exact (gripper_command_no_goal _ _ _ _ _ Her e He)|].
    apply in_app_or in He as [He|He];
      [exact (gripper_command_no_goal _ _ _ _ _ Hel e He)|].
    destruct He as [<-|He]; [reflexivity | exact (IH more Hmore e He)].
Qed.

(** A step of an invocation touches only the flag and the latched
    offset. *)
Lemma same_plan_refl (s : Trajectory) : same_plan s s.
Proof. unfold same_plan. auto 10. Qed.

Lemma same_plan_trans (s1 s2 s3 : Trajectory) :
  same_plan s1 s2 -> same_plan s2 s3 -> same_plan s1 s3.
Proof.
  unfold same_plan. intros (A1 & A2 & A3 & A4 & A5 & A6) (B1 & B2 & B3 & B4 & B5 & B6).
  rewrite B1, B2, B3, B4, B5, B6. auto 10.
Qed.

Lemma cb_step_plan (s : Trajectory) (c : callback) :
  same_plan s (fst (cb_step s c)).
Proof.
  unfold cb_step. destruct (cb_pc c); simpl.
  - destruct (negb (_get_trajectory_flag s)
              && Qle_bool (trajectory_start_offset s) (cb_time c))%bool;
      apply same_plan_refl.
  - unfold same_plan. simpl. auto 10.
  - unfold same_plan. simpl. auto 10.
  - apply same_plan_refl.
Qed.

Lemma threads_step_plan (st : feedback_threads) (x : thread_step) :
  same_plan (th_session st) (th_session (threads_step st x)).
Proof.
  destruct x as [a t | a]; simpl.
  - destruct (cb_pc (thread_cb st a)), a; apply same_plan_refl.
  - pose proof (cb_step_plan (th_session st) (thread_cb st a)) as H.
    destruct (cb_step (th_session st) (thread_cb st a)) as [s' c'].
    destruct a; exact H.
Qed.

Lemma threads_run_plan (st : feedback_threads) (steps : list thread_step) :
  same_plan (th_session st) (th_session (threads_run st steps)).
Proof.
  unfold threads_run. revert st.
  induction steps as [|x steps IH]; intros st; simpl; [apply same_plan_refl|].
  eapply same_plan_trans; [apply threads_step_plan | apply IH].
Qed.

Lemma threads_run_app (st : feedback_threads) (a b : list thread_step) :
  threads_run (threads_run st a) b = threads_run st (a ++ b).
Proof. unfold threads_run. rewrite fold_left_app. reflexivity. Qed.

(** Scheduled without anything in between, the steps of an invocation
    are [_feedback]. *)
Lemma threads_whole_feedback (st : feedback_threads) (a : arm) (t : Q) :
  cb_pc (thread_cb st a) = Returned ->
  th_session (threads_run st (whole a t)) = _feedback (th_session st) t
  /\ cb_pc (thread_cb (threads_run st (whole a t)) a) = Returned.
Proof.
  intros Hidle. destruct st as [s l r]. unfold whole, threads_run, _feedback.
  destruct a; simpl in Hidle; simpl; rewrite Hidle; simpl; unfold cb_step; simpl;
    destruct (negb (_get_trajectory_flag s)
              && Qle_bool (trajectory_start_offset s) t)%bool;
    simpl; split; reflexivity.
Qed.

(** The polling loop only sleeps; what it hands on is the state the
    threads' steps led to, and it hands on only at shutdown or with the
    flag up. *)
Lemma poll_spec (st : feedback_threads) (rounds : list (list thread_step * bool)) :
  (forall e, In e (fst (poll st rounds)) -> e = ESleep 0.05)
  /\ forall st', snd (poll st rounds) = Some st' ->
       exists seen shutdown,
         st' = threads_run st seen
         /\ (shutdown = true \/ arm_trajectory_started (th_session st') = true)
         /\ (forall x, In x seen -> exists steps sh, In (steps, sh) rounds /\ In x steps).
Proof.
  revert st. induction rounds as [|[steps sh] rounds IH]; intros st; cbn [poll].
  - split; [intros e [] | discriminate].
  - destruct (negb sh && negb (_get_trajectory_flag
                                 (th_session (threads_run st steps))))%bool eqn:Hc.
    + destruct (IH (threads_run st steps)) as [IHev IHres].
      destruct (poll (threads_run st steps) rounds) as [tr r]. simpl in *. split.
      * intros e [<-|He]; [reflexivity | apply IHev, He].
      * intros st' Hst'.
        destruct (IHres st' Hst') as (seen & shutdown & -> & Hwhy & Hseen).
        exists (steps ++ seen)%list, shutdown. rewrite threads_run_app in *.
        split; [reflexivity|]. split; [exact Hwhy|].
        intros x Hx. apply in_app_or in Hx as [Hx|Hx].
        -- exists steps, sh. split; [left; reflexivity | exact Hx].
        -- destruct (Hseen x Hx) as (steps' & sh' & Hin & Hin').
           exists steps', sh'. split; [right; exact Hin | exact Hin'].
    + simpl. split; [intros e []|]. intros st' [= <-].
      exists steps, sh. split; [reflexivity|]. split.
      * unfold _get_trajectory_flag in Hc.
        destruct sh; [left; reflexivity|]. right.
        destruct (arm_trajectory_started (th_session (threads_run st steps)));
          [reflexivity|].
        discriminate Hc.
      * intros x Hx. exists steps, sh. split; [left; reflexivity | exact Hx].
Qed.

Lemma poll_plan (s : Trajectory) (rounds : list (list thread_step * bool))
      (late : list thread_step) (st : feedback_threads) :
  snd (poll (threads_of s) rounds) = Some st ->
  same_plan s (th_session (threads_run st late)).
Proof.
  intros H. destruct (poll_spec (threads_of s) rounds) as [_ Hres].
  destruct (Hres st H) as (seen & sh & -> & _ & _).
  rewrite threads_run_app. apply (threads_run_plan (threads_of s)).
Qed.

(** X12: [start] sends the left arm's goal and then the right arm's
    goal before anything else and sends no other goal; while it polls
    for the flag it only sleeps 0.05 at a time; and the session it ends
    with has the trajectories and offsets it began with, feedback
    having touched only the flag and the latched offset. *)
Theorem start_dispatches_first (s : Trajectory) (lg rg : Gripper)
        (rounds : list (list thread_step * bool)) (late : list thread_step)
        (t0 : Q) (ticks : list (Q * bool)) :
  exists rest,
    fst (start s lg rg rounds late t0 ticks)
    = ESendGoal LeftArm (l_goal s) :: ESendGoal RightArm (r_goal s) :: rest
    /\ (forall e, In e rest -> is_send_goal e = false)
    /\ (snd (start s lg rg rounds late t0 ticks) = None ->
        forall e, In e rest -> e = ESleep 0.05)
    /\ (forall s', snd (start s lg rg rounds late t0 ticks) = Some (Ok s') ->
          l_goal s' = l_goal s /\ r_goal s' = r_goal s
          /\ l_grip s' = l_grip s /\ r_grip s' = r_grip s
          /\ slow_move_offset s' = slow_move_offset s
          /\ trajectory_start_offset s' = trajectory_start_offset s).
Proof.
  unfold start. destruct (poll_spec (threads_of s) rounds) as [Hsleep _].
  pose proof (poll_plan s rounds late) as Hplan.
  destruct (poll (threads_of s) rounds) as [sleeps [st|]]; simpl in *.
  - specialize (Hplan st eq_refl).
    destruct (_execute_gripper_commands (th_session (threads_run st late))
                                        lg rg t0 ticks)
      as [cmds|e] eqn:Hrun; simpl.
    + exists (sleeps ++ cmds)%list. split; [reflexivity|]. split; [|split].
      * intros e He. apply in_app_or in He as [He|He].
        -- rewrite (Hsleep e He). reflexivity.
        -- exact (gripper_run_no_goal _ _ _ _ _ _ Hrun e He).
      * discriminate.
      * intros s' [= <-]. exact Hplan.
    + exists sleeps. split; [reflexivity|]. split; [|split].
      * intros ev He. rewrite (Hsleep ev He). reflexivity.
      * discriminate.
      * discriminate.
  - exists sleeps. split; [reflexivity|]. split; [|split].
    + intros e He. rewrite (Hsleep e He). reflexivity.
    + intros _. exact Hsleep.
    + discriminate.
Qed.

(** A loop test that falls between the second and the third step of
    the invocation that passes the test: the loop ends, with the flag up
    and the time not yet stored. *)
Lemma racing_round_poll (s : Trajectory) (t : Q) :
  arm_trajectory_started s = false ->
  trajectory_start_offset s <= t ->
  exists st,
    poll (threads_of s) [racing_round t] = ([], Some st)
    /\ th_session st = _set_trajectory_flag s true
    /\ cb_pc (th_left st) = AtSetOffset
    /\ cb_time (th_left st) = t.
Proof.
  intros Hf Ht. apply Qle_bool_iff in Ht.
  unfold racing_round, threads_of, poll, threads_run. cbn [fold_left].
  unfold threads_step, cb_step, _get_trajectory_flag.
  cbn [thread_cb th_left th_right th_session idle cb_pc cb_time with_thread invoke at_pc].
  rewrite Hf, Ht.
  cbn [negb andb thread_cb th_left th_right th_session cb_pc cb_time with_thread at_pc
       arm_trajectory_started _set_trajectory_flag].
  eexists. split; [reflexivity|]. cbn. auto.
Qed.

(** C2: the lookup is [bisect(pnt_times, t) - 1] with nothing clamping
    it, and [start] does reach it with a time before the first sample.
    On the demo recording (gripper samples 50 at time 3 and 80 at time
    5), when the loop test of [start] sees the flag that an invocation
    of [_feedback] has just raised, while that invocation has not yet
    stored its time, the gripper loop computes its elapsed time from the
    old offset 0: the index is [-1] and the first commands are those of
    the last sample, 80, not of the first.  Had the store come before
    the read, the first commands would have been 50. *)
Theorem start_commands_last_sample_first :
  let lg := plain_gripper in
  let rg := plain_gripper in
  gripper_values (r_grip demo_session) = [50; 80]
  /\ gripper_values (l_grip demo_session) = [50; 80]
  /\ Forall2 Qeq (times (r_grip demo_session)) [3; 5]
  /\ trajectory_start_offset demo_session == 3
  /\ (exists st, poll (threads_of demo_session) [racing_round 3] = ([], Some st)
                 /\ arm_trajectory_started (th_session st) = true
                 /\ trajectory_actual_offset (th_session st) = 0
                 /\ cb_pc (th_left st) = AtSetOffset)
  /\ gripper_index (times (r_grip demo_session)) (100 - (100 - 0)) = (-1)%Z
  /\ fst (start demo_session lg rg [racing_round 3] [] 100 [(100, false)])
     = [ESendGoal LeftArm (l_goal demo_session);
        ESendGoal RightArm (r_goal demo_session);
        ECommandPosition RightArm 80; ECommandPosition LeftArm 80;
        ERateSleep gripper_rate]
  /\ fst (start demo_session lg rg [racing_round 3] [Advance LeftArm] 100
                [(100, false)])
     = [ESendGoal LeftArm (l_goal demo_session);
        ESendGoal RightArm (r_goal demo_session);
        ECommandPosition RightArm 50; ECommandPosition LeftArm 50;
        ERateSleep gripper_rate].
Proof.
  intros lg rg.
  split; [vm_compute; reflexivity|]. split; [vm_compute; reflexivity|].
  split; [vm_compute; repeat constructor|]. split; [vm_compute; reflexivity|].
  split; [|split; [vm_compute; reflexivity|split; vm_compute; reflexivity]].
  eexists. split; [vm_compute; reflexivity|].
  vm_compute. repeat split; reflexivity.
Qed.

Section StartAfterParse.

Variable py_float : string -> option Q.
Variable l_arm r_arm : gmap string Q.
Variable params : gmap string Q.

(** Whatever the recording: when [start] reads the offset before the
    invocation that raised the flag has stored it, and less time than
    [trajectory_start_offset] has passed on the clock since, the index
    the gripper loop computes is [-1]. *)
Lemma start_reads_offset_early header line0 rest s (t t0 now : Q) :
  parse_file py_float l_arm r_arm params (Some (header :: line0 :: rest))
             new_trajectory = Ok s ->
  StronglySorted Qle (times (r_grip s)) ->
  trajectory_start_offset s <= t ->
  now - t0 < trajectory_start_offset s ->
  exists st,
    poll (threads_of s) [racing_round t] = ([], Some st)
    /\ arm_trajectory_started (th_session st) = true
    /\ trajectory_actual_offset (th_session st) = 0
    /\ gripper_index (times (r_grip (th_session st)))
                     (now - (t0 - trajectory_actual_offset (th_session st)))
       = (-1)%Z.
Proof.
  intros Hp Hs Ht Hnow.
  destruct (parse_file_first_sample py_float l_arm r_arm params _ _ _ _ Hp)
    as (Hf & t1 & later & Htimes & Hthr).
  assert (Hact : trajectory_actual_offset s = 0).
  { apply parse_file_shape in Hp as (cl & cr & off & tt & rds & _ & _ & _ & _ & _ & ->).
    reflexivity. }
  destruct (racing_round_poll s t Hf Ht) as (st & Hpoll & Hst & _).
  exists st. split; [exact Hpoll|]. rewrite Hst. cbn [arm_trajectory_started _set_trajectory_flag trajectory_actual_offset r_grip].
  split; [reflexivity|]. split; [exact Hact|].
  apply gripper_index_before_first; [exact Hs | rewrite Htimes; discriminate |].
  rewrite Htimes. cbn [nth]. rewrite Hthr, Hact.
  setoid_replace (now - (t0 - 0)) with (now - t0) using relation Qeq by ring.
  exact Hnow.
Qed.
(** X14: a recording that is only a header line parses, into a session
    whose four trajectories have no point.  On that session [wait]
    raises [IndexError] before it turns to either client, the gripper
    loop raises [IndexError] before it commands anything, and so does
    [start] once its polling ends, after having sent both empty goals. *)
Theorem header_only_recording header left right lg rg rounds late t0 ticks :
  exists s,
    parse_file py_float l_arm r_arm params (Some [header]) new_trajectory = Ok s
    /\ points (l_goal s) = [] /\ points (r_goal s) = []
    /\ points (l_grip s) = [] /\ points (r_grip s) = []
    /\ wait params s left right = ([], Err IndexError)
    /\ _execute_gripper_commands s lg rg t0 ticks = Err IndexError
    /\ (snd (start s lg rg rounds late t0 ticks) = None
        \/ snd (start s lg rg rounds late t0 ticks) = Some (Err IndexError))
    /\ (forall e, In e (fst (start s lg rg rounds late t0 ticks)) ->
                  is_command e = false).
Proof.
  eexists. split; [apply parse_file_header_only|].
  set (s := add_names new_trajectory _ _).
  assert (Hrun : forall s', r_grip s' = r_grip s ->
                   forall t1 tk, _execute_gripper_commands s' lg rg t1 tk
                                 = Err IndexError).
  { intros s' E t1 tk. unfold _execute_gripper_commands. rewrite E. reflexivity. }
  do 4 (split; [reflexivity|]). split; [reflexivity|].
  split; [apply Hrun; reflexivity|].
  unfold start. destruct (poll_spec (threads_of s) rounds) as [Hsleep _].
  pose proof (poll_plan s rounds late) as Hplan.
  destruct (poll (threads_of s) rounds) as [sleeps [st|]]; simpl in *.
  - destruct (Hplan st eq_refl) as (_ & _ & _ & Hg & _).
    rewrite Hrun by exact Hg. simpl. split; [right; reflexivity|].
    intros e [<-|[<-|He]]; [reflexivity | reflexivity |].
    rewrite (Hsleep e He). reflexivity.
  - split; [left; reflexivity|].
    intros e [<-|[<-|He]]; [reflexivity | reflexivity |].
    rewrite (Hsleep e He). reflexivity.
Qed.

End StartAfterParse.

(** ** More on [wait] *)

(** X15: when the right arm's trajectory has a last point and both
    clients hold a result, [wait] waits for the left and then the right
    client with one and the same timeout, the slow-move offset plus the
    last right-arm time plus 1.5 plus the [goal_time] parameter (0 when
    unset), and answers true exactly when both waits succeeded and both
    error codes are 0; it logs one warning exactly when it answers
    false, and it does not raise. *)
Theorem wait_verdict (params : gmap string Q) (s : Trajectory)
        (left right : ActionClient) (p : JointTrajectoryPoint)
        (pts : list JointTrajectoryPoint) (lc rc : Z) :
  points (r_goal s) = (pts ++ [p])%list ->
  get_result left = Some lc -> get_result right = Some rc ->
  exists (timeout : Q) (ok : bool),
    timeout == slow_move_offset s + time_from_start p + 1.5
               + get_param params (param_ns ++ "goal_time") 0
    /\ wait params s left right
       = (([EWaitForResult LeftArm timeout; EWaitForResult RightArm timeout]
             ++ (if ok then [] else [ELogWarn wait_msg]))%list,
          Ok ok)
    /\ (ok = true <-> wait_for_result left timeout = true
                      /\ wait_for_result right timeout = true
                      /\ lc = 0%Z /\ rc = 0%Z).
Proof.
  intros Hp Hl Hr.
  destruct (wait_timeout_value params s p pts Hp) as (timeout & Ht & Heq).
  exists timeout,
    (wait_for_result left timeout && wait_for_result right timeout
     && (lc =? 0)%Z && (rc =? 0)%Z)%bool.
  split; [exact Heq|].
  split; [apply (wait_with_results params s left right timeout lc rc Ht Hl Hr)|].
  rewrite !andb_true_iff, !Z.eqb_eq. tauto.
Qed.

Lemma wait_verdict_witness :
  exists timeout ok,
    timeout == slow_move_offset demo_session + 5 + 1.5 + 0
    /\ snd (wait demo_params demo_session done_client done_client) = Ok ok
    /\ ok = true.
Proof.
  destruct (wait_verdict demo_params demo_session done_client done_client
              (nth 2 (points (r_goal demo_session))
                   {| positions := []; time_from_start := 0 |})
              (firstn 2 (points (r_goal demo_session))) 0 0)
    as (timeout & ok & Ht & Hw & Hok).
  - vm_compute. reflexivity.
  - reflexivity.
  - reflexivity.
  - exists timeout, ok. split; [rewrite Ht; vm_compute; reflexivity|].
    split; [rewrite Hw; reflexivity|].
    apply Hok. repeat split; reflexivity.
Defined.

Section WaitAfterParse.

Variable py_float : string -> option Q.
Variable l_arm r_arm : gmap string Q.
Variable params : gmap string Q.

(** X16: for a parsed recording the timeout of [wait] counts the start
    offset twice: the last arm point is already stamped with the last
    recorded time plus the slow-move offset, and [wait] adds the
    slow-move offset again. *)
Theorem wait_timeout_parsed header line0 rest s' ts :
  parse_file py_float l_arm r_arm params (Some (header :: line0 :: rest))
             new_trajectory = Ok s' ->
  List.map (row_time py_float) (line0 :: rest) = List.map Some ts ->
  exists timeout,
    wait_timeout params s' = Ok timeout
    /\ timeout == 2 * slow_move_offset s' + List.last ts 0 + 1.5
                  + get_param params (param_ns ++ "goal_time") 0.
Proof.
  intros Hp Hts.
  apply parse_file_shape in Hp
    as (cl & cr & off & t0 & rds & _ & _ & _ & _ & HF & ->).
  rewrite (row_reads_times _ _ _ _ _ _ HF) in Hts. apply map_Some_inj in Hts.
  subst ts.
  assert (Hne : rds <> []) by (inversion HF; discriminate).
  destruct (exists_last Hne) as (rds' & rd & ->).
  destruct (wait_timeout_value params
              (extend_rows
                 (set_offsets
                    (extend (add_names new_trajectory
                               (List.filter is_left (split_comma (rstrip header)))
                               (List.filter is_right (split_comma (rstrip header))))
                            [{| positions := cl; time_from_start := 0 |}]
                            [{| positions := cr; time_from_start := 0 |}] [] [])
                    off (off + t0)) off (rds' ++ [rd]))
              (point_at off rd_right rd)
              ({| positions := cr; time_from_start := 0 |}
                 :: List.map (point_at off rd_right) rds'))
    as (timeout & Ht & Heq).
  { simpl. rewrite List.map_app. reflexivity. }
  exists timeout. split; [exact Ht|].
  rewrite List.map_app. cbn [List.map]. rewrite List.last_last, Heq. simpl. ring.
Qed.

End WaitAfterParse.

Lemma wait_timeout_parsed_witness :
  demo_parse demo_file = Ok demo_session
  /\ exists timeout,
      wait_timeout demo_params demo_session = Ok timeout
      /\ timeout == 2 * slow_move_offset demo_session + 3 + 1.5 + 0.
Proof.
  split; [exact demo_parse_ok|].
  destruct (wait_timeout_parsed float_decimal demo_l_arm demo_r_arm demo_params
              (nth 0 demo_file "") (nth 1 demo_file "")
              (List.tl (List.tl demo_file)) demo_session [1; 3] demo_parse_ok)
    as (timeout & Ht & Heq).
  - vm_compute. reflexivity.
  - exists timeout. split; [exact Ht|]. rewrite Heq. vm_compute. reflexivity.
Defined.

(** ** More on the lines of a recording *)

Lemma rstrip_app_space (s w : string) :
  rstrip w = EmptyString -> rstrip (s ++ w) = rstrip s.
Proof.
  intros Hw. induction s as [|c s IH]; simpl; [exact Hw|].
  rewrite IH. reflexivity.
Qed.

Section Lines.

Variable py_float : string -> option Q.
Variable l_arm r_arm : gmap string Q.
Variable params : gmap string Q.

Lemma clean_line_rstrip line line' names :
  rstrip line = rstrip line' ->
  _clean_line py_float line names = _clean_line py_float line' names.
Proof. intros H. unfold _clean_line. rewrite H. reflexivity. Qed.

Lemma parse_rows_rstrip names rows rows' :
  Forall2 (fun l l' => rstrip l = rstrip l') rows rows' ->
  forall idx start_offset s,
    parse_rows py_float l_arm r_arm params names idx start_offset rows s
    = parse_rows py_float l_arm r_arm params names idx start_offset rows' s.
Proof.
  induction 1 as [|line line' rows rows' Hl _ IH]; intros idx so s; [reflexivity|].
  cbn [parse_rows]. rewrite (clean_line_rstrip line line' names Hl).
  destruct (_clean_line py_float line' names) as [cmd values].
  destruct (if Nat.eqb idx 0 then _ else _) as [[s1 so1]|e]; simpl; [|reflexivity].
  destruct so1 as [off|]; simpl; [|reflexivity].
  destruct (row_points cmd values off s1) as [s2|e]; simpl; [|reflexivity].
  apply IH.
Qed.

(** X17: [parse_file] reads each line up to its trailing whitespace: two
    files whose lines differ only there (line feed, carriage return and
    line feed, trailing blanks, no line end at all) give the same
    result, error or session, on any session. *)
Theorem parse_file_ignores_trailing_space lines lines' s :
  Forall2 (fun l l' => rstrip l = rstrip l') lines lines' ->
  parse_file py_float l_arm r_arm params (Some lines) s
  = parse_file py_float l_arm r_arm params (Some lines') s.
Proof.
  intros HF. destruct HF as [|header header' rows rows' Hh Hrows]; [reflexivity|].
  unfold parse_file. rewrite !py_getitem_0.
  cbn [mbind result_bind rbind List.tl]. rewrite Hh.
  apply parse_rows_rstrip, Hrows.
Qed.

(** X18: a data line that is blank, or holds only whitespace, makes
    [parse_file] fail, wherever it stands among the rows and whatever
    the other rows hold: its command mapping is empty, and the row is
    indexed with the gripper keys. *)
Theorem parse_file_blank_line header rows line :
  In line rows -> rstrip line = EmptyString ->
  row_cmd py_float (split_comma (rstrip header)) line = ∅
  /\ exists e, parse_file py_float l_arm r_arm params (Some (header :: rows))
                          new_trajectory = Err e.
Proof.
  intros Hin Hblank.
  assert (Hcmd : row_cmd py_float (split_comma (rstrip header)) line = ∅).
  { unfold row_cmd, _clean_line. rewrite Hblank. simpl.
    rewrite combine_nil. reflexivity. }
  split; [exact Hcmd|].
  destruct (parse_file py_float l_arm r_arm params (Some (header :: rows))
                       new_trajectory) as [s'|e] eqn:Hp; [exfalso | eauto].
  destruct rows as [|line0 rest]; [destruct Hin|].
  apply parse_file_shape in Hp
    as (cl & cr & off & t0 & rds & _ & _ & _ & _ & HF & _).
  destruct (Forall2_In_left _ _ _ line HF Hin) as (rd & _ & _ & _ & Hgl & _).
  rewrite Hcmd in Hgl. discriminate Hgl.
Qed.

End Lines.

Lemma parse_file_ignores_trailing_space_witness :
  Forall2 (fun l l' => rstrip l = rstrip l') demo_file_crlf demo_file
  /\ parse_file float_decimal demo_l_arm demo_r_arm demo_params
                (Some demo_file_crlf) new_trajectory
     = Ok demo_session.
Proof.
  assert (HF : Forall2 (fun l l' => rstrip l = rstrip l') demo_file_crlf demo_file).
  { repeat constructor; vm_compute; reflexivity. }
  split; [exact HF|].
  rewrite (parse_file_ignores_trailing_space float_decimal demo_l_arm demo_r_arm
             demo_params demo_file_crlf demo_file new_trajectory HF).
  exact demo_parse_ok.
Defined.

Lemma parse_file_blank_line_witness :
  exists e,
    parse_file float_decimal demo_l_arm demo_r_arm demo_params
               (Some (nth 0 demo_file "" :: List.tl demo_file_blank_line))
               new_trajectory = Err e.
Proof.
  apply (parse_file_blank_line float_decimal demo_l_arm demo_r_arm demo_params
           (nth 0 demo_file "") (List.tl demo_file_blank_line) nl).
  - vm_compute. right. right. left. reflexivity.
  - vm_compute. reflexivity.
Defined.

(** ** Columns that share a name *)

Lemma nth_error_combine {A B} (xs : list A) (ys : list B) (i : nat) (x : A) (y : B) :
  nth_error (combine xs ys) i = Some (x, y)
  <-> nth_error xs i = Some x /\ nth_error ys i = Some y.
Proof.
  revert ys i. induction xs as [|x' xs IH]; intros ys i; simpl.
  - destruct i; simpl; split; [discriminate | intros [H _]; discriminate H
                               | discriminate | intros [H _]; discriminate H].
  - destruct ys as [|y' ys]; simpl.
    + destruct i; simpl; split; try discriminate; intros [_ H]; discriminate H.
    + destruct i as [|i]; simpl; [|apply IH].
      split; [intros [= -> ->]; auto | intros [[= ->] [= ->]]; reflexivity].
Qed.

(** The value a dict built from cleaned pairs holds for a key is that
    of the last pair with this key and a number. *)
Lemma dict_fold_last (comb : list (string * option Q)) (m : gmap string Q)
      (k : string) (v : Q) :
  fold_left (fun m kv => <[fst kv := snd kv]> m) (drop_none comb) m !! k = Some v
  <-> (exists i, nth_error comb i = Some (k, Some v)
                 /\ forall j w, (i < j)%nat -> nth_error comb j <> Some (k, Some w))
      \/ (m !! k = Some v
          /\ forall j w, nth_error comb j <> Some (k, Some w)).
Proof.
  revert m. induction comb as [|[k' o] comb IH]; intros m.
  - simpl. split.
    + intros H. right. split; [exact H|]. intros [|j] w; discriminate.
    + intros [(i & H & _) | [H _]]; [destruct i; discriminate H | exact H].
  - destruct o as [v0|]; cbn [drop_none fold_left fst snd]; rewrite IH; clear IH.
    + split.
      * intros [(i & Hi & Hlast) | [Hm Hnone]].
        -- left. exists (S i). split; [exact Hi|].
           intros [|j] w Hj; [lia|]. apply Hlast. lia.
        -- destruct (decide (k' = k)) as [->|Hne].
           ++ rewrite lookup_insert_eq in Hm. injection Hm as ->.
              left. exists 0%nat. split; [reflexivity|].
              intros [|j] w Hj; [lia | apply Hnone].
           ++ rewrite lookup_insert_ne in Hm by exact Hne.
              right. split; [exact Hm|].
              intros [|j] w; [simpl; congruence | apply Hnone].
      * intros [(i & Hi & Hlast) | [Hm Hnone]].
        -- destruct i as [|i].
           ++ simpl in Hi. injection Hi as -> ->. right.
              rewrite lookup_insert_eq. split; [reflexivity|].
              intros j w. apply (Hlast (S j)). lia.
           ++ left. exists i. split; [exact Hi|].
              intros j w Hj. apply (Hlast (S j)). lia.
        -- destruct (decide (k' = k)) as [->|Hne].
           ++ exfalso. apply (Hnone 0%nat v0). reflexivity.
           ++ right. rewrite lookup_insert_ne by exact Hne.
              split; [exact Hm|]. intros j w. apply (Hnone (S j)).
    + split.
      * intros [(i & Hi & Hlast) | [Hm Hnone]].
        -- left. exists (S i). split; [exact Hi|].
           intros [|j] w Hj; [lia|]. apply Hlast. lia.
        -- right. split; [exact Hm|].
           intros [|j] w; [simpl; congruence | apply Hnone].
      * intros [(i & Hi & Hlast) | [Hm Hnone]].
        -- destruct i as [|i]; [discriminate Hi|].
           left. exists i. split; [exact Hi|].
           intros j w Hj. apply (Hlast (S j)). lia.
        -- right. split; [exact Hm|]. intros j w. apply (Hnone (S j)).
Qed.

Section SharedNames.

Variable py_float : string -> option Q.

(** X19: the value [_clean_line] maps a joint name to is that of the
    last column headed by this name whose cell reads as a number;
    columns of that name further right hold nothing that reads as a
    number. *)
Theorem clean_line_last_column_wins names line k v :
  let cells := split_comma (rstrip line) in
  fst (_clean_line py_float line names) !! k = Some v
  <-> exists i c,
        nth_error names (S i) = Some k /\ nth_error cells (S i) = Some c
        /\ py_float c = Some v
        /\ forall j c', (i < j)%nat -> nth_error names (S j) = Some k ->
                        nth_error cells (S j) = Some c' -> py_float c' = None.
Proof.
  intros cells. unfold _clean_line, dict. cbn [fst].
  rewrite dict_fold_last, lookup_empty. fold cells.
  assert (Hcol : forall i w,
             nth_error (combine (List.tl names) (List.tl (List.map py_float cells))) i
             = Some (k, Some w)
             <-> exists c, nth_error names (S i) = Some k
                           /\ nth_error cells (S i) = Some c /\ py_float c = Some w).
  { intros i w. rewrite nth_error_combine, !nth_error_tl, nth_error_map.
    destruct (nth_error cells (S i)) as [c|]; simpl.
    - split.
      + intros [Hk [= Hc]]. eauto.
      + intros (c' & Hk & [= <-] & Hc). rewrite Hc. auto.
    - split; [intros [_ H]; discriminate H | intros (c' & _ & H & _); discriminate H]. }
  split.
  - intros [(i & Hi & Hlast) | [H _]]; [|discriminate H].
    apply Hcol in Hi as (c & Hk & Hc & Hv). exists i, c.
    repeat (split; [assumption|]).
    intros j c' Hj Hk' Hc'. destruct (py_float c') as [w|] eqn:Hw; [|reflexivity].
    exfalso. apply (Hlast j w Hj). apply Hcol. eauto.
  - intros (i & c & Hk & Hc & Hv & Hlast). left. exists i.
    split; [apply Hcol; eauto|].
    intros j w Hj Hjw. apply Hcol in Hjw as (c' & Hk' & Hc' & Hw).
    rewrite (Hlast j c' Hj Hk' Hc') in Hw. discriminate Hw.
Qed.

End SharedNames.

Example clean_line_last_column_wins_ex :
  fst (_clean_line float_decimal "0.5,10,20,30" demo_twice_names) !! "left_gripper"
  = Some 30
  /\ fst (_clean_line float_decimal "0.5,10,20," demo_twice_names) !! "left_gripper"
     = Some 10.
Proof. vm_compute. split; reflexivity. Qed.

(** ** The values of a parsed recording *)

Section Values.

Variable py_float : string -> option Q.
Variable l_arm r_arm : gmap string Q.
Variable params : gmap string Q.

(** X20: in a recording that parses, the arm point that follows the
    initial one for a data row holds, joint by joint in the order of the
    arm's joint names, the values of that row's command mapping, and
    the gripper points hold the row's "left_gripper" and
    "right_gripper" values. *)
Theorem parse_file_positions header line0 rest s' :
  parse_file py_float l_arm r_arm params (Some (header :: line0 :: rest))
             new_trajectory = Ok s' ->
  let names := split_comma (rstrip header) in
  Forall2 (fun line p =>
             Forall2 (fun name v => row_cmd py_float names line !! name = Some v)
                     (joint_names (l_goal s')) (positions p))
          (line0 :: rest) (List.tl (points (l_goal s')))
  /\ Forall2 (fun line p =>
                Forall2 (fun name v => row_cmd py_float names line !! name = Some v)
                        (joint_names (r_goal s')) (positions p))
             (line0 :: rest) (List.tl (points (r_goal s')))
  /\ Forall2 (fun line p =>
                exists g, row_cmd py_float names line !! "left_gripper" = Some g
                          /\ positions p = [g])
             (line0 :: rest) (points (l_grip s'))
  /\ Forall2 (fun line p =>
                exists g, row_cmd py_float names line !! "right_gripper" = Some g
                          /\ positions p = [g])
             (line0 :: rest) (points (r_grip s')).
Proof.
  intros Hp names.
  apply parse_file_shape in Hp
    as (cl & cr & off & t0 & rds & _ & _ & _ & _ & HF & ->).
  fold names in HF. simpl.
  repeat split.
  - induction HF as [|line rd lines rds' (_ & Hl & _) _ IH]; constructor;
      [apply dict_get_Forall2, Hl | exact IH].
  - induction HF as [|line rd lines rds' (_ & _ & Hr & _) _ IH]; constructor;
      [apply dict_get_Forall2, Hr | exact IH].
  - induction HF as [|line rd lines rds' (_ & _ & _ & Hg & _) _ IH]; constructor;
      [|exact IH].
    exists (rd_lgrip rd). split; [|reflexivity].
    unfold dict_get in Hg. destruct (_ !! "left_gripper"); [|discriminate Hg].
    injection Hg as ->. reflexivity.
  - induction HF as [|line rd lines rds' (_ & _ & _ & _ & Hg) _ IH]; constructor;
      [|exact IH].
    exists (rd_rgrip rd). split; [|reflexivity].
    unfold dict_get in Hg. destruct (_ !! "right_gripper"); [|discriminate Hg].
    injection Hg as ->. reflexivity.
Qed.

End Values.

Lemma parse_file_positions_witness :
  demo_parse demo_file = Ok demo_session
  /\ Forall2 (fun line p =>
                exists g, row_cmd float_decimal
                                  (split_comma (rstrip (nth 0 demo_file ""))) line
                          !! "left_gripper" = Some g
                          /\ positions p = [g])
             (List.tl demo_file) (points (l_grip demo_session)).
Proof.
  split; [exact demo_parse_ok|].
  destruct (parse_file_positions float_decimal demo_l_arm demo_r_arm demo_params
              (nth 0 demo_file "") (nth 1 demo_file "")
              (List.tl (List.tl demo_file)) demo_session demo_parse_ok)
    as (_ & _ & Hg & _).
  exact Hg.
Defined.

(** ** The order of the two writes of [_feedback] *)

(** X21: an invocation that passes the test raises the flag before it
    stores the reported time.  After its second step the flag is up
    while the latched offset is still the old one, so whoever reads the
    offset as soon as the flag is up can read the old value; only the
    third step stores the time. *)
Theorem feedback_flag_before_offset (s : Trajectory) (t : Q) (b : callback) :
  arm_trajectory_started s = false -> trajectory_start_offset s <= t ->
  let '(s2, a2, _) := interleave [true; true] s (invoke t) b in
  let '(s3, a3, _) := interleave [true; true; true] s (invoke t) b in
  arm_trajectory_started s2 = true
  /\ trajectory_actual_offset s2 = trajectory_actual_offset s
  /\ cb_pc a2 = AtSetOffset
  /\ arm_trajectory_started s3 = true
  /\ trajectory_actual_offset s3 = t
  /\ cb_pc a3 = Returned.
Proof.
  intros Hf Ht. apply Qle_bool_iff in Ht.
  cbn [interleave]. unfold cb_step at 1 3. cbn [invoke cb_pc cb_time].
  unfold _get_trajectory_flag. rewrite Hf, Ht. simpl. auto 10.
Qed.

Lemma feedback_flag_before_offset_witness :
  let s := set_offsets new_trajectory 1 1 in
  arm_trajectory_started s = false
  /\ arm_trajectory_started
       (fst (fst (interleave [true; true] s (invoke 2) (invoke 0)))) = true
  /\ trajectory_actual_offset
       (fst (fst (interleave [true; true] s (invoke 2) (invoke 0)))) = 0.
Proof.
  intros s.
  assert (Hf : arm_trajectory_started s = false) by reflexivity.
  assert (Ht : trajectory_start_offset s <= 2) by (vm_compute; discriminate).
  pose proof (feedback_flag_before_offset s 2 (invoke 0) Hf Ht) as H.
  destruct (interleave [true; true] s (invoke 2) (invoke 0)) as [[s2 a2] b2].
  destruct (interleave [true; true; true] s (invoke 2) (invoke 0)) as [[s3 a3] b3].
  destruct H as (H1 & H2 & _). simpl.
  split; [exact Hf|]. split; [exact H1 | exact H2].
Defined.
